(** * RISC-V guest-to-TCG translation (target/riscv/translate.c)

    The translator is embedded as functions that emit TCG operations into
    the op buffer of a [TCGContext] and mutate a [DisasContext]; the emitted
    operations are given meaning by an executor over the guest CPU state.
    Machine integers are [Z] with the wrap-around of [target_ulong] written
    out. *)

From Stdlib Require Import ZArith List Bool Lia.
Import ListNotations.
Local Open Scope Z_scope.

(** ** Build configuration

    The preprocessor switches and target constants the file is compiled
    against. *)

Record Config := {
  TARGET_RISCV64 : bool;      (* #ifdef TARGET_RISCV64 *)
  CONFIG_USER_ONLY : bool;    (* #ifdef CONFIG_USER_ONLY *)
  TARGET_PAGE_BITS : Z        (* cpu.h, log2 of the guest page size *)
}.

Definition TARGET_LONG_BITS (cfg : Config) : Z :=
  if TARGET_RISCV64 cfg then 64 else 32.

(** The cast [(target_ulong) z]. *)
Definition target_ulong (cfg : Config) (z : Z) : Z :=
  z mod 2 ^ TARGET_LONG_BITS cfg.

(** The cast [(target_long) z]: the two's complement reading. *)
Definition target_long (cfg : Config) (z : Z) : Z :=
  let u := target_ulong cfg z in
  if u <? 2 ^ (TARGET_LONG_BITS cfg - 1) then u else u - 2 ^ TARGET_LONG_BITS cfg.

(** Modelled from the spec: the guest memory page, given by the macros
    [TARGET_PAGE_SIZE] ([1 << TARGET_PAGE_BITS]) and [TARGET_PAGE_MASK]
    ([~(TARGET_PAGE_SIZE - 1)]) of cpu-all.h. *)
Definition TARGET_PAGE_SIZE (cfg : Config) : Z := Z.shiftl 1 (TARGET_PAGE_BITS cfg).
Definition TARGET_PAGE_MASK (cfg : Config) : Z := Z.lnot (TARGET_PAGE_SIZE cfg - 1).

(** ** TCG values and operations *)

(** [cpu_gpr[32]], [cpu_pc], [load_res], [load_val] are the global TCG
    values; temporaries are numbered in allocation order. *)
Inductive TCGv :=
| GPR (n : Z)
| CPU_PC
| LOAD_RES
| LOAD_VAL
| TEMP (n : nat).

Inductive TCGv_i32 :=
| TEMP_I32 (n : nat).

Definition TCGv_eqb (a b : TCGv) : bool :=
  match a, b with
  | GPR n, GPR m => n =? m
  | CPU_PC, CPU_PC => true
  | LOAD_RES, LOAD_RES => true
  | LOAD_VAL, LOAD_VAL => true
  | TEMP n, TEMP m => Nat.eqb n m
  | _, _ => false
  end.

Definition TCGv_i32_eqb (a b : TCGv_i32) : bool :=
  match a, b with TEMP_I32 n, TEMP_I32 m => Nat.eqb n m end.

(** [cpu_gpr[i]].  Slot 0 is the NULL placeholder of [riscv_translate_init]
    and is never handed to an operation. *)
Definition cpu_gpr (i : Z) : TCGv := GPR i.
Definition cpu_pc : TCGv := CPU_PC.

Inductive TCGCond := TCG_COND_EQ | TCG_COND_NE.

Record TranslationBlock := {
  tb_pc : Z;
  tb_flags : Z
}.

(** Fields of [CPURISCVState] addressed with [offsetof]. *)
Inductive env_field := offsetof_badaddr.

Inductive tcg_op :=
| op_movi (ret : TCGv) (c : Z)
| op_mov (ret arg : TCGv)
| op_setcondi (cond : TCGCond) (ret arg : TCGv) (c : Z)
| op_movcond (cond : TCGCond) (ret c1 c2 v1 v2 : TCGv)
| op_and (ret a b : TCGv)
| op_or (ret a b : TCGv)
| op_sub (ret a b : TCGv)
| op_sari (ret a : TCGv) (c : Z)
| op_mulu2 (rl rh a b : TCGv)
| op_div (ret a b : TCGv)
| op_divu (ret a b : TCGv)
| op_rem (ret a b : TCGv)
| op_remu (ret a b : TCGv)
| op_st (val : TCGv) (field : env_field)
| op_movi_i32 (ret : TCGv_i32) (c : Z)
| op_helper_raise_exception (arg : TCGv_i32)
| op_helper_set_rounding_mode (arg : TCGv_i32)
| op_goto_tb (n : Z)
| op_exit_tb (tb : option TranslationBlock) (n : Z)
| op_lookup_and_goto_ptr
| op_insn_start (pc : Z).

(** ** The translation-time state: op buffer and temporaries *)

Record TCGContext := {
  tcg_ops : list tcg_op;
  nb_temps : nat;
  nb_temps_i32 : nat
}.

Definition Gen (A : Type) : Type := TCGContext -> A * TCGContext.

Definition ret {A} (a : A) : Gen A := fun tc => (a, tc).

Definition bind {A B} (m : Gen A) (k : A -> Gen B) : Gen B :=
  fun tc => let (a, tc') := m tc in k a tc'.

Declare Scope gen_scope.
Delimit Scope gen_scope with gen.
Notation "x <- m ;; k" := (bind m (fun x => k))
  (at level 61, m at next level, right associativity) : gen_scope.
Notation "m ;; k" := (bind m (fun _ => k))
  (at level 61, right associativity) : gen_scope.
Local Open Scope gen_scope.

Definition emit (o : tcg_op) : Gen unit :=
  fun tc => (tt, {| tcg_ops := tcg_ops tc ++ [o];
                    nb_temps := nb_temps tc;
                    nb_temps_i32 := nb_temps_i32 tc |}).

Definition tcg_temp_new : Gen TCGv :=
  fun tc => (TEMP (nb_temps tc),
             {| tcg_ops := tcg_ops tc;
                nb_temps := S (nb_temps tc);
                nb_temps_i32 := nb_temps_i32 tc |}).

Definition tcg_temp_new_i32 : Gen TCGv_i32 :=
  fun tc => (TEMP_I32 (nb_temps_i32 tc),
             {| tcg_ops := tcg_ops tc;
                nb_temps := nb_temps tc;
                nb_temps_i32 := S (nb_temps_i32 tc) |}).

(** Releasing a temporary emits nothing. *)
Definition tcg_temp_free (t : TCGv) : Gen unit := ret tt.
Definition tcg_temp_free_i32 (t : TCGv_i32) : Gen unit := ret tt.

Definition tcg_const_tl (c : Z) : Gen TCGv :=
  t <- tcg_temp_new ;; emit (op_movi t c) ;; ret t.

Definition tcg_const_i32 (c : Z) : Gen TCGv_i32 :=
  t <- tcg_temp_new_i32 ;; emit (op_movi_i32 t c) ;; ret t.

Definition tcg_gen_movi_tl (r : TCGv) (c : Z) : Gen unit := emit (op_movi r c).
Definition tcg_gen_mov_tl (r a : TCGv) : Gen unit := emit (op_mov r a).
Definition tcg_gen_setcondi_tl (cond : TCGCond) (r a : TCGv) (c : Z) : Gen unit :=
  emit (op_setcondi cond r a c).
Definition tcg_gen_movcond_tl (cond : TCGCond) (r c1 c2 v1 v2 : TCGv) : Gen unit :=
  emit (op_movcond cond r c1 c2 v1 v2).
Definition tcg_gen_and_tl (r a b : TCGv) : Gen unit := emit (op_and r a b).
Definition tcg_gen_or_tl (r a b : TCGv) : Gen unit := emit (op_or r a b).
Definition tcg_gen_sub_tl (r a b : TCGv) : Gen unit := emit (op_sub r a b).
Definition tcg_gen_sari_tl (r a : TCGv) (c : Z) : Gen unit := emit (op_sari r a c).
Definition tcg_gen_mulu2_tl (rl rh a b : TCGv) : Gen unit := emit (op_mulu2 rl rh a b).
Definition tcg_gen_div_tl (r a b : TCGv) : Gen unit := emit (op_div r a b).
Definition tcg_gen_divu_tl (r a b : TCGv) : Gen unit := emit (op_divu r a b).
Definition tcg_gen_rem_tl (r a b : TCGv) : Gen unit := emit (op_rem r a b).
Definition tcg_gen_remu_tl (r a b : TCGv) : Gen unit := emit (op_remu r a b).
Definition tcg_gen_st_tl (v : TCGv) (f : env_field) : Gen unit := emit (op_st v f).
Definition gen_helper_raise_exception (a : TCGv_i32) : Gen unit :=
  emit (op_helper_raise_exception a).
Definition gen_helper_set_rounding_mode (a : TCGv_i32) : Gen unit :=
  emit (op_helper_set_rounding_mode a).
Definition tcg_gen_goto_tb (n : Z) : Gen unit := emit (op_goto_tb n).
Definition tcg_gen_exit_tb (tb : option TranslationBlock) (n : Z) : Gen unit :=
  emit (op_exit_tb tb n).
Definition tcg_gen_lookup_and_goto_ptr : Gen unit := emit op_lookup_and_goto_ptr.
Definition tcg_gen_insn_start (pc : Z) : Gen unit := emit (op_insn_start pc).

(** ** Execution of the emitted operations *)

Record GuestState := {
  tv : TCGv -> Z;          (* globals (env->gpr[i], env->pc, ...) and temporaries *)
  tv32 : TCGv_i32 -> Z;    (* 32-bit temporaries *)
  badaddr : Z;             (* env->badaddr *)
  fp_rounding : Z          (* rounding mode installed in env->fp_status *)
}.

Definition set_tv (s : GuestState) (r : TCGv) (v : Z) : GuestState :=
  {| tv := fun x => if TCGv_eqb x r then v else tv s x;
     tv32 := tv32 s; badaddr := badaddr s; fp_rounding := fp_rounding s |}.

Definition set_tv32 (s : GuestState) (r : TCGv_i32) (v : Z) : GuestState :=
  {| tv := tv s;
     tv32 := fun x => if TCGv_i32_eqb x r then v else tv32 s x;
     badaddr := badaddr s; fp_rounding := fp_rounding s |}.

Definition set_badaddr (s : GuestState) (v : Z) : GuestState :=
  {| tv := tv s; tv32 := tv32 s; badaddr := v; fp_rounding := fp_rounding s |}.

Definition set_fp_rounding (s : GuestState) (v : Z) : GuestState :=
  {| tv := tv s; tv32 := tv32 s; badaddr := badaddr s; fp_rounding := v |}.

(** How a run of operations leaves the block. *)
Inductive tb_exit :=
| EXIT_EXCEPTION (excp : Z)                          (* raise_exception: cpu_loop_exit *)
| EXIT_TB (tb : option TranslationBlock) (n : Z)     (* exit_tb *)
| EXIT_LOOKUP.                                       (* lookup_and_goto_ptr *)

Inductive exec_result :=
| Next (s : GuestState)                  (* fell through to the following op *)
| Exited (e : tb_exit) (s : GuestState)
| Undefined.                           (* division by zero or overflow in the host op *)

Definition eval_cond (c : TCGCond) (a b : Z) : bool :=
  match c with
  | TCG_COND_EQ => a =? b
  | TCG_COND_NE => negb (a =? b)
  end.

Definition min_signed (cfg : Config) : Z :=
  Z.shiftl 1 (TARGET_LONG_BITS cfg - 1).

(** Modelled from the spec: the IR emission backend's operations
    (move, arithmetic, compare, conditional select, shift, store, helper
    call, block exits), which live in tcg/ outside this file.  Every
    operation works on [TARGET_LONG_BITS]-wide values; signed division and
    remainder truncate toward zero and are undefined on a zero divisor and
    on the overflowing pair. *)
Definition exec_op (cfg : Config) (o : tcg_op) (s : GuestState) : exec_result :=
  let U := target_ulong cfg in
  let sx := target_long cfg in
  match o with
  | op_movi r c => Next (set_tv s r (U c))
  | op_mov r a => Next (set_tv s r (tv s a))
  | op_setcondi c r a k =>
      Next (set_tv s r (if eval_cond c (tv s a) (U k) then 1 else 0))
  | op_movcond c r c1 c2 v1 v2 =>
      Next (set_tv s r (if eval_cond c (tv s c1) (tv s c2) then tv s v1 else tv s v2))
  | op_and r a b => Next (set_tv s r (Z.land (tv s a) (tv s b)))
  | op_or r a b => Next (set_tv s r (Z.lor (tv s a) (tv s b)))
  | op_sub r a b => Next (set_tv s r (U (tv s a - tv s b)))
  | op_sari r a k => Next (set_tv s r (U (Z.shiftr (sx (tv s a)) k)))
  | op_mulu2 rl rh a b =>
      let p := tv s a * tv s b in
      Next (set_tv (set_tv s rl (U p)) rh (U (Z.shiftr p (TARGET_LONG_BITS cfg))))
  | op_div r a b =>
      if (tv s b =? 0)
         || ((tv s a =? min_signed cfg) && (sx (tv s b) =? -1))
      then Undefined
      else Next (set_tv s r (U (Z.quot (sx (tv s a)) (sx (tv s b)))))
  | op_divu r a b =>
      if tv s b =? 0 then Undefined
      else Next (set_tv s r (tv s a / tv s b))
  | op_rem r a b =>
      if (tv s b =? 0)
         || ((tv s a =? min_signed cfg) && (sx (tv s b) =? -1))
      then Undefined
      else Next (set_tv s r (U (Z.rem (sx (tv s a)) (sx (tv s b)))))
  | op_remu r a b =>
      if tv s b =? 0 then Undefined
      else Next (set_tv s r (tv s a mod tv s b))
  | op_st v offsetof_badaddr => Next (set_badaddr s (tv s v))
  | op_movi_i32 r c => Next (set_tv32 s r c)
  | op_helper_raise_exception a => Exited (EXIT_EXCEPTION (tv32 s a)) s
  | op_helper_set_rounding_mode a => Next (set_fp_rounding s (tv32 s a))
  | op_goto_tb n => Next s
  | op_exit_tb tb n => Exited (EXIT_TB tb n) s
  | op_lookup_and_goto_ptr => Exited EXIT_LOOKUP s
  | op_insn_start pc => Next s
  end.

Fixpoint exec (cfg : Config) (ops : list tcg_op) (s : GuestState) : exec_result :=
  match ops with
  | [] => Next s
  | o :: rest =>
      match exec_op cfg o s with
      | Next s' => exec cfg rest s'
      | r => r
      end
  end.

(** ** Translation context *)

(** The exit reasons of exec/translator.h this file uses. *)
Inductive DisasJumpType := DISAS_NEXT | DISAS_TOO_MANY | DISAS_NORETURN.

(** The numeric values of the enumeration, as compared by the loop. *)
Definition DisasJumpType_value (j : DisasJumpType) : Z :=
  match j with
  | DISAS_NEXT => 0
  | DISAS_TOO_MANY => 1
  | DISAS_NORETURN => 2
  end.

Definition DisasJumpType_eqb (a b : DisasJumpType) : bool :=
  DisasJumpType_value a =? DisasJumpType_value b.

Record DisasContextBase := {
  tb : TranslationBlock;
  pc_first : Z;
  pc_next : Z;
  is_jmp : DisasJumpType;
  num_insns : nat;
  singlestep_enabled : bool
}.

(** The part of [CPURISCVState] the translator reads: the ISA register and
    the guest code seen by [cpu_ldl_code]. *)
Record CPURISCVState := {
  misa : Z;
  code : Z -> Z
}.

Record DisasContext := {
  base : DisasContextBase;
  pc_succ_insn : Z;
  opcode : Z;
  flags : Z;
  mem_idx : Z;
  frm : Z;
  env : CPURISCVState
}.

(** The part of QEMU's [CPUState] the block driver reads. *)
Record CPUState := {
  env_ptr : CPURISCVState;
  cpu_singlestep_enabled : bool;
  breakpoints : list Z
}.

Definition set_base (ctx : DisasContext) (b : DisasContextBase) : DisasContext :=
  {| base := b; pc_succ_insn := pc_succ_insn ctx; opcode := opcode ctx;
     flags := flags ctx; mem_idx := mem_idx ctx; frm := frm ctx; env := env ctx |}.

Definition set_is_jmp (ctx : DisasContext) (j : DisasJumpType) : DisasContext :=
  set_base ctx
    {| tb := tb (base ctx); pc_first := pc_first (base ctx);
       pc_next := pc_next (base ctx); is_jmp := j;
       num_insns := num_insns (base ctx);
       singlestep_enabled := singlestep_enabled (base ctx) |}.

Definition set_pc_next (ctx : DisasContext) (pc : Z) : DisasContext :=
  set_base ctx
    {| tb := tb (base ctx); pc_first := pc_first (base ctx);
       pc_next := pc; is_jmp := is_jmp (base ctx);
       num_insns := num_insns (base ctx);
       singlestep_enabled := singlestep_enabled (base ctx) |}.

Definition set_num_insns (ctx : DisasContext) (n : nat) : DisasContext :=
  set_base ctx
    {| tb := tb (base ctx); pc_first := pc_first (base ctx);
       pc_next := pc_next (base ctx); is_jmp := is_jmp (base ctx);
       num_insns := n;
       singlestep_enabled := singlestep_enabled (base ctx) |}.

Definition set_pc_succ_insn (ctx : DisasContext) (pc : Z) : DisasContext :=
  {| base := base ctx; pc_succ_insn := pc; opcode := opcode ctx;
     flags := flags ctx; mem_idx := mem_idx ctx; frm := frm ctx; env := env ctx |}.

Definition set_opcode (ctx : DisasContext) (o : Z) : DisasContext :=
  {| base := base ctx; pc_succ_insn := pc_succ_insn ctx; opcode := o;
     flags := flags ctx; mem_idx := mem_idx ctx; frm := frm ctx; env := env ctx |}.

Definition set_flags (ctx : DisasContext) (f : Z) : DisasContext :=
  {| base := base ctx; pc_succ_insn := pc_succ_insn ctx; opcode := opcode ctx;
     flags := f; mem_idx := mem_idx ctx; frm := frm ctx; env := env ctx |}.

Definition set_mem_idx (ctx : DisasContext) (m : Z) : DisasContext :=
  {| base := base ctx; pc_succ_insn := pc_succ_insn ctx; opcode := opcode ctx;
     flags := flags ctx; mem_idx := m; frm := frm ctx; env := env ctx |}.

Definition set_frm (ctx : DisasContext) (r : Z) : DisasContext :=
  {| base := base ctx; pc_succ_insn := pc_succ_insn ctx; opcode := opcode ctx;
     flags := flags ctx; mem_idx := mem_idx ctx; frm := r; env := env ctx |}.

Definition set_env (ctx : DisasContext) (e : CPURISCVState) : DisasContext :=
  {| base := base ctx; pc_succ_insn := pc_succ_insn ctx; opcode := opcode ctx;
     flags := flags ctx; mem_idx := mem_idx ctx; frm := frm ctx; env := e |}.

(** ** Constants of the headers

    Modelled from the spec: the fixed enumeration of exception codes
    (cpu_bits.h, with the cause numbers of the RISC-V privileged
    architecture; [EXCP_DEBUG] of cpu-all.h), the major opcode of the
    ECALL/EBREAK group (instmap.h) and the MMU-mode mask of the block flags
    (cpu.h), none of which this file defines. *)

Definition RISCV_EXCP_INST_ADDR_MIS : Z := 0.
Definition RISCV_EXCP_ILLEGAL_INST : Z := 2.
Definition RISCV_EXCP_BREAKPOINT : Z := 3.
Definition RISCV_EXCP_U_ECALL : Z := 8.
Definition RISCV_EXCP_S_ECALL : Z := 9.
Definition RISCV_EXCP_H_ECALL : Z := 10.
Definition RISCV_EXCP_M_ECALL : Z := 11.
Definition EXCP_DEBUG : Z := 65538.
Definition OPC_RISC_ECALL : Z := 115.
Definition TB_FLAGS_MMU_MASK : Z := 3.

(** Modelled from the spec: the compressed-instruction feature flag.  In
    cpu.h [RV(x)] is [1 << (x - 'A')], [RVC] is [RV('C')], and
    [riscv_has_ext] tests the bit in [env->misa]. *)
Definition RVC : Z := Z.shiftl 1 2.

Definition riscv_has_ext (e : CPURISCVState) (ext : Z) : bool :=
  negb (Z.land (misa e) ext =? 0).

(** Modelled from the spec: [extract32] of qemu/bitops.h, the [length]
    bits of [value] from bit [start] up. *)
Definition extract32 (value start length : Z) : Z :=
  Z.land (Z.shiftr value start) (Z.ones length).

(** Modelled from the spec: the guest memory fetch, which returns the raw
    32-bit instruction word at a guest address.  A fetch that faults leaves
    the translator altogether and is not represented. *)
Definition cpu_ldl_code (e : CPURISCVState) (addr : Z) : Z :=
  code e addr mod 2 ^ 32.

(** ** Exceptions *)

Definition generate_exception (ctx : DisasContext) (excp : Z) : Gen DisasContext :=
  tcg_gen_movi_tl cpu_pc (pc_next (base ctx)) ;;
  helper_tmp <- tcg_const_i32 excp ;;
  gen_helper_raise_exception helper_tmp ;;
  tcg_temp_free_i32 helper_tmp ;;
  ret (set_is_jmp ctx DISAS_NORETURN).

Definition generate_exception_mbadaddr (ctx : DisasContext) (excp : Z)
  : Gen DisasContext :=
  tcg_gen_movi_tl cpu_pc (pc_next (base ctx)) ;;
  tcg_gen_st_tl cpu_pc offsetof_badaddr ;;
  helper_tmp <- tcg_const_i32 excp ;;
  gen_helper_raise_exception helper_tmp ;;
  tcg_temp_free_i32 helper_tmp ;;
  ret (set_is_jmp ctx DISAS_NORETURN).

Definition gen_exception_debug : Gen unit :=
  helper_tmp <- tcg_const_i32 EXCP_DEBUG ;;
  gen_helper_raise_exception helper_tmp ;;
  tcg_temp_free_i32 helper_tmp.

Definition gen_exception_illegal (ctx : DisasContext) : Gen DisasContext :=
  generate_exception ctx RISCV_EXCP_ILLEGAL_INST.

Definition gen_exception_inst_addr_mis (ctx : DisasContext) : Gen DisasContext :=
  generate_exception_mbadaddr ctx RISCV_EXCP_INST_ADDR_MIS.

(** ** Block chaining *)

Definition use_goto_tb (cfg : Config) (ctx : DisasContext) (dest : Z) : bool :=
  if singlestep_enabled (base ctx) then false
  else if CONFIG_USER_ONLY cfg then true
  else Z.land (tb_pc (tb (base ctx))) (TARGET_PAGE_MASK cfg)
       =? Z.land dest (TARGET_PAGE_MASK cfg).

Definition gen_goto_tb (cfg : Config) (ctx : DisasContext) (n : Z) (dest : Z)
  : Gen unit :=
  if use_goto_tb cfg ctx dest then
    (* chaining is only allowed when the jump is to the same page *)
    tcg_gen_goto_tb n ;;
    tcg_gen_movi_tl cpu_pc dest ;;
    tcg_gen_exit_tb (Some (tb (base ctx))) n
  else
    tcg_gen_movi_tl cpu_pc dest ;;
    if singlestep_enabled (base ctx) then gen_exception_debug
    else tcg_gen_lookup_and_goto_ptr.

(** ** Integer register access *)

Definition gen_get_gpr (t : TCGv) (reg_num : Z) : Gen unit :=
  if reg_num =? 0 then tcg_gen_movi_tl t 0
  else tcg_gen_mov_tl t (cpu_gpr reg_num).

Definition gen_set_gpr (reg_num_dst : Z) (t : TCGv) : Gen unit :=
  if negb (reg_num_dst =? 0) then tcg_gen_mov_tl (cpu_gpr reg_num_dst) t
  else ret tt.

(** ** Arithmetic generators *)

Definition gen_mulhsu (cfg : Config) (ret_ arg1 arg2 : TCGv) : Gen unit :=
  rl <- tcg_temp_new ;;
  rh <- tcg_temp_new ;;
  tcg_gen_mulu2_tl rl rh arg1 arg2 ;;
  (* fix up for one negative *)
  tcg_gen_sari_tl rl arg1 (TARGET_LONG_BITS cfg - 1) ;;
  tcg_gen_and_tl rl rl arg2 ;;
  tcg_gen_sub_tl ret_ rh rl ;;
  tcg_temp_free rl ;;
  tcg_temp_free rh.

Definition gen_div (cfg : Config) (ret_ source1 source2 : TCGv) : Gen unit :=
  (* Handle by altering args to tcg_gen_div to produce req'd results:
     For overflow: want source1 in source1 and 1 in source2
     For div by zero: want -1 in source1 and 1 in source2 -> -1 result *)
  cond1 <- tcg_temp_new ;;
  cond2 <- tcg_temp_new ;;
  zeroreg <- tcg_const_tl 0 ;;
  resultopt1 <- tcg_temp_new ;;
  tcg_gen_movi_tl resultopt1 (target_ulong cfg (-1)) ;;
  tcg_gen_setcondi_tl TCG_COND_EQ cond2 source2 (target_ulong cfg (Z.lnot 0)) ;;
  tcg_gen_setcondi_tl TCG_COND_EQ cond1 source1
    (Z.shiftl (target_ulong cfg 1) (TARGET_LONG_BITS cfg - 1)) ;;
  tcg_gen_and_tl cond1 cond1 cond2 ;; (* cond1 = overflow *)
  tcg_gen_setcondi_tl TCG_COND_EQ cond2 source2 0 ;; (* cond2 = div 0 *)
  (* if div by zero, set source1 to -1, otherwise don't change *)
  tcg_gen_movcond_tl TCG_COND_EQ source1 cond2 zeroreg source1 resultopt1 ;;
  (* if overflow or div by zero, set source2 to 1, else don't change *)
  tcg_gen_or_tl cond1 cond1 cond2 ;;
  tcg_gen_movi_tl resultopt1 (target_ulong cfg 1) ;;
  tcg_gen_movcond_tl TCG_COND_EQ source2 cond1 zeroreg source2 resultopt1 ;;
  tcg_gen_div_tl ret_ source1 source2 ;;
  tcg_temp_free cond1 ;;
  tcg_temp_free cond2 ;;
  tcg_temp_free zeroreg ;;
  tcg_temp_free resultopt1.

Definition gen_divu (cfg : Config) (ret_ source1 source2 : TCGv) : Gen unit :=
  cond1 <- tcg_temp_new ;;
  zeroreg <- tcg_const_tl 0 ;;
  resultopt1 <- tcg_temp_new ;;
  tcg_gen_setcondi_tl TCG_COND_EQ cond1 source2 0 ;;
  tcg_gen_movi_tl resultopt1 (target_ulong cfg (-1)) ;;
  tcg_gen_movcond_tl TCG_COND_EQ source1 cond1 zeroreg source1 resultopt1 ;;
  tcg_gen_movi_tl resultopt1 (target_ulong cfg 1) ;;
  tcg_gen_movcond_tl TCG_COND_EQ source2 cond1 zeroreg source2 resultopt1 ;;
  tcg_gen_divu_tl ret_ source1 source2 ;;
  tcg_temp_free cond1 ;;
  tcg_temp_free zeroreg ;;
  tcg_temp_free resultopt1.

Definition gen_rem (cfg : Config) (ret_ source1 source2 : TCGv) : Gen unit :=
  cond1 <- tcg_temp_new ;;
  cond2 <- tcg_temp_new ;;
  zeroreg <- tcg_const_tl 0 ;;
  resultopt1 <- tcg_temp_new ;;
  tcg_gen_movi_tl resultopt1 1 ;;
  tcg_gen_setcondi_tl TCG_COND_EQ cond2 source2 (target_ulong cfg (-1)) ;;
  tcg_gen_setcondi_tl TCG_COND_EQ cond1 source1
    (Z.shiftl (target_ulong cfg 1) (TARGET_LONG_BITS cfg - 1)) ;;
  tcg_gen_and_tl cond2 cond1 cond2 ;; (* cond1 = overflow *)
  tcg_gen_setcondi_tl TCG_COND_EQ cond1 source2 0 ;; (* cond2 = div 0 *)
  (* if overflow or div by zero, set source2 to 1, else don't change *)
  tcg_gen_or_tl cond2 cond1 cond2 ;;
  tcg_gen_movcond_tl TCG_COND_EQ source2 cond2 zeroreg source2 resultopt1 ;;
  tcg_gen_rem_tl resultopt1 source1 source2 ;;
  (* if div by zero, just return the original dividend *)
  tcg_gen_movcond_tl TCG_COND_EQ ret_ cond1 zeroreg resultopt1 source1 ;;
  tcg_temp_free cond1 ;;
  tcg_temp_free cond2 ;;
  tcg_temp_free zeroreg ;;
  tcg_temp_free resultopt1.

Definition gen_remu (cfg : Config) (ret_ source1 source2 : TCGv) : Gen unit :=
  cond1 <- tcg_temp_new ;;
  zeroreg <- tcg_const_tl 0 ;;
  resultopt1 <- tcg_temp_new ;;
  tcg_gen_movi_tl resultopt1 (target_ulong cfg 1) ;;
  tcg_gen_setcondi_tl TCG_COND_EQ cond1 source2 0 ;;
  tcg_gen_movcond_tl TCG_COND_EQ source2 cond1 zeroreg source2 resultopt1 ;;
  tcg_gen_remu_tl resultopt1 source1 source2 ;;
  (* if div by zero, just return the original dividend *)
  tcg_gen_movcond_tl TCG_COND_EQ ret_ cond1 zeroreg resultopt1 source1 ;;
  tcg_temp_free cond1 ;;
  tcg_temp_free zeroreg ;;
  tcg_temp_free resultopt1.

(** ** Jumps, rounding mode, system instructions *)

Definition gen_jal (cfg : Config) (e : CPURISCVState) (ctx : DisasContext)
  (rd : Z) (imm : Z) : Gen DisasContext :=
  (* check misaligned: *)
  let next_pc := target_ulong cfg (pc_next (base ctx) + imm) in
  let jump : Gen DisasContext :=
    (if negb (rd =? 0) then tcg_gen_movi_tl (cpu_gpr rd) (pc_succ_insn ctx)
     else ret tt) ;;
    (* must use this for safety *)
    gen_goto_tb cfg ctx 0 (target_ulong cfg (pc_next (base ctx) + imm)) ;;
    ret (set_is_jmp ctx DISAS_NORETURN) in
  if negb (riscv_has_ext e RVC) then
    if negb (Z.land next_pc 3 =? 0) then
      gen_exception_inst_addr_mis ctx (* return *)
    else jump
  else jump.

Definition gen_set_rm (ctx : DisasContext) (rm : Z) : Gen DisasContext :=
  if frm ctx =? rm then ret ctx
  else
    let ctx := set_frm ctx rm in
    t0 <- tcg_const_i32 rm ;;
    gen_helper_set_rounding_mode t0 ;;
    tcg_temp_free_i32 t0 ;;
    ret ctx.

Definition gen_system (e : CPURISCVState) (ctx : DisasContext) (opc : Z)
  (rd rs1 csr : Z) : Gen DisasContext :=
  tcg_gen_movi_tl cpu_pc (pc_next (base ctx)) ;;
  if opc =? OPC_RISC_ECALL then
    if csr =? 0 then (* ECALL *)
      (* always generates U-level ECALL, fixed in do_interrupt handler *)
      ctx <- generate_exception ctx RISCV_EXCP_U_ECALL ;;
      tcg_gen_exit_tb None 0 ;; (* no chaining *)
      ret (set_is_jmp ctx DISAS_NORETURN)
    else if csr =? 1 then (* EBREAK *)
      ctx <- generate_exception ctx RISCV_EXCP_BREAKPOINT ;;
      tcg_gen_exit_tb None 0 ;; (* no chaining *)
      ret (set_is_jmp ctx DISAS_NORETURN)
    else
      gen_exception_illegal ctx
  else ret ctx.

(** ** Decoding one opcode and driving a block *)

Section Translator.

Variable cfg : Config.

(** The generated decoders [decode_insn32] and [decode_insn16]
    (decode_insn32.inc.c, decode_insn16.inc.c) with the [trans_*]
    functions they dispatch to: they receive the context and the
    instruction word, may emit operations and change the context, and
    report whether a pattern matched. *)
Variable decode_insn32 : DisasContext -> Z -> Gen (bool * DisasContext).
Variable decode_insn16 : DisasContext -> Z -> Gen (bool * DisasContext).

Definition decode_opc (ctx : DisasContext) : Gen DisasContext :=
  (* check for compressed insn *)
  if negb (extract32 (opcode ctx) 0 2 =? 3) then
    if negb (riscv_has_ext (env ctx) RVC) then
      gen_exception_illegal ctx
    else
      let ctx := set_pc_succ_insn ctx (target_ulong cfg (pc_next (base ctx) + 2)) in
      r <- decode_insn16 ctx (opcode ctx mod 2 ^ 16) ;;
      let (ok, ctx) := r in
      if negb ok then gen_exception_illegal ctx else ret ctx
  else
    let ctx := set_pc_succ_insn ctx (target_ulong cfg (pc_next (base ctx) + 4)) in
    r <- decode_insn32 ctx (opcode ctx) ;;
    let (ok, ctx) := r in
    if negb ok then gen_exception_illegal ctx else ret ctx.

Definition riscv_tr_init_disas_context (ctx : DisasContext) (cs : CPUState)
  : DisasContext :=
  let ctx := set_pc_succ_insn ctx (pc_first (base ctx)) in
  let ctx := set_flags ctx (tb_flags (tb (base ctx))) in
  let ctx := set_mem_idx ctx (Z.land (tb_flags (tb (base ctx))) TB_FLAGS_MMU_MASK) in
  set_frm ctx (-1). (* unknown rounding mode *)

Definition riscv_tr_tb_start (ctx : DisasContext) (cs : CPUState) : Gen unit :=
  ret tt.

Definition riscv_tr_insn_start (ctx : DisasContext) (cs : CPUState) : Gen unit :=
  tcg_gen_insn_start (pc_next (base ctx)).

Definition riscv_tr_breakpoint_check (ctx : DisasContext) (cs : CPUState)
  (bp : Z) : Gen (bool * DisasContext) :=
  tcg_gen_movi_tl cpu_pc (pc_next (base ctx)) ;;
  let ctx := set_is_jmp ctx DISAS_NORETURN in
  gen_exception_debug ;;
  (* The address covered by the breakpoint must be included in
     [tb->pc, tb->pc + tb->size) in order to for it to be
     properly cleared -- thus we increment the PC here so that
     the logic setting tb->size below does the right thing.  *)
  let ctx := set_pc_next ctx (target_ulong cfg (pc_next (base ctx) + 4)) in
  ret (true, ctx).

Definition riscv_tr_translate_insn (ctx : DisasContext) (cs : CPUState)
  : Gen DisasContext :=
  let ctx := set_env ctx (env_ptr cs) in
  let ctx := set_opcode ctx (cpu_ldl_code (env ctx) (pc_next (base ctx))) in
  ctx <- decode_opc ctx ;;
  let ctx := set_pc_next ctx (pc_succ_insn ctx) in
  if DisasJumpType_eqb (is_jmp (base ctx)) DISAS_NEXT then
    let page_start := Z.land (pc_first (base ctx)) (TARGET_PAGE_MASK cfg) in
    if TARGET_PAGE_SIZE cfg <=? target_ulong cfg (pc_next (base ctx) - page_start)
    then ret (set_is_jmp ctx DISAS_TOO_MANY)
    else ret ctx
  else ret ctx.

(** [g_assert_not_reached] aborts: the result is [None]. *)
Definition riscv_tr_tb_stop (ctx : DisasContext) (cs : CPUState)
  : Gen (option unit) :=
  match is_jmp (base ctx) with
  | DISAS_TOO_MANY =>
      gen_goto_tb cfg ctx 0 (pc_next (base ctx)) ;; ret (Some tt)
  | DISAS_NORETURN => ret (Some tt)
  | _ => ret None
  end.

End Translator.

(** ** The block driver *)

Section BlockDriver.

Variable cfg : Config.
Variable decode_insn32 : DisasContext -> Z -> Gen (bool * DisasContext).
Variable decode_insn16 : DisasContext -> Z -> Gen (bool * DisasContext).

(** Modelled from the spec: the loop of [translator_loop]
    (accel/tcg/translator.c, outside this file), states
    InsnStart, BreakpointCheck, Translate.  Each round counts one
    instruction, marks its start, lets a breakpoint registered at the
    current PC end the block, otherwise translates one instruction and
    goes on only while the exit reason is still [DISAS_NEXT]; [more] is what
    is left of the instruction-count limit, and reaching it ends the block
    with [DISAS_TOO_MANY]. *)
Fixpoint translate_insns (more : nat) (cs : CPUState) (ctx : DisasContext)
  : Gen DisasContext :=
  let ctx := set_num_insns ctx (S (num_insns (base ctx))) in
  riscv_tr_insn_start ctx cs ;;
  let translate (ctx : DisasContext) : Gen DisasContext :=
    ctx <- riscv_tr_translate_insn cfg decode_insn32 decode_insn16 ctx cs ;;
    if negb (DisasJumpType_eqb (is_jmp (base ctx)) DISAS_NEXT) then ret ctx
    else
      match more with
      | O => ret (set_is_jmp ctx DISAS_TOO_MANY)
      | S more' => translate_insns more' cs ctx
      end in
  if existsb (fun bp => bp =? pc_next (base ctx)) (breakpoints cs) then
    r <- riscv_tr_breakpoint_check cfg ctx cs (pc_next (base ctx)) ;;
    let ctx := snd r in
    if DisasJumpType_value DISAS_TOO_MANY <? DisasJumpType_value (is_jmp (base ctx))
    then ret ctx
    else translate ctx
  else translate ctx.

(** Modelled from the spec: [translator_loop], states Init, BlockStart,
    the loop above and BlockStop.  [max_insns] is the instruction-count
    limit of the block (at least one instruction is translated). *)
Definition translator_loop (max_insns : nat) (ctx : DisasContext)
  (cs : CPUState) (tb_ : TranslationBlock) : Gen (option DisasContext) :=
  let ctx := set_base ctx
    {| tb := tb_; pc_first := tb_pc tb_; pc_next := tb_pc tb_;
       is_jmp := DISAS_NEXT; num_insns := O;
       singlestep_enabled := cpu_singlestep_enabled cs |} in
  let ctx := riscv_tr_init_disas_context ctx cs in
  riscv_tr_tb_start ctx cs ;;
  ctx <- translate_insns (Nat.pred max_insns) cs ctx ;;
  r <- riscv_tr_tb_stop cfg ctx cs ;;
  match r with
  | Some _ => ret (Some ctx)
  | None => ret None
  end.

(** [gen_intermediate_code]: the context is a fresh local whose fields
    hold whatever [ctx0] holds until the driver initialises them. *)
Definition gen_intermediate_code (max_insns : nat) (ctx0 : DisasContext)
  (cs : CPUState) (tb_ : TranslationBlock) : Gen (option DisasContext) :=
  translator_loop max_insns ctx0 cs tb_.

End BlockDriver.

(** ** Runs of calls and what a call emitted *)

(** A value is allocated in a context when it is a global or a temporary
    handed out earlier. *)
Definition allocated (tc : TCGContext) (t : TCGv) : Prop :=
  match t with
  | TEMP n => (n < nb_temps tc)%nat
  | _ => True
  end.

(** The operations appended to the buffer between two contexts. *)
Definition emitted_since (tc tc' : TCGContext) : list tcg_op :=
  skipn (length (tcg_ops tc)) (tcg_ops tc').

(** Register writes issued one after another. *)
Fixpoint gen_set_gprs (ws : list (Z * TCGv)) : Gen unit :=
  match ws with
  | [] => ret tt
  | (reg_num_dst, t) :: ws' => gen_set_gpr reg_num_dst t ;; gen_set_gprs ws'
  end.

(** Rounding-mode requests issued one after another on the same context. *)
Fixpoint gen_set_rms (ctx : DisasContext) (rms : list Z) : Gen DisasContext :=
  match rms with
  | [] => ret ctx
  | rm :: rms' => ctx <- gen_set_rm ctx rm ;; gen_set_rms ctx rms'
  end.

Definition is_set_rounding_mode (o : tcg_op) : bool :=
  match o with
  | op_helper_set_rounding_mode _ => true
  | _ => false
  end.

Definition count_installs (ops : list tcg_op) : nat :=
  length (filter is_set_rounding_mode ops).

(** How often a run of requests differs from the mode cached before it. *)
Fixpoint mode_changes (cached : Z) (rms : list Z) : nat :=
  match rms with
  | [] => O
  | rm :: rms' => ((if Z.eqb cached rm then O else 1%nat) + mode_changes rm rms')%nat
  end.

(** The addresses marked as instruction starts in a run of operations. *)
Fixpoint insn_start_pcs (ops : list tcg_op) : list Z :=
  match ops with
  | [] => []
  | op_insn_start pc :: rest => pc :: insn_start_pcs rest
  | _ :: rest => insn_start_pcs rest
  end.

Definition is_goto_tb (o : tcg_op) : bool :=
  match o with
  | op_goto_tb _ => true
  | _ => false
  end.

(** Two addresses lie in the same guest page. *)
Definition same_page (cfg : Config) (a b : Z) : bool :=
  Z.land a (TARGET_PAGE_MASK cfg) =? Z.land b (TARGET_PAGE_MASK cfg).

(** What the block driver relies on from a generated decoder: it leaves the
    block's first address and [pc_succ_insn] alone, only appends to the op
    buffer, and does not mark instruction starts itself. *)
Definition decoder_ok (d : DisasContext -> Z -> Gen (bool * DisasContext)) : Prop :=
  forall ctx insn tc,
    pc_first (base (snd (fst (d ctx insn tc)))) = pc_first (base ctx)
    /\ pc_succ_insn (snd (fst (d ctx insn tc))) = pc_succ_insn ctx
    /\ exists new,
         tcg_ops (snd (d ctx insn tc)) = tcg_ops tc ++ new
         /\ insn_start_pcs new = [].

(** ** Sample instances used to run the definitions *)

Definition rv64_softmmu : Config :=
  {| TARGET_RISCV64 := true; CONFIG_USER_ONLY := false; TARGET_PAGE_BITS := 12 |}.

Definition rv32_softmmu : Config :=
  {| TARGET_RISCV64 := false; CONFIG_USER_ONLY := false; TARGET_PAGE_BITS := 12 |}.

Definition tcg_init : TCGContext :=
  {| tcg_ops := []; nb_temps := O; nb_temps_i32 := O |}.

Definition guest_zero : GuestState :=
  {| tv := fun _ => 0; tv32 := fun _ => 0; badaddr := 0; fp_rounding := 0 |}.

(** A decoder that matches every word and emits nothing (a block of
    no-ops), and one that matches no word. *)
Definition decode_nop (ctx : DisasContext) (insn : Z) : Gen (bool * DisasContext) :=
  ret (true, ctx).
Definition decode_none (ctx : DisasContext) (insn : Z) : Gen (bool * DisasContext) :=
  ret (false, ctx).

(** A decoder that treats every word as a floating-point instruction
    with rounding-mode field [rm]: it only runs the rounding-mode step. *)
Definition decode_fp (rm : Z) (ctx : DisasContext) (insn : Z)
  : Gen (bool * DisasContext) :=
  ctx <- gen_set_rm ctx rm ;; ret (true, ctx).

Definition sample_tb (pc : Z) : TranslationBlock := {| tb_pc := pc; tb_flags := 0 |}.

Definition sample_env (misa_ : Z) (word : Z) : CPURISCVState :=
  {| misa := misa_; code := fun _ => word |}.

Definition sample_cpu (misa_ : Z) (word : Z) (bps : list Z) : CPUState :=
  {| env_ptr := sample_env misa_ word; cpu_singlestep_enabled := false;
     breakpoints := bps |}.

Definition sample_ctx (pc : Z) (misa_ : Z) : DisasContext :=
  {| base := {| tb := sample_tb pc; pc_first := pc; pc_next := pc;
                is_jmp := DISAS_NEXT; num_insns := O;
                singlestep_enabled := false |};
     pc_succ_insn := pc; opcode := 0; flags := 0; mem_idx := 0; frm := -1;
     env := sample_env misa_ 0 |}.

(** Two temporaries in use, holding [a] and [b]. *)
Definition tcg_two_temps : TCGContext :=
  {| tcg_ops := []; nb_temps := 2; nb_temps_i32 := O |}.

Definition guest_with (a b : Z) : GuestState :=
  {| tv := fun x => match x with
                    | TEMP O => a
                    | TEMP (S O) => b
                    | _ => 0
                    end;
     tv32 := fun _ => 0; badaddr := 0; fp_rounding := 0 |}.

(** ** Field extraction helpers and the arithmetic wrappers *)

(** The cast [(int32_t) z]. *)
Definition int32_t (z : Z) : Z :=
  let u := z mod 2 ^ 32 in
  if u <? 2 ^ 31 then u else u - 2 ^ 32.

(** [EX_SH(amount)]: the function [ex_shift_##amount]. *)
Definition EX_SH (amount : Z) (imm : Z) : Z := int32_t (Z.shiftl imm amount).

Definition ex_shift_1 : Z -> Z := EX_SH 1.
Definition ex_shift_2 : Z -> Z := EX_SH 2.
Definition ex_shift_3 : Z -> Z := EX_SH 3.
Definition ex_shift_4 : Z -> Z := EX_SH 4.
Definition ex_shift_12 : Z -> Z := EX_SH 12.

Definition ex_rvc_register (reg : Z) : Z := 8 + reg.

(** The argument sets [arg_arith] and [arg_arith_imm] of the generated
    decoder; the fields are [rd], [rs1], [rs2] and [rd], [rs1], [imm]. *)
Record arg_arith := {
  arith_rd : Z;
  arith_rs1 : Z;
  arith_rs2 : Z
}.

Record arg_arith_imm := {
  arith_imm_rd : Z;
  arith_imm_rs1 : Z;
  arith_imm_imm : Z
}.

(** Modelled from the spec: the IR backend's and-with-constant
    [tcg_gen_andi_tl] (tcg-op.c, outside this file), for a mask that is
    none of its shortcut cases: the constant goes to a fresh temporary,
    which is and-ed in and released. *)
Definition tcg_gen_andi_tl (r a : TCGv) (c : Z) : Gen unit :=
  t0 <- tcg_const_tl c ;;
  tcg_gen_and_tl r a t0 ;;
  tcg_temp_free t0.

Definition gen_arith_imm (ctx : DisasContext) (a : arg_arith_imm)
  (func : TCGv -> TCGv -> TCGv -> Gen unit) : Gen bool :=
  source1 <- tcg_temp_new ;;
  source2 <- tcg_temp_new ;;
  gen_get_gpr source1 (arith_imm_rs1 a) ;;
  tcg_gen_movi_tl source2 (arith_imm_imm a) ;;
  func source1 source1 source2 ;;
  gen_set_gpr (arith_imm_rd a) source1 ;;
  tcg_temp_free source1 ;;
  tcg_temp_free source2 ;;
  ret true.

Definition gen_arith (ctx : DisasContext) (a : arg_arith)
  (func : TCGv -> TCGv -> TCGv -> Gen unit) : Gen bool :=
  source1 <- tcg_temp_new ;;
  source2 <- tcg_temp_new ;;
  gen_get_gpr source1 (arith_rs1 a) ;;
  gen_get_gpr source2 (arith_rs2 a) ;;
  func source1 source1 source2 ;;
  gen_set_gpr (arith_rd a) source1 ;;
  tcg_temp_free source1 ;;
  tcg_temp_free source2 ;;
  ret true.

Definition gen_shift (cfg : Config) (ctx : DisasContext) (a : arg_arith)
  (func : TCGv -> TCGv -> TCGv -> Gen unit) : Gen bool :=
  source1 <- tcg_temp_new ;;
  source2 <- tcg_temp_new ;;
  gen_get_gpr source1 (arith_rs1 a) ;;
  gen_get_gpr source2 (arith_rs2 a) ;;
  tcg_gen_andi_tl source2 source2 (TARGET_LONG_BITS cfg - 1) ;;
  func source1 source1 source2 ;;
  gen_set_gpr (arith_rd a) source1 ;;
  tcg_temp_free source1 ;;
  tcg_temp_free source2 ;;
  ret true.

(** ** Vocabulary for the properties of the wrappers *)

(** The TCG values an operation writes. *)
Definition op_writes (o : tcg_op) : list TCGv :=
  match o with
  | op_movi r _ | op_mov r _ | op_setcondi _ r _ _ | op_movcond _ r _ _ _ _
  | op_and r _ _ | op_or r _ _ | op_sub r _ _ | op_sari r _ _
  | op_div r _ _ | op_divu r _ _ | op_rem r _ _ | op_remu r _ _ => [r]
  | op_mulu2 rl rh _ _ => [rl; rh]
  | _ => []
  end.

(** The TCG values an operation reads or writes. *)
Definition op_args (o : tcg_op) : list TCGv :=
  match o with
  | op_movi r _ => [r]
  | op_mov r a | op_setcondi _ r a _ | op_sari r a _ => [r; a]
  | op_movcond _ r c1 c2 v1 v2 => [r; c1; c2; v1; v2]
  | op_and r a b | op_or r a b | op_sub r a b
  | op_div r a b | op_divu r a b | op_rem r a b | op_remu r a b => [r; a; b]
  | op_mulu2 rl rh a b => [rl; rh; a; b]
  | op_st v _ => [v]
  | _ => []
  end.

Definition is_global (t : TCGv) : bool :=
  match t with
  | TEMP _ => false
  | _ => true
  end.

(** The value of integer register [i] in a guest state: register 0 reads
    as zero. *)
Definition gpr_value (s : GuestState) (i : Z) : Z :=
  if i =? 0 then 0 else tv s (cpu_gpr i).

(** A three-operand generator [func] computes [f] for second operands
    below [bound] when, called on a destination and two distinct source
    values already allocated, the first holding a register-width value and
    the second a value below [bound], it appends operations that run to
    completion, leave [f] of the two source values in the destination
    (again a register-width value), and change no allocated value other
    than the destination and the two sources. *)
Definition computes_on (cfg : Config) (bound : Z)
  (func : TCGv -> TCGv -> TCGv -> Gen unit) (f : Z -> Z -> Z) : Prop :=
  forall (r a b : TCGv) (tc : TCGContext) (s : GuestState),
    allocated tc a -> allocated tc b -> a <> b ->
    0 <= tv s a < 2 ^ TARGET_LONG_BITS cfg ->
    0 <= tv s b < bound ->
    exists new s',
      tcg_ops (snd (func r a b tc)) = tcg_ops tc ++ new
      /\ exec cfg new s = Next s'
      /\ tv s' r = f (tv s a) (tv s b)
      /\ 0 <= tv s' r < 2 ^ TARGET_LONG_BITS cfg
      /\ forall x, allocated tc x -> x <> r -> x <> a -> x <> b ->
                   tv s' x = tv s x.

(** The same for every register-width second operand. *)
Definition computes (cfg : Config) (func : TCGv -> TCGv -> TCGv -> Gen unit)
  (f : Z -> Z -> Z) : Prop :=
  computes_on cfg (2 ^ TARGET_LONG_BITS cfg) func f.

(** The results the architecture defines for the division family. *)
Definition riscv_div (cfg : Config) (a b : Z) : Z :=
  if b =? 0 then 2 ^ TARGET_LONG_BITS cfg - 1
  else if (a =? min_signed cfg) && (target_long cfg b =? -1) then a
  else target_ulong cfg (Z.quot (target_long cfg a) (target_long cfg b)).

Definition riscv_divu (cfg : Config) (a b : Z) : Z :=
  if b =? 0 then 2 ^ TARGET_LONG_BITS cfg - 1 else a / b.

Definition riscv_rem (cfg : Config) (a b : Z) : Z :=
  if b =? 0 then a
  else if (a =? min_signed cfg) && (target_long cfg b =? -1) then 0
  else target_ulong cfg (Z.rem (target_long cfg a) (target_long cfg b)).

Definition riscv_remu (cfg : Config) (a b : Z) : Z :=
  if b =? 0 then a else a mod b.

Definition riscv_mulhsu (cfg : Config) (a b : Z) : Z :=
  target_ulong cfg ((target_long cfg a * b) / 2 ^ TARGET_LONG_BITS cfg).

(** A generator whose operations name nothing but its three operands and
    temporaries. *)
Definition uses_only_operands (func : TCGv -> TCGv -> TCGv -> Gen unit) : Prop :=
  forall (r a b : TCGv) (tc : TCGContext),
  exists new,
    tcg_ops (snd (func r a b tc)) = tcg_ops tc ++ new
    /\ forall o x, In o new -> In x (op_args o) ->
                   x = r \/ x = a \/ x = b \/ is_global x = false.

(** No operation of a run names [cpu_gpr[0]], the placeholder that is
    never allocated. *)
Definition avoids_gpr0 (ops : list tcg_op) : Prop :=
  forall o, In o ops -> ~ In (cpu_gpr 0) (op_args o).

(** A guest state whose integer registers hold [regs i]. *)
Definition guest_regs (regs : Z -> Z) : GuestState :=
  {| tv := fun x => match x with
                    | GPR i => regs i
                    | _ => 0
                    end;
     tv32 := fun _ => 0; badaddr := 0; fp_rounding := 0 |}.

(** * Properties *)

(** ** Machine arithmetic *)

Lemma TARGET_LONG_BITS_cases (cfg : Config) :
  TARGET_LONG_BITS cfg = 32 \/ TARGET_LONG_BITS cfg = 64.
Proof. unfold TARGET_LONG_BITS; destruct (TARGET_RISCV64 cfg); auto. Qed.

Lemma target_ulong_range (cfg : Config) (z : Z) :
  0 <= target_ulong cfg z < 2 ^ TARGET_LONG_BITS cfg.
Proof.
  unfold target_ulong. apply Z.mod_pos_bound.
  destruct (TARGET_LONG_BITS_cases cfg) as [-> | ->]; reflexivity.
Qed.

Lemma target_ulong_small (cfg : Config) (z : Z) :
  0 <= z < 2 ^ TARGET_LONG_BITS cfg -> target_ulong cfg z = z.
Proof. intro H. unfold target_ulong. now apply Z.mod_small. Qed.

Lemma target_ulong_idem (cfg : Config) (z : Z) :
  target_ulong cfg (target_ulong cfg z) = target_ulong cfg z.
Proof. apply target_ulong_small, target_ulong_range. Qed.

Lemma half_modulus (cfg : Config) :
  2 ^ TARGET_LONG_BITS cfg = 2 * 2 ^ (TARGET_LONG_BITS cfg - 1)
  /\ 0 < 2 ^ (TARGET_LONG_BITS cfg - 1).
Proof. destruct (TARGET_LONG_BITS_cases cfg) as [-> | ->]; split; reflexivity. Qed.

Lemma min_signed_eq (cfg : Config) :
  min_signed cfg = 2 ^ (TARGET_LONG_BITS cfg - 1).
Proof.
  unfold min_signed. rewrite Z.shiftl_1_l. reflexivity.
Qed.

Lemma target_long_nonneg (cfg : Config) (a : Z) :
  0 <= a < 2 ^ (TARGET_LONG_BITS cfg - 1) -> target_long cfg a = a.
Proof.
  intros H. destruct (half_modulus cfg) as [E P].
  unfold target_long. rewrite target_ulong_small by lia.
  destruct (Z.ltb_spec a (2 ^ (TARGET_LONG_BITS cfg - 1))); lia.
Qed.

Lemma target_long_neg (cfg : Config) (a : Z) :
  2 ^ (TARGET_LONG_BITS cfg - 1) <= a < 2 ^ TARGET_LONG_BITS cfg ->
  target_long cfg a = a - 2 ^ TARGET_LONG_BITS cfg.
Proof.
  intros H. unfold target_long. rewrite target_ulong_small by lia.
  destruct (Z.ltb_spec a (2 ^ (TARGET_LONG_BITS cfg - 1))); lia.
Qed.

Lemma target_long_range (cfg : Config) (a : Z) :
  - 2 ^ (TARGET_LONG_BITS cfg - 1) <= target_long cfg a
    < 2 ^ (TARGET_LONG_BITS cfg - 1).
Proof.
  destruct (half_modulus cfg) as [E P].
  pose proof (target_ulong_range cfg a) as R.
  unfold target_long.
  destruct (Z.ltb_spec (target_ulong cfg a) (2 ^ (TARGET_LONG_BITS cfg - 1))); lia.
Qed.

Lemma target_ulong_of_long (cfg : Config) (a : Z) :
  target_ulong cfg (target_long cfg a) = target_ulong cfg a.
Proof.
  unfold target_long.
  destruct (Z.ltb_spec (target_ulong cfg a) (2 ^ (TARGET_LONG_BITS cfg - 1))).
  - apply target_ulong_idem.
  - unfold target_ulong.
    replace (a mod 2 ^ TARGET_LONG_BITS cfg - 2 ^ TARGET_LONG_BITS cfg)
      with (a mod 2 ^ TARGET_LONG_BITS cfg + (-1) * 2 ^ TARGET_LONG_BITS cfg) by lia.
    rewrite Z.mod_add, Z.mod_mod; auto;
      destruct (TARGET_LONG_BITS_cases cfg) as [-> | ->]; discriminate.
Qed.

Lemma land_all_ones (cfg : Config) (b : Z) :
  0 <= b < 2 ^ TARGET_LONG_BITS cfg ->
  Z.land (2 ^ TARGET_LONG_BITS cfg - 1) b = b.
Proof.
  intros H. rewrite Z.land_comm.
  replace (2 ^ TARGET_LONG_BITS cfg - 1) with (Z.ones (TARGET_LONG_BITS cfg)).
  - rewrite Z.land_ones.
    + now apply Z.mod_small.
    + destruct (TARGET_LONG_BITS_cases cfg) as [-> | ->]; discriminate.
  - rewrite Z.ones_equiv. lia.
Qed.

(** ** Reading the guest state after writes *)

Lemma TCGv_eqb_spec (a b : TCGv) : reflect (a = b) (TCGv_eqb a b).
Proof.
  destruct a, b; simpl; try (constructor; congruence).
  - destruct (Z.eqb_spec n n0); constructor; congruence.
  - destruct (Nat.eqb_spec n n0); constructor; congruence.
Qed.

Lemma TCGv_eqb_refl (a : TCGv) : TCGv_eqb a a = true.
Proof. destruct (TCGv_eqb_spec a a); congruence. Qed.

Lemma TCGv_eqb_neq (a b : TCGv) : a <> b -> TCGv_eqb a b = false.
Proof. destruct (TCGv_eqb_spec a b); congruence. Qed.

Lemma tv_set_same (s : GuestState) (r : TCGv) (v : Z) :
  tv (set_tv s r v) r = v.
Proof. simpl. now rewrite TCGv_eqb_refl. Qed.

Lemma tv_set_other (s : GuestState) (r x : TCGv) (v : Z) :
  x <> r -> tv (set_tv s r v) x = tv s x.
Proof. intro H. simpl. now rewrite TCGv_eqb_neq. Qed.

Lemma allocated_fresh (tc : TCGContext) (t : TCGv) (k : nat) :
  allocated tc t -> t <> TEMP (k + nb_temps tc).
Proof. destruct t; simpl; intros H E; try discriminate. injection E. lia. Qed.

Lemma exec_app (cfg : Config) (l1 l2 : list tcg_op) (s s1 : GuestState) :
  exec cfg l1 s = Next s1 -> exec cfg (l1 ++ l2) s = exec cfg l2 s1.
Proof.
  revert s. induction l1 as [| o l1 IH]; simpl; intros s H.
  - now inversion H.
  - destruct (exec_op cfg o s); try discriminate. now apply IH.
Qed.

(** ** Tactics for runs over fresh temporaries *)

Ltac neq_tac :=
  assumption
  || (let E := fresh "E" in
      intro E; try (injection E; intros); subst; (lia || congruence)).

Ltac tv_norm :=
  repeat (rewrite tv_set_same || rewrite tv_set_other by neq_tac).

Ltac fresh_temps tc A :=
  let H0 := fresh "F" in let H1 := fresh "F" in
  let H2 := fresh "F" in let H3 := fresh "F" in
  pose proof (allocated_fresh tc _ 0 A) as H0;
  pose proof (allocated_fresh tc _ 1 A) as H1;
  pose proof (allocated_fresh tc _ 2 A) as H2;
  pose proof (allocated_fresh tc _ 3 A) as H3;
  simpl in H0, H1, H2, H3.

(** ** Mixed-sign multiply-high *)

Lemma target_long_of_ulong (cfg : Config) (q : Z) :
  target_long cfg (target_ulong cfg q) = target_long cfg q.
Proof. unfold target_long. now rewrite target_ulong_idem. Qed.

Lemma target_long_signed (cfg : Config) (q : Z) :
  - 2 ^ (TARGET_LONG_BITS cfg - 1) <= q < 2 ^ (TARGET_LONG_BITS cfg - 1) ->
  target_long cfg q = q.
Proof.
  intros H. destruct (half_modulus cfg) as [E P].
  destruct (Z.neg_nonneg_cases q) as [Hn | Hp].
  - rewrite <- target_long_of_ulong.
    assert (U : target_ulong cfg q = q + 2 ^ TARGET_LONG_BITS cfg).
    { unfold target_ulong.
      replace q with (q + 2 ^ TARGET_LONG_BITS cfg + (-1) * 2 ^ TARGET_LONG_BITS cfg) at 1 by lia.
      rewrite Z.mod_add by lia. apply Z.mod_small. lia. }
    rewrite U, target_long_neg; lia.
  - apply target_long_nonneg. lia.
Qed.

(** The operations [gen_mulhsu] appends, in terms of the temporaries it
    allocates. *)
Lemma gen_mulhsu_ops (cfg : Config) (ret_ arg1 arg2 : TCGv) (tc : TCGContext) :
  tcg_ops (snd (gen_mulhsu cfg ret_ arg1 arg2 tc)) =
  tcg_ops tc ++
    [op_mulu2 (TEMP (nb_temps tc)) (TEMP (S (nb_temps tc))) arg1 arg2;
     op_sari (TEMP (nb_temps tc)) arg1 (TARGET_LONG_BITS cfg - 1);
     op_and (TEMP (nb_temps tc)) (TEMP (nb_temps tc)) arg2;
     op_sub ret_ (TEMP (S (nb_temps tc))) (TEMP (nb_temps tc))].
Proof.
  unfold gen_mulhsu, bind; simpl.
  repeat rewrite <- app_assoc. reflexivity.
Qed.

Lemma sign_mask (cfg : Config) (a : Z) :
  0 <= a < 2 ^ TARGET_LONG_BITS cfg ->
  target_ulong cfg (Z.shiftr (target_long cfg a) (TARGET_LONG_BITS cfg - 1)) =
  if a <? 2 ^ (TARGET_LONG_BITS cfg - 1) then 0 else 2 ^ TARGET_LONG_BITS cfg - 1.
Proof.
  intros H. destruct (half_modulus cfg) as [E P].
  assert (0 <= TARGET_LONG_BITS cfg - 1)
    by (destruct (TARGET_LONG_BITS_cases cfg) as [-> | ->]; discriminate).
  rewrite Z.shiftr_div_pow2 by assumption.
  destruct (Z.ltb_spec a (2 ^ (TARGET_LONG_BITS cfg - 1))).
  - rewrite target_long_nonneg by lia.
    rewrite Z.div_small by lia. apply target_ulong_small. lia.
  - rewrite target_long_neg by lia.
    replace ((a - 2 ^ TARGET_LONG_BITS cfg) / 2 ^ (TARGET_LONG_BITS cfg - 1))
      with (-1).
    + unfold target_ulong.
      replace (-1) with (2 ^ TARGET_LONG_BITS cfg - 1 + (-1) * 2 ^ TARGET_LONG_BITS cfg) by lia.
      rewrite Z.mod_add by lia. apply Z.mod_small. lia.
    + apply Z.div_unique with (r := a - 2 ^ (TARGET_LONG_BITS cfg - 1)); lia.
Qed.

Lemma mulhsu_arith (cfg : Config) (a b : Z) :
  0 <= a < 2 ^ TARGET_LONG_BITS cfg ->
  0 <= b < 2 ^ TARGET_LONG_BITS cfg ->
  target_ulong cfg
    (target_ulong cfg (Z.shiftr (a * b) (TARGET_LONG_BITS cfg))
     - Z.land (if a <? 2 ^ (TARGET_LONG_BITS cfg - 1) then 0
               else 2 ^ TARGET_LONG_BITS cfg - 1) b)
  = target_ulong cfg ((target_long cfg a * b) / 2 ^ TARGET_LONG_BITS cfg).
Proof.
  intros Ha Hb. destruct (half_modulus cfg) as [E P].
  assert (0 <= TARGET_LONG_BITS cfg)
    by (destruct (TARGET_LONG_BITS_cases cfg) as [-> | ->]; discriminate).
  rewrite Z.shiftr_div_pow2 by assumption.
  assert (Hq : 0 <= a * b / 2 ^ TARGET_LONG_BITS cfg < 2 ^ TARGET_LONG_BITS cfg).
  { split.
    - apply Z.div_pos; nia.
    - apply Z.div_lt_upper_bound; nia. }
  rewrite (target_ulong_small cfg (a * b / _)) by assumption.
  destruct (Z.ltb_spec a (2 ^ (TARGET_LONG_BITS cfg - 1))).
  - rewrite Z.land_0_l, Z.sub_0_r.
    now rewrite target_long_nonneg by lia.
  - rewrite land_all_ones by assumption.
    rewrite target_long_neg by lia.
    replace ((a - 2 ^ TARGET_LONG_BITS cfg) * b)
      with (a * b + (- b) * 2 ^ TARGET_LONG_BITS cfg) by ring.
    rewrite Z.div_add by lia.
    reflexivity.
Qed.

(** C4.  For register-width values [a] (read as signed) and [b] (read as
    unsigned) held in two allocated TCG values, the operations emitted by
    [gen_mulhsu] run to completion and leave in [ret_] the upper
    register-width half of the exact product [a * b]; the operands may be
    any values of the width, the boundary ones included, and [ret_] may
    alias either operand. *)
Theorem gen_mulhsu_upper_half (cfg : Config) (ret_ arg1 arg2 : TCGv)
  (tc : TCGContext) (s : GuestState) :
  allocated tc arg1 -> allocated tc arg2 ->
  0 <= tv s arg1 < 2 ^ TARGET_LONG_BITS cfg ->
  0 <= tv s arg2 < 2 ^ TARGET_LONG_BITS cfg ->
  exists new s',
    tcg_ops (snd (gen_mulhsu cfg ret_ arg1 arg2 tc)) = tcg_ops tc ++ new
    /\ exec cfg new s = Next s'
    /\ tv s' ret_ =
       target_ulong cfg
         ((target_long cfg (tv s arg1) * tv s arg2) / 2 ^ TARGET_LONG_BITS cfg)
    /\ target_long cfg (tv s' ret_) =
       (target_long cfg (tv s arg1) * tv s arg2) / 2 ^ TARGET_LONG_BITS cfg.
Proof.
  intros A1 A2 Ha Hb.
  pose proof (allocated_fresh tc arg1 0 A1) as N10.
  pose proof (allocated_fresh tc arg1 1 A1) as N11.
  pose proof (allocated_fresh tc arg2 0 A2) as N20.
  pose proof (allocated_fresh tc arg2 1 A2) as N21.
  simpl in N10, N11, N20, N21.
  assert (D : TEMP (S (nb_temps tc)) <> TEMP (nb_temps tc))
    by (intro E; injection E; lia).
  assert (X : exists s',
    exec cfg
      [op_mulu2 (TEMP (nb_temps tc)) (TEMP (S (nb_temps tc))) arg1 arg2;
       op_sari (TEMP (nb_temps tc)) arg1 (TARGET_LONG_BITS cfg - 1);
       op_and (TEMP (nb_temps tc)) (TEMP (nb_temps tc)) arg2;
       op_sub ret_ (TEMP (S (nb_temps tc))) (TEMP (nb_temps tc))] s = Next s'
    /\ tv s' ret_ =
       target_ulong cfg
         ((target_long cfg (tv s arg1) * tv s arg2) / 2 ^ TARGET_LONG_BITS cfg)).
  { eexists. split; [reflexivity |].
    tv_norm.
    rewrite sign_mask by assumption.
    now apply mulhsu_arith. }
  destruct X as (s' & Hex & Hv).
  eexists; exists s'. split; [apply gen_mulhsu_ops |].
  split; [exact Hex |]. split; [exact Hv |].
  rewrite Hv, target_long_of_ulong.
  apply target_long_signed.
  destruct (half_modulus cfg) as [E P].
  pose proof (target_long_range cfg (tv s arg1)) as Rs.
  split.
  - apply Z.div_le_lower_bound; nia.
  - apply Z.div_lt_upper_bound; nia.
Qed.

(** ** Division *)

Lemma gen_div_ops (cfg : Config) (ret_ source1 source2 : TCGv) (tc : TCGContext) :
  let cond1 := TEMP (nb_temps tc) in
  let cond2 := TEMP (S (nb_temps tc)) in
  let zeroreg := TEMP (S (S (nb_temps tc))) in
  let resultopt1 := TEMP (S (S (S (nb_temps tc)))) in
  tcg_ops (snd (gen_div cfg ret_ source1 source2 tc)) =
  tcg_ops tc ++
    [op_movi zeroreg 0;
     op_movi resultopt1 (target_ulong cfg (-1));
     op_setcondi TCG_COND_EQ cond2 source2 (target_ulong cfg (Z.lnot 0));
     op_setcondi TCG_COND_EQ cond1 source1
       (Z.shiftl (target_ulong cfg 1) (TARGET_LONG_BITS cfg - 1));
     op_and cond1 cond1 cond2;
     op_setcondi TCG_COND_EQ cond2 source2 0;
     op_movcond TCG_COND_EQ source1 cond2 zeroreg source1 resultopt1;
     op_or cond1 cond1 cond2;
     op_movi resultopt1 (target_ulong cfg 1);
     op_movcond TCG_COND_EQ source2 cond1 zeroreg source2 resultopt1]
    ++ [op_div ret_ source1 source2].
Proof.
  unfold gen_div, bind; simpl.
  repeat rewrite <- app_assoc. reflexivity.
Qed.

Lemma const_all_ones (cfg : Config) :
  target_ulong cfg (-1) = 2 ^ TARGET_LONG_BITS cfg - 1
  /\ target_ulong cfg (Z.lnot 0) = 2 ^ TARGET_LONG_BITS cfg - 1
  /\ target_ulong cfg 1 = 1 /\ target_ulong cfg 0 = 0
  /\ Z.shiftl 1 (TARGET_LONG_BITS cfg - 1) = 2 ^ (TARGET_LONG_BITS cfg - 1).
Proof.
  unfold target_ulong.
  destruct (TARGET_LONG_BITS_cases cfg) as [-> | ->]; repeat split; reflexivity.
Qed.

Lemma target_long_all_ones (cfg : Config) (b : Z) :
  0 <= b < 2 ^ TARGET_LONG_BITS cfg ->
  (target_long cfg b =? -1) = (b =? 2 ^ TARGET_LONG_BITS cfg - 1).
Proof.
  intros H. destruct (half_modulus cfg) as [E P].
  destruct (Z.ltb_spec b (2 ^ (TARGET_LONG_BITS cfg - 1))).
  - rewrite target_long_nonneg by lia.
    destruct (Z.eqb_spec b (-1)), (Z.eqb_spec b (2 ^ TARGET_LONG_BITS cfg - 1)); lia.
  - rewrite target_long_neg by lia.
    destruct (Z.eqb_spec (b - 2 ^ TARGET_LONG_BITS cfg) (-1)),
      (Z.eqb_spec b (2 ^ TARGET_LONG_BITS cfg - 1)); lia.
Qed.

(** The sanitised operands [gen_div] hands to the host division. *)
Lemma gen_div_sanitised (cfg : Config) (source1 source2 : TCGv)
  (tc : TCGContext) (s : GuestState) :
  let cond1 := TEMP (nb_temps tc) in
  let cond2 := TEMP (S (nb_temps tc)) in
  let zeroreg := TEMP (S (S (nb_temps tc))) in
  let resultopt1 := TEMP (S (S (S (nb_temps tc)))) in
  allocated tc source1 -> allocated tc source2 -> source1 <> source2 ->
  0 <= tv s source1 < 2 ^ TARGET_LONG_BITS cfg ->
  0 <= tv s source2 < 2 ^ TARGET_LONG_BITS cfg ->
  exists s1,
    exec cfg
      [op_movi zeroreg 0;
       op_movi resultopt1 (target_ulong cfg (-1));
       op_setcondi TCG_COND_EQ cond2 source2 (target_ulong cfg (Z.lnot 0));
       op_setcondi TCG_COND_EQ cond1 source1
         (Z.shiftl (target_ulong cfg 1) (TARGET_LONG_BITS cfg - 1));
       op_and cond1 cond1 cond2;
       op_setcondi TCG_COND_EQ cond2 source2 0;
       op_movcond TCG_COND_EQ source1 cond2 zeroreg source1 resultopt1;
       op_or cond1 cond1 cond2;
       op_movi resultopt1 (target_ulong cfg 1);
       op_movcond TCG_COND_EQ source2 cond1 zeroreg source2 resultopt1] s
    = Next s1
    /\ tv s1 source1 =
       (if tv s source2 =? 0 then 2 ^ TARGET_LONG_BITS cfg - 1 else tv s source1)
    /\ tv s1 source2 =
       (if (tv s source2 =? 0)
           || ((tv s source1 =? 2 ^ (TARGET_LONG_BITS cfg - 1))
               && (tv s source2 =? 2 ^ TARGET_LONG_BITS cfg - 1))
        then 1 else tv s source2).
Proof.
  intros cond1 cond2 zeroreg resultopt1 A1 A2 D Ha Hb.
  subst cond1 cond2 zeroreg resultopt1.
  fresh_temps tc A1. fresh_temps tc A2.
  destruct (const_all_ones cfg) as (C1 & C2 & C3 & C4 & C5).
  destruct (half_modulus cfg) as [E P].
  eexists. split; [reflexivity |].
  unfold eval_cond. rewrite C1, C2, C3, C4, C5.
  rewrite !(target_ulong_small cfg (2 ^ TARGET_LONG_BITS cfg - 1)) by lia.
  rewrite !(target_ulong_small cfg 1) by lia.
  rewrite !(target_ulong_small cfg (2 ^ (TARGET_LONG_BITS cfg - 1))) by lia.
  split.
  - tv_norm.
    destruct (tv s source2 =? 0); reflexivity.
  - tv_norm.
    destruct (tv s source2 =? 0), (tv s source1 =? 2 ^ (TARGET_LONG_BITS cfg - 1)),
      (tv s source2 =? 2 ^ TARGET_LONG_BITS cfg - 1); reflexivity.
Qed.

Lemma gen_divu_ops (cfg : Config) (ret_ source1 source2 : TCGv) (tc : TCGContext) :
  let cond1 := TEMP (nb_temps tc) in
  let zeroreg := TEMP (S (nb_temps tc)) in
  let resultopt1 := TEMP (S (S (nb_temps tc))) in
  tcg_ops (snd (gen_divu cfg ret_ source1 source2 tc)) =
  tcg_ops tc ++
    [op_movi zeroreg 0;
     op_setcondi TCG_COND_EQ cond1 source2 0;
     op_movi resultopt1 (target_ulong cfg (-1));
     op_movcond TCG_COND_EQ source1 cond1 zeroreg source1 resultopt1;
     op_movi resultopt1 (target_ulong cfg 1);
     op_movcond TCG_COND_EQ source2 cond1 zeroreg source2 resultopt1]
    ++ [op_divu ret_ source1 source2].
Proof.
  unfold gen_divu, bind; simpl.
  repeat rewrite <- app_assoc. reflexivity.
Qed.

Lemma gen_divu_sanitised (cfg : Config) (source1 source2 : TCGv)
  (tc : TCGContext) (s : GuestState) :
  let cond1 := TEMP (nb_temps tc) in
  let zeroreg := TEMP (S (nb_temps tc)) in
  let resultopt1 := TEMP (S (S (nb_temps tc))) in
  allocated tc source1 -> allocated tc source2 -> source1 <> source2 ->
  exists s1,
    exec cfg
      [op_movi zeroreg 0;
       op_setcondi TCG_COND_EQ cond1 source2 0;
       op_movi resultopt1 (target_ulong cfg (-1));
       op_movcond TCG_COND_EQ source1 cond1 zeroreg source1 resultopt1;
       op_movi resultopt1 (target_ulong cfg 1);
       op_movcond TCG_COND_EQ source2 cond1 zeroreg source2 resultopt1] s
    = Next s1
    /\ tv s1 source1 =
       (if tv s source2 =? 0 then 2 ^ TARGET_LONG_BITS cfg - 1 else tv s source1)
    /\ tv s1 source2 = (if tv s source2 =? 0 then 1 else tv s source2).
Proof.
  intros cond1 zeroreg resultopt1 A1 A2 D.
  subst cond1 zeroreg resultopt1.
  fresh_temps tc A1. fresh_temps tc A2.
  destruct (const_all_ones cfg) as (C1 & C2 & C3 & C4 & C5).
  destruct (half_modulus cfg) as [E P].
  eexists. split; [reflexivity |].
  unfold eval_cond. rewrite C1, C3, C4.
  rewrite !(target_ulong_small cfg (2 ^ TARGET_LONG_BITS cfg - 1)) by lia.
  rewrite !(target_ulong_small cfg 1) by lia.
  split; tv_norm; destruct (tv s source2 =? 0); reflexivity.
Qed.

Lemma target_long_one (cfg : Config) : target_long cfg 1 = 1.
Proof.
  apply target_long_nonneg.
  destruct (TARGET_LONG_BITS_cases cfg) as [-> | ->]; split; (lia || reflexivity).
Qed.

Lemma target_long_minus_one (cfg : Config) :
  target_long cfg (2 ^ TARGET_LONG_BITS cfg - 1) = -1.
Proof.
  destruct (half_modulus cfg) as [E P].
  rewrite target_long_neg; lia.
Qed.

(** C2.  For register-width operand values held in two distinct allocated
    TCG values, the operations emitted by [gen_div] run to completion and
    leave in [ret_]: all-ones (the value -1) when the divisor is 0; the
    dividend itself when the dividend is the minimum signed value and the
    divisor is -1; and the signed quotient, truncated toward zero, in every
    other case.  The operations emitted by [gen_divu] run to completion and
    leave all-ones when the divisor is 0 and the unsigned quotient
    otherwise. *)
Theorem gen_div_divu_results (cfg : Config) (ret_ source1 source2 : TCGv)
  (tc : TCGContext) (s : GuestState) :
  allocated tc source1 -> allocated tc source2 -> source1 <> source2 ->
  0 <= tv s source1 < 2 ^ TARGET_LONG_BITS cfg ->
  0 <= tv s source2 < 2 ^ TARGET_LONG_BITS cfg ->
  (exists new s',
      tcg_ops (snd (gen_div cfg ret_ source1 source2 tc)) = tcg_ops tc ++ new
      /\ exec cfg new s = Next s'
      /\ (tv s source2 = 0 ->
          tv s' ret_ = 2 ^ TARGET_LONG_BITS cfg - 1
          /\ target_long cfg (tv s' ret_) = -1)
      /\ (tv s source1 = min_signed cfg -> target_long cfg (tv s source2) = -1 ->
          tv s' ret_ = tv s source1)
      /\ (tv s source2 <> 0 ->
          ~ (tv s source1 = min_signed cfg /\ target_long cfg (tv s source2) = -1) ->
          tv s' ret_ =
          target_ulong cfg
            (Z.quot (target_long cfg (tv s source1)) (target_long cfg (tv s source2)))))
  /\ (exists new s',
      tcg_ops (snd (gen_divu cfg ret_ source1 source2 tc)) = tcg_ops tc ++ new
      /\ exec cfg new s = Next s'
      /\ (tv s source2 = 0 -> tv s' ret_ = 2 ^ TARGET_LONG_BITS cfg - 1)
      /\ (tv s source2 <> 0 -> tv s' ret_ = tv s source1 / tv s source2)).
Proof.
  intros A1 A2 D Ha Hb.
  destruct (half_modulus cfg) as [E P].
  pose proof (target_long_all_ones cfg _ Hb) as Hm1.
  pose proof (min_signed_eq cfg) as Hmin.
  pose proof (target_long_one cfg) as L1.
  split.
  - destruct (gen_div_sanitised cfg source1 source2 tc s A1 A2 D Ha Hb)
      as (s1 & Hex & H1 & H2).
    pose proof (gen_div_ops cfg ret_ source1 source2 tc) as Hops.
    assert (Hdef : tv s1 source2 <> 0
                   /\ ~ (tv s1 source1 = min_signed cfg
                         /\ target_long cfg (tv s1 source2) = -1)).
    { rewrite H1, H2.
      destruct (Z.eqb_spec (tv s source2) 0); simpl.
      - rewrite L1. lia.
      - destruct (Z.eqb_spec (tv s source1) (2 ^ (TARGET_LONG_BITS cfg - 1))),
          (Z.eqb_spec (tv s source2) (2 ^ TARGET_LONG_BITS cfg - 1)); simpl;
          rewrite ?L1; lia. }
    destruct Hdef as [Hd1 Hd2].
    exists ([op_movi (TEMP (S (S (nb_temps tc)))) 0;
         op_movi (TEMP (S (S (S (nb_temps tc))))) (target_ulong cfg (-1));
         op_setcondi TCG_COND_EQ (TEMP (S (nb_temps tc))) source2
           (target_ulong cfg (Z.lnot 0));
         op_setcondi TCG_COND_EQ (TEMP (nb_temps tc)) source1
           (Z.shiftl (target_ulong cfg 1) (TARGET_LONG_BITS cfg - 1));
         op_and (TEMP (nb_temps tc)) (TEMP (nb_temps tc)) (TEMP (S (nb_temps tc)));
         op_setcondi TCG_COND_EQ (TEMP (S (nb_temps tc))) source2 0;
         op_movcond TCG_COND_EQ source1 (TEMP (S (nb_temps tc)))
           (TEMP (S (S (nb_temps tc)))) source1 (TEMP (S (S (S (nb_temps tc)))));
         op_or (TEMP (nb_temps tc)) (TEMP (nb_temps tc)) (TEMP (S (nb_temps tc)));
         op_movi (TEMP (S (S (S (nb_temps tc))))) (target_ulong cfg 1);
         op_movcond TCG_COND_EQ source2 (TEMP (nb_temps tc))
           (TEMP (S (S (nb_temps tc)))) source2 (TEMP (S (S (S (nb_temps tc)))))]
        ++ [op_div ret_ source1 source2]).
    exists (set_tv s1 ret_
              (target_ulong cfg
                 (Z.quot (target_long cfg (tv s1 source1))
                         (target_long cfg (tv s1 source2))))).
    split; [exact Hops |].
    split.
    { rewrite (exec_app _ _ _ _ _ Hex). simpl.
      destruct (Z.eqb_spec (tv s1 source2) 0); [contradiction |].
      destruct (Z.eqb_spec (tv s1 source1) (min_signed cfg)),
        (Z.eqb_spec (target_long cfg (tv s1 source2)) (-1)); simpl; try reflexivity.
      exfalso. apply Hd2. split; assumption. }
    rewrite tv_set_same, H1, H2.
    split; [| split].
    + intros Z0. rewrite Z0. simpl.
      rewrite L1, target_long_minus_one, target_long_of_ulong.
      change (Z.quot (-1) 1) with (-1).
      destruct (const_all_ones cfg) as (C1 & _).
      split; [exact C1 |]. apply target_long_signed. lia.
    + intros Hmn Hb1.
      apply Z.eqb_eq in Hb1. rewrite Hm1 in Hb1. rewrite Hb1.
      rewrite Hmin in Hmn. rewrite Hmn at 2. rewrite Z.eqb_refl.
      rewrite orb_true_r. 
      destruct (Z.eqb_spec (tv s source2) 0); [lia |].
      rewrite L1, Z.quot_1_r, target_ulong_of_long.
      apply target_ulong_small. assumption.
    + intros NZ NO.
      destruct (Z.eqb_spec (tv s source2) 0); [contradiction |]. simpl.
      destruct (Z.eqb_spec (tv s source1) (2 ^ (TARGET_LONG_BITS cfg - 1))),
        (Z.eqb_spec (tv s source2) (2 ^ TARGET_LONG_BITS cfg - 1)); simpl;
        try reflexivity.
      exfalso. apply NO. split; [lia |].
      apply Z.eqb_eq. exact Hm1.
  - destruct (gen_divu_sanitised cfg source1 source2 tc s A1 A2 D)
      as (s1 & Hex & H1 & H2).
    pose proof (gen_divu_ops cfg ret_ source1 source2 tc) as Hops.
    assert (Hd : tv s1 source2 <> 0).
    { rewrite H2. destruct (Z.eqb_spec (tv s source2) 0); lia. }
    exists ([op_movi (TEMP (S (nb_temps tc))) 0;
         op_setcondi TCG_COND_EQ (TEMP (nb_temps tc)) source2 0;
         op_movi (TEMP (S (S (nb_temps tc)))) (target_ulong cfg (-1));
         op_movcond TCG_COND_EQ source1 (TEMP (nb_temps tc))
           (TEMP (S (nb_temps tc))) source1 (TEMP (S (S (nb_temps tc))));
         op_movi (TEMP (S (S (nb_temps tc)))) (target_ulong cfg 1);
         op_movcond TCG_COND_EQ source2 (TEMP (nb_temps tc))
           (TEMP (S (nb_temps tc))) source2 (TEMP (S (S (nb_temps tc))))]
        ++ [op_divu ret_ source1 source2]).
    exists (set_tv s1 ret_ (tv s1 source1 / tv s1 source2)).
    split; [exact Hops |].
    split.
    { rewrite (exec_app _ _ _ _ _ Hex). simpl.
      destruct (Z.eqb_spec (tv s1 source2) 0); [contradiction | reflexivity]. }
    rewrite tv_set_same, H1, H2.
    split.
    + intros Z0. rewrite Z0. simpl. apply Z.div_1_r.
    + intros NZ. destruct (Z.eqb_spec (tv s source2) 0); [contradiction | reflexivity].
Qed.

(** ** Remainder *)

Lemma gen_rem_ops (cfg : Config) (ret_ source1 source2 : TCGv) (tc : TCGContext) :
  let cond1 := TEMP (nb_temps tc) in
  let cond2 := TEMP (S (nb_temps tc)) in
  let zeroreg := TEMP (S (S (nb_temps tc))) in
  let resultopt1 := TEMP (S (S (S (nb_temps tc)))) in
  tcg_ops (snd (gen_rem cfg ret_ source1 source2 tc)) =
  tcg_ops tc ++
    ([op_movi zeroreg 0;
      op_movi resultopt1 1;
      op_setcondi TCG_COND_EQ cond2 source2 (target_ulong cfg (-1));
      op_setcondi TCG_COND_EQ cond1 source1
        (Z.shiftl (target_ulong cfg 1) (TARGET_LONG_BITS cfg - 1));
      op_and cond2 cond1 cond2;
      op_setcondi TCG_COND_EQ cond1 source2 0;
      op_or cond2 cond1 cond2;
      op_movcond TCG_COND_EQ source2 cond2 zeroreg source2 resultopt1]
     ++ [op_rem resultopt1 source1 source2])
    ++ [op_movcond TCG_COND_EQ ret_ cond1 zeroreg resultopt1 source1].
Proof.
  unfold gen_rem, bind; simpl.
  repeat rewrite <- app_assoc. reflexivity.
Qed.

Lemma gen_remu_ops (cfg : Config) (ret_ source1 source2 : TCGv) (tc : TCGContext) :
  let cond1 := TEMP (nb_temps tc) in
  let zeroreg := TEMP (S (nb_temps tc)) in
  let resultopt1 := TEMP (S (S (nb_temps tc))) in
  tcg_ops (snd (gen_remu cfg ret_ source1 source2 tc)) =
  tcg_ops tc ++
    ([op_movi zeroreg 0;
      op_movi resultopt1 (target_ulong cfg 1);
      op_setcondi TCG_COND_EQ cond1 source2 0;
      op_movcond TCG_COND_EQ source2 cond1 zeroreg source2 resultopt1]
     ++ [op_remu resultopt1 source1 source2])
    ++ [op_movcond TCG_COND_EQ ret_ cond1 zeroreg resultopt1 source1].
Proof.
  unfold gen_remu, bind; simpl.
  repeat rewrite <- app_assoc. reflexivity.
Qed.

(** The state [gen_rem] reaches just before the final selection. *)
Lemma gen_rem_computed (cfg : Config) (source1 source2 : TCGv)
  (tc : TCGContext) (s : GuestState) :
  let cond1 := TEMP (nb_temps tc) in
  let cond2 := TEMP (S (nb_temps tc)) in
  let zeroreg := TEMP (S (S (nb_temps tc))) in
  let resultopt1 := TEMP (S (S (S (nb_temps tc)))) in
  allocated tc source1 -> allocated tc source2 -> source1 <> source2 ->
  0 <= tv s source1 < 2 ^ TARGET_LONG_BITS cfg ->
  0 <= tv s source2 < 2 ^ TARGET_LONG_BITS cfg ->
  exists sm,
    exec cfg
      ([op_movi zeroreg 0;
        op_movi resultopt1 1;
        op_setcondi TCG_COND_EQ cond2 source2 (target_ulong cfg (-1));
        op_setcondi TCG_COND_EQ cond1 source1
          (Z.shiftl (target_ulong cfg 1) (TARGET_LONG_BITS cfg - 1));
        op_and cond2 cond1 cond2;
        op_setcondi TCG_COND_EQ cond1 source2 0;
        op_or cond2 cond1 cond2;
        op_movcond TCG_COND_EQ source2 cond2 zeroreg source2 resultopt1]
       ++ [op_rem resultopt1 source1 source2]) s
    = Next sm
    /\ tv sm cond1 = (if tv s source2 =? 0 then 1 else 0)
    /\ tv sm zeroreg = 0
    /\ tv sm source1 = tv s source1
    /\ tv sm resultopt1 =
       target_ulong cfg
         (Z.rem (target_long cfg (tv s source1))
            (target_long cfg
               (if (tv s source2 =? 0)
                   || ((tv s source1 =? 2 ^ (TARGET_LONG_BITS cfg - 1))
                       && (tv s source2 =? 2 ^ TARGET_LONG_BITS cfg - 1))
                then 1 else tv s source2))).
Proof.
  intros cond1 cond2 zeroreg resultopt1 A1 A2 D Ha Hb.
  subst cond1 cond2 zeroreg resultopt1.
  fresh_temps tc A1. fresh_temps tc A2.
  destruct (const_all_ones cfg) as (C1 & C2 & C3 & C4 & C5).
  destruct (half_modulus cfg) as [E P].
  pose proof (target_long_all_ones cfg _ Hb) as Hm1.
  pose proof (min_signed_eq cfg) as Hmin.
  pose proof (target_long_one cfg) as L1.
  assert (X : exists s1,
    exec cfg
      [op_movi (TEMP (S (S (nb_temps tc)))) 0;
       op_movi (TEMP (S (S (S (nb_temps tc))))) 1;
       op_setcondi TCG_COND_EQ (TEMP (S (nb_temps tc))) source2 (target_ulong cfg (-1));
       op_setcondi TCG_COND_EQ (TEMP (nb_temps tc)) source1
         (Z.shiftl (target_ulong cfg 1) (TARGET_LONG_BITS cfg - 1));
       op_and (TEMP (S (nb_temps tc))) (TEMP (nb_temps tc)) (TEMP (S (nb_temps tc)));
       op_setcondi TCG_COND_EQ (TEMP (nb_temps tc)) source2 0;
       op_or (TEMP (S (nb_temps tc))) (TEMP (nb_temps tc)) (TEMP (S (nb_temps tc)));
       op_movcond TCG_COND_EQ source2 (TEMP (S (nb_temps tc)))
         (TEMP (S (S (nb_temps tc)))) source2 (TEMP (S (S (S (nb_temps tc)))))] s
    = Next s1
    /\ tv s1 (TEMP (nb_temps tc)) = (if tv s source2 =? 0 then 1 else 0)
    /\ tv s1 (TEMP (S (S (nb_temps tc)))) = 0
    /\ tv s1 source1 = tv s source1
    /\ tv s1 source2 =
       (if (tv s source2 =? 0)
           || ((tv s source1 =? 2 ^ (TARGET_LONG_BITS cfg - 1))
               && (tv s source2 =? 2 ^ TARGET_LONG_BITS cfg - 1))
        then 1 else tv s source2)).
  { eexists. split; [reflexivity |].
    unfold eval_cond. rewrite C1, C3, C4, C5.
    rewrite ?(target_ulong_small cfg (2 ^ TARGET_LONG_BITS cfg - 1)) by lia.
    rewrite ?(target_ulong_small cfg 1) by lia.
    rewrite ?(target_ulong_small cfg (2 ^ (TARGET_LONG_BITS cfg - 1))) by lia.
    repeat split; tv_norm; try reflexivity.
    destruct (tv s source2 =? 0), (tv s source1 =? 2 ^ (TARGET_LONG_BITS cfg - 1)),
      (tv s source2 =? 2 ^ TARGET_LONG_BITS cfg - 1); reflexivity. }
  destruct X as (s1 & Hex & Hc & Hz & H1 & H2).
  exists (set_tv s1 (TEMP (S (S (S (nb_temps tc)))))
            (target_ulong cfg
               (Z.rem (target_long cfg (tv s1 source1))
                      (target_long cfg (tv s1 source2))))).
  split.
  { rewrite (exec_app _ _ _ _ _ Hex). simpl.
    rewrite H1, H2.
    destruct (Z.eqb_spec (tv s source2) 0); simpl.
    - rewrite L1. destruct (tv s source1 =? min_signed cfg); reflexivity.
    - destruct (Z.eqb_spec (tv s source1) (2 ^ (TARGET_LONG_BITS cfg - 1))),
        (Z.eqb_spec (tv s source2) (2 ^ TARGET_LONG_BITS cfg - 1)); simpl.
      + rewrite L1. change (1 =? 0) with false.
        destruct (tv s source1 =? min_signed cfg); reflexivity.
      + destruct (Z.eqb_spec (tv s source2) 0); [contradiction |].
        rewrite Hm1. rewrite andb_false_r. reflexivity.
      + destruct (Z.eqb_spec (tv s source2) 0); [contradiction |].
        destruct (Z.eqb_spec (tv s source1) (min_signed cfg)); [lia |]. reflexivity.
      + destruct (Z.eqb_spec (tv s source2) 0); [contradiction |].
        destruct (Z.eqb_spec (tv s source1) (min_signed cfg)); [lia |]. reflexivity. }
  tv_norm. rewrite Hc, Hz, H1, H2. repeat split; reflexivity.
Qed.

Lemma gen_remu_computed (cfg : Config) (source1 source2 : TCGv)
  (tc : TCGContext) (s : GuestState) :
  let cond1 := TEMP (nb_temps tc) in
  let zeroreg := TEMP (S (nb_temps tc)) in
  let resultopt1 := TEMP (S (S (nb_temps tc))) in
  allocated tc source1 -> allocated tc source2 -> source1 <> source2 ->
  exists sm,
    exec cfg
      ([op_movi zeroreg 0;
        op_movi resultopt1 (target_ulong cfg 1);
        op_setcondi TCG_COND_EQ cond1 source2 0;
        op_movcond TCG_COND_EQ source2 cond1 zeroreg source2 resultopt1]
       ++ [op_remu resultopt1 source1 source2]) s
    = Next sm
    /\ tv sm cond1 = (if tv s source2 =? 0 then 1 else 0)
    /\ tv sm zeroreg = 0
    /\ tv sm source1 = tv s source1
    /\ tv sm resultopt1 =
       tv s source1 mod (if tv s source2 =? 0 then 1 else tv s source2).
Proof.
  intros cond1 zeroreg resultopt1 A1 A2 D.
  subst cond1 zeroreg resultopt1.
  fresh_temps tc A1. fresh_temps tc A2.
  destruct (const_all_ones cfg) as (C1 & C2 & C3 & C4 & C5).
  assert (X : exists s1,
    exec cfg
      [op_movi (TEMP (S (nb_temps tc))) 0;
       op_movi (TEMP (S (S (nb_temps tc)))) (target_ulong cfg 1);
       op_setcondi TCG_COND_EQ (TEMP (nb_temps tc)) source2 0;
       op_movcond TCG_COND_EQ source2 (TEMP (nb_temps tc))
         (TEMP (S (nb_temps tc))) source2 (TEMP (S (S (nb_temps tc))))] s
    = Next s1
    /\ tv s1 (TEMP (nb_temps tc)) = (if tv s source2 =? 0 then 1 else 0)
    /\ tv s1 (TEMP (S (nb_temps tc))) = 0
    /\ tv s1 source1 = tv s source1
    /\ tv s1 source2 = (if tv s source2 =? 0 then 1 else tv s source2)).
  { eexists. split; [reflexivity |].
    unfold eval_cond. rewrite ?C3, ?C4.
    repeat split; tv_norm; try reflexivity.
    destruct (tv s source2 =? 0); reflexivity. }
  destruct X as (s1 & Hex & Hc & Hz & H1 & H2).
  exists (set_tv s1 (TEMP (S (S (nb_temps tc)))) (tv s1 source1 mod tv s1 source2)).
  split.
  { rewrite (exec_app _ _ _ _ _ Hex). simpl. rewrite H2.
    destruct (Z.eqb_spec (tv s source2) 0).
    - reflexivity.
    - destruct (Z.eqb_spec (tv s source2) 0); [contradiction | reflexivity]. }
  tv_norm. rewrite Hc, Hz, H1, H2. repeat split; reflexivity.
Qed.

(** C3.  For register-width operand values held in two distinct allocated
    TCG values, the operations emitted by [gen_rem] and by [gen_remu] end
    with one conditional move into [ret_] that chooses between the computed
    remainder and the dividend on the flag "divisor = 0" alone.  They run to
    completion and leave: the dividend when the divisor is 0; for [gen_rem],
    0 when the dividend is the minimum signed value and the divisor is -1,
    a value already produced by the remainder of the sanitised operands
    before the selection; and the ordinary remainder (the sign of the
    dividend for the signed one) otherwise. *)
Theorem gen_rem_remu_results (cfg : Config) (ret_ source1 source2 : TCGv)
  (tc : TCGContext) (s : GuestState) :
  allocated tc source1 -> allocated tc source2 -> source1 <> source2 ->
  0 <= tv s source1 < 2 ^ TARGET_LONG_BITS cfg ->
  0 <= tv s source2 < 2 ^ TARGET_LONG_BITS cfg ->
  (exists cond1 zeroreg resultopt1 body sm s',
      tcg_ops (snd (gen_rem cfg ret_ source1 source2 tc)) =
        tcg_ops tc ++ body
          ++ [op_movcond TCG_COND_EQ ret_ cond1 zeroreg resultopt1 source1]
      /\ exec cfg body s = Next sm
      /\ tv sm cond1 = (if tv s source2 =? 0 then 1 else 0)
      /\ tv sm zeroreg = 0
      /\ tv sm source1 = tv s source1
      /\ (tv s source1 = min_signed cfg -> target_long cfg (tv s source2) = -1 ->
          tv sm resultopt1 = 0)
      /\ exec cfg
           (body ++ [op_movcond TCG_COND_EQ ret_ cond1 zeroreg resultopt1 source1]) s
         = Next s'
      /\ (tv s source2 = 0 -> tv s' ret_ = tv s source1)
      /\ (tv s source1 = min_signed cfg -> target_long cfg (tv s source2) = -1 ->
          tv s' ret_ = 0)
      /\ (tv s source2 <> 0 ->
          ~ (tv s source1 = min_signed cfg /\ target_long cfg (tv s source2) = -1) ->
          tv s' ret_ =
          target_ulong cfg
            (Z.rem (target_long cfg (tv s source1)) (target_long cfg (tv s source2)))))
  /\ (exists cond1 zeroreg resultopt1 body sm s',
      tcg_ops (snd (gen_remu cfg ret_ source1 source2 tc)) =
        tcg_ops tc ++ body
          ++ [op_movcond TCG_COND_EQ ret_ cond1 zeroreg resultopt1 source1]
      /\ exec cfg body s = Next sm
      /\ tv sm cond1 = (if tv s source2 =? 0 then 1 else 0)
      /\ tv sm zeroreg = 0
      /\ tv sm source1 = tv s source1
      /\ exec cfg
           (body ++ [op_movcond TCG_COND_EQ ret_ cond1 zeroreg resultopt1 source1]) s
         = Next s'
      /\ (tv s source2 = 0 -> tv s' ret_ = tv s source1)
      /\ (tv s source2 <> 0 -> tv s' ret_ = tv s source1 mod tv s source2)).
Proof.
  intros A1 A2 D Ha Hb.
  destruct (half_modulus cfg) as [E P].
  pose proof (target_long_all_ones cfg _ Hb) as Hm1.
  pose proof (min_signed_eq cfg) as Hmin.
  pose proof (target_long_one cfg) as L1.
  split.
  - destruct (gen_rem_computed cfg source1 source2 tc s A1 A2 D Ha Hb)
      as (sm & Hex & Hc & Hz & H1 & Hr).
    pose proof (gen_rem_ops cfg ret_ source1 source2 tc) as Hops.
    assert (Hov : tv s source1 = min_signed cfg ->
                  target_long cfg (tv s source2) = -1 ->
                  tv sm (TEMP (S (S (S (nb_temps tc))))) = 0).
    { intros Hmn Hb1. rewrite Hr.
      apply Z.eqb_eq in Hb1. rewrite Hm1 in Hb1. rewrite Hb1.
      rewrite Hmin in Hmn. rewrite Hmn at 2. rewrite Z.eqb_refl, orb_true_r.
      rewrite L1, Z.rem_1_r. apply target_ulong_small. lia. }
    do 4 eexists. exists sm.
    exists (set_tv sm ret_
              (if tv sm (TEMP (nb_temps tc)) =? tv sm (TEMP (S (S (nb_temps tc))))
               then tv sm (TEMP (S (S (S (nb_temps tc))))) else tv sm source1)).
    split; [exact Hops |].
    split; [exact Hex |].
    split; [exact Hc |]. split; [exact Hz |]. split; [exact H1 |].
    split; [exact Hov |].
    split; [rewrite (exec_app _ _ _ _ _ Hex); reflexivity |].
    rewrite tv_set_same, Hc, Hz, H1.
    split; [| split].
    + intros Z0. rewrite Z0. reflexivity.
    + intros Hmn Hb1.
      destruct (Z.eqb_spec (tv s source2) 0) as [Z0 | NZ].
      * exfalso. rewrite Z0 in Hb1.
        assert (target_long cfg 0 = 0) by (apply target_long_nonneg; lia). lia.
      * simpl. now apply Hov.
    + intros NZ NO.
      destruct (Z.eqb_spec (tv s source2) 0); [contradiction |]. simpl.
      rewrite Hr. simpl.
      destruct (Z.eqb_spec (tv s source1) (2 ^ (TARGET_LONG_BITS cfg - 1))),
        (Z.eqb_spec (tv s source2) (2 ^ TARGET_LONG_BITS cfg - 1)); simpl;
        try reflexivity.
      exfalso. apply NO. split; [lia |].
      apply Z.eqb_eq. exact Hm1.
  - destruct (gen_remu_computed cfg source1 source2 tc s A1 A2 D)
      as (sm & Hex & Hc & Hz & H1 & Hr).
    pose proof (gen_remu_ops cfg ret_ source1 source2 tc) as Hops.
    do 4 eexists. exists sm.
    exists (set_tv sm ret_
              (if tv sm (TEMP (nb_temps tc)) =? tv sm (TEMP (S (nb_temps tc)))
               then tv sm (TEMP (S (S (nb_temps tc)))) else tv sm source1)).
    split; [exact Hops |].
    split; [exact Hex |].
    split; [exact Hc |]. split; [exact Hz |]. split; [exact H1 |].
    split; [rewrite (exec_app _ _ _ _ _ Hex); reflexivity |].
    rewrite tv_set_same, Hc, Hz, H1.
    split.
    + intros Z0. rewrite Z0. reflexivity.
    + intros NZ.
      destruct (Z.eqb_spec (tv s source2) 0); [contradiction |]. simpl.
      rewrite Hr.
      destruct (Z.eqb_spec (tv s source2) 0); [contradiction | reflexivity].
Qed.

(** ** What a call appended to the op buffer *)

Lemma emitted_since_app (tc tc' : TCGContext) (new : list tcg_op) :
  tcg_ops tc' = tcg_ops tc ++ new -> emitted_since tc tc' = new.
Proof.
  intros H. unfold emitted_since. rewrite H.
  rewrite skipn_app, skipn_all, Nat.sub_diag. reflexivity.
Qed.

Lemma emitted_since_refl (tc : TCGContext) : emitted_since tc tc = [].
Proof. apply emitted_since_app. now rewrite app_nil_r. Qed.

(** ** Integer register access *)

Lemma gen_set_gprs_runs (cfg : Config) (ws : list (Z * TCGv)) (tc : TCGContext) :
  exists new,
    tcg_ops (snd (gen_set_gprs ws tc)) = tcg_ops tc ++ new
    /\ nb_temps (snd (gen_set_gprs ws tc)) = nb_temps tc
    /\ nb_temps_i32 (snd (gen_set_gprs ws tc)) = nb_temps_i32 tc
    /\ forall s, exists s', exec cfg new s = Next s'.
Proof.
  revert tc. induction ws as [| [r t] ws IH]; intros tc.
  - exists []. simpl. rewrite app_nil_r. repeat split. intros s. now exists s.
  - simpl. unfold bind, gen_set_gpr.
    destruct (r =? 0); simpl.
    + apply IH.
    + unfold tcg_gen_mov_tl, emit. simpl.
      destruct (IH {| tcg_ops := tcg_ops tc ++ [op_mov (cpu_gpr r) t];
                      nb_temps := nb_temps tc;
                      nb_temps_i32 := nb_temps_i32 tc |})
        as (new & Hops & Hn & Hn32 & Hrun).
      simpl in Hops, Hn, Hn32.
      exists (op_mov (cpu_gpr r) t :: new). rewrite Hops, <- app_assoc.
      repeat split; try assumption.
      intros s. simpl. apply Hrun.
Qed.

(** C5.  Whatever register writes came before, reading register 0 with
    [gen_get_gpr] loads the constant 0; writing register 0 with
    [gen_set_gpr] emits nothing and leaves the translation state as it was,
    so no register changes; for an index [i] from 1 to 31 the read copies
    [cpu_gpr[i]] into the destination and the write copies the source into
    [cpu_gpr[i]], every other value staying as it was. *)
Theorem gen_gpr_zero_register (cfg : Config) (i : Z) (t : TCGv)
  (ws : list (Z * TCGv)) (tc : TCGContext) (s : GuestState) :
  1 <= i < 32 ->
  (exists s',
      exec cfg (emitted_since tc (snd ((gen_set_gprs ws ;; gen_get_gpr t 0) tc))) s
      = Next s'
      /\ tv s' t = 0)
  /\ (emitted_since tc (snd (gen_get_gpr t 0 tc)) = [op_movi t 0]
      /\ exists s', exec cfg [op_movi t 0] s = Next s' /\ tv s' t = 0)
  /\ gen_set_gpr 0 t tc = (tt, tc)
  /\ exec cfg (emitted_since tc (snd (gen_set_gpr 0 t tc))) s = Next s
  /\ (emitted_since tc (snd (gen_get_gpr t i tc)) = [op_mov t (cpu_gpr i)]
      /\ exists s', exec cfg [op_mov t (cpu_gpr i)] s = Next s'
           /\ tv s' t = tv s (cpu_gpr i)
           /\ forall x, x <> t -> tv s' x = tv s x)
  /\ (emitted_since tc (snd (gen_set_gpr i t tc)) = [op_mov (cpu_gpr i) t]
      /\ exists s', exec cfg [op_mov (cpu_gpr i) t] s = Next s'
           /\ tv s' (cpu_gpr i) = tv s t
           /\ forall x, x <> cpu_gpr i -> tv s' x = tv s x).
Proof.
  intros Hi.
  assert (Ei : (i =? 0) = false) by (apply Z.eqb_neq; lia).
  split; [| split; [| split; [| split; [| split]]]].
  - destruct (gen_set_gprs_runs cfg ws tc) as (new & Hops & _ & _ & Hrun).
    destruct (Hrun s) as (s1 & Hs1).
    exists (set_tv s1 t (target_ulong cfg 0)). split.
    + rewrite (emitted_since_app tc _ (new ++ [op_movi t 0])).
      * rewrite (exec_app _ _ _ _ _ Hs1). reflexivity.
      * unfold bind. destruct (gen_set_gprs ws tc) as [u tc1] eqn:G.
        simpl in Hops. simpl. rewrite Hops, app_assoc. reflexivity.
    + rewrite tv_set_same. destruct (const_all_ones cfg) as (_ & _ & _ & C & _).
      exact C.
  - split; [apply emitted_since_app; reflexivity |].
    eexists. split; [reflexivity |]. rewrite tv_set_same.
    destruct (const_all_ones cfg) as (_ & _ & _ & C & _). exact C.
  - reflexivity.
  - simpl. now rewrite emitted_since_refl.
  - unfold gen_get_gpr. rewrite Ei.
    split; [apply emitted_since_app; reflexivity |].
    eexists. split; [reflexivity |]. split.
    + apply tv_set_same.
    + intros x Hx. now apply tv_set_other.
  - unfold gen_set_gpr. rewrite Ei.
    split; [apply emitted_since_app; reflexivity |].
    eexists. split; [reflexivity |]. split.
    + apply tv_set_same.
    + intros x Hx. now apply tv_set_other.
Qed.

(** ** Rounding-mode cache *)

Lemma gen_set_rm_hit (ctx : DisasContext) (rm : Z) (tc : TCGContext) :
  frm ctx = rm -> gen_set_rm ctx rm tc = (ctx, tc).
Proof. intros H. unfold gen_set_rm. rewrite H, Z.eqb_refl. reflexivity. Qed.

Lemma gen_set_rm_miss (ctx : DisasContext) (rm : Z) (tc : TCGContext) :
  frm ctx <> rm ->
  fst (gen_set_rm ctx rm tc) = set_frm ctx rm
  /\ tcg_ops (snd (gen_set_rm ctx rm tc)) =
     tcg_ops tc ++ [op_movi_i32 (TEMP_I32 (nb_temps_i32 tc)) rm;
                    op_helper_set_rounding_mode (TEMP_I32 (nb_temps_i32 tc))].
Proof.
  intros H. unfold gen_set_rm.
  destruct (Z.eqb_spec (frm ctx) rm); [contradiction |].
  unfold bind; simpl. rewrite <- app_assoc. split; reflexivity.
Qed.

Lemma count_installs_app (l1 l2 : list tcg_op) :
  count_installs (l1 ++ l2) = (count_installs l1 + count_installs l2)%nat.
Proof. unfold count_installs. now rewrite filter_app, length_app. Qed.

Lemma gen_set_rms_installs (rms : list Z) (ctx : DisasContext) (tc : TCGContext) :
  exists new,
    tcg_ops (snd (gen_set_rms ctx rms tc)) = tcg_ops tc ++ new
    /\ count_installs new = mode_changes (frm ctx) rms.
Proof.
  revert ctx tc. induction rms as [| rm rms IH]; intros ctx tc.
  - exists []. simpl. rewrite app_nil_r. split; reflexivity.
  - simpl gen_set_rms. unfold bind.
    destruct (Z.eqb_spec (frm ctx) rm) as [Heq | Hne].
    + rewrite (gen_set_rm_hit ctx rm tc Heq).
      destruct (IH ctx tc) as (new & Hops & Hc).
      exists new. split; [exact Hops |].
      simpl. rewrite Heq, Z.eqb_refl. simpl. rewrite <- Heq. exact Hc.
    + destruct (gen_set_rm_miss ctx rm tc Hne) as [Hctx Hops1].
      destruct (gen_set_rm ctx rm tc) as [ctx1 tc1]. simpl in Hctx, Hops1.
      destruct (IH ctx1 tc1) as (new & Hops & Hc).
      exists ([op_movi_i32 (TEMP_I32 (nb_temps_i32 tc)) rm;
               op_helper_set_rounding_mode (TEMP_I32 (nb_temps_i32 tc))] ++ new).
      split; [rewrite Hops, Hops1, <- app_assoc; reflexivity |].
      rewrite count_installs_app, Hc. subst ctx1. simpl.
      destruct (Z.eqb_spec (frm ctx) rm); [contradiction | reflexivity].
Qed.

(** C6.  [riscv_tr_init_disas_context] sets the cached rounding mode to -1
    whatever the context held before.  A request equal to the cached mode
    returns the context and the op buffer untouched; a differing request
    appends exactly one call of the set-rounding-mode helper, which installs
    the requested mode, and caches the mode.  Hence a run of requests emits
    as many installs as it has changes of mode; a request for a mode from 0
    to 7 made right after block entry installs, and a second request for the
    same mode adds none. *)
Theorem gen_set_rm_cache (cfg : Config) (ctx : DisasContext) (cs : CPUState)
  (rm : Z) (rms : list Z) (tc : TCGContext) (s : GuestState) :
  0 <= rm < 8 ->
  frm (riscv_tr_init_disas_context ctx cs) = -1
  /\ (frm ctx = rm -> gen_set_rm ctx rm tc = (ctx, tc))
  /\ (frm ctx <> rm ->
      frm (fst (gen_set_rm ctx rm tc)) = rm
      /\ count_installs (emitted_since tc (snd (gen_set_rm ctx rm tc))) = 1%nat
      /\ exists s',
           exec cfg (emitted_since tc (snd (gen_set_rm ctx rm tc))) s = Next s'
           /\ fp_rounding s' = rm)
  /\ count_installs (emitted_since tc (snd (gen_set_rms ctx rms tc)))
     = mode_changes (frm ctx) rms
  /\ count_installs
       (emitted_since tc
          (snd (gen_set_rm (riscv_tr_init_disas_context ctx cs) rm tc))) = 1%nat
  /\ count_installs
       (emitted_since tc
          (snd (gen_set_rms (riscv_tr_init_disas_context ctx cs) [rm; rm] tc)))
     = 1%nat.
Proof.
  intros Hrm.
  split; [reflexivity |].
  split; [apply gen_set_rm_hit |].
  split; [| split; [| split]].
  - intros Hne. destruct (gen_set_rm_miss ctx rm tc Hne) as [Hctx Hops].
    rewrite Hctx, (emitted_since_app _ _ _ Hops).
    split; [reflexivity |]. split; [reflexivity |].
    eexists. split; [reflexivity |]. simpl. now rewrite Nat.eqb_refl.
  - destruct (gen_set_rms_installs rms ctx tc) as (new & Hops & Hc).
    now rewrite (emitted_since_app _ _ _ Hops).
  - assert (Hne : frm (riscv_tr_init_disas_context ctx cs) <> rm) by (simpl; lia).
    destruct (gen_set_rm_miss _ rm tc Hne) as [_ Hops].
    now rewrite (emitted_since_app _ _ _ Hops).
  - destruct (gen_set_rms_installs [rm; rm] (riscv_tr_init_disas_context ctx cs) tc)
      as (new & Hops & Hc).
    rewrite (emitted_since_app _ _ _ Hops), Hc.
    change (frm (riscv_tr_init_disas_context ctx cs)) with (-1).
    cbn [mode_changes]. rewrite Z.eqb_refl.
    destruct (Z.eqb_spec (-1) rm); [lia | reflexivity].
Qed.

(** A block of four floating-point instructions, all with rounding mode 3,
    translated from a context whose cached mode is already 3 (left there by
    an earlier block): the block installs the mode once. *)
Example block_installs_rounding_mode_once :
  let r := gen_intermediate_code rv64_softmmu (decode_fp 3) (decode_fp 3) 4
             (set_frm (sample_ctx 0 4) 3) (sample_cpu 4 83 []) (sample_tb 8192)
             tcg_init in
  option_map (fun ctx => num_insns (base ctx)) (fst r) = Some 4%nat
  /\ count_installs (tcg_ops (snd r)) = 1%nat.
Proof. vm_compute. split; reflexivity. Qed.

(** ** Exceptions *)

Lemma generate_exception_emits (ctx : DisasContext) (excp : Z) (tc : TCGContext) :
  fst (generate_exception ctx excp tc) = set_is_jmp ctx DISAS_NORETURN
  /\ tcg_ops (snd (generate_exception ctx excp tc)) =
     tcg_ops tc ++
       [op_movi cpu_pc (pc_next (base ctx));
        op_movi_i32 (TEMP_I32 (nb_temps_i32 tc)) excp;
        op_helper_raise_exception (TEMP_I32 (nb_temps_i32 tc))].
Proof.
  unfold generate_exception, bind; simpl.
  repeat rewrite <- app_assoc. split; reflexivity.
Qed.

Lemma generate_exception_mbadaddr_emits (ctx : DisasContext) (excp : Z)
  (tc : TCGContext) :
  fst (generate_exception_mbadaddr ctx excp tc) = set_is_jmp ctx DISAS_NORETURN
  /\ tcg_ops (snd (generate_exception_mbadaddr ctx excp tc)) =
     tcg_ops tc ++
       [op_movi cpu_pc (pc_next (base ctx));
        op_st cpu_pc offsetof_badaddr;
        op_movi_i32 (TEMP_I32 (nb_temps_i32 tc)) excp;
        op_helper_raise_exception (TEMP_I32 (nb_temps_i32 tc))].
Proof.
  unfold generate_exception_mbadaddr, bind; simpl.
  repeat rewrite <- app_assoc. split; reflexivity.
Qed.

(** Running "flush the PC, load the code, raise": the block is left through
    the exception with the PC holding the flushed address and nothing else
    among the TCG values changed. *)
Lemma exec_flush_raise (cfg : Config) (pc excp : Z) (t : TCGv_i32)
  (rest : list tcg_op) (s : GuestState) :
  exists s',
    exec cfg (op_movi cpu_pc pc :: op_movi_i32 t excp
              :: op_helper_raise_exception t :: rest) s
    = Exited (EXIT_EXCEPTION excp) s'
    /\ tv s' cpu_pc = target_ulong cfg pc
    /\ (forall x, x <> cpu_pc -> tv s' x = tv s x)
    /\ badaddr s' = badaddr s
    /\ fp_rounding s' = fp_rounding s.
Proof.
  eexists. split.
  - simpl. destruct t as [n]. simpl. rewrite Nat.eqb_refl. reflexivity.
  - split; [apply tv_set_same |]. split; [| split; reflexivity].
    intros x Hx. simpl. now rewrite TCGv_eqb_neq.
Qed.

Lemma exec_flush_badaddr_raise (cfg : Config) (pc excp : Z) (t : TCGv_i32)
  (rest : list tcg_op) (s : GuestState) :
  exists s',
    exec cfg (op_movi cpu_pc pc :: op_st cpu_pc offsetof_badaddr
              :: op_movi_i32 t excp :: op_helper_raise_exception t :: rest) s
    = Exited (EXIT_EXCEPTION excp) s'
    /\ tv s' cpu_pc = target_ulong cfg pc
    /\ (forall x, x <> cpu_pc -> tv s' x = tv s x)
    /\ badaddr s' = target_ulong cfg pc
    /\ fp_rounding s' = fp_rounding s.
Proof.
  eexists. split.
  - simpl. destruct t as [n]. simpl. rewrite Nat.eqb_refl. reflexivity.
  - split; [apply tv_set_same |]. split; [| split; reflexivity].
    intros x Hx. simpl. now rewrite TCGv_eqb_neq.
Qed.

(** What [gen_system] emits for the two trapping function fields of
    [OPC_RISC_ECALL], and how the emitted operations run. *)
Lemma gen_system_trap (cfg : Config) (e : CPURISCVState) (ctx : DisasContext)
  (rd rs1 csr excp : Z) (tc : TCGContext) (s : GuestState) :
  (csr = 0 /\ excp = RISCV_EXCP_U_ECALL)
  \/ (csr = 1 /\ excp = RISCV_EXCP_BREAKPOINT) ->
  let r := gen_system e ctx OPC_RISC_ECALL rd rs1 csr tc in
  is_jmp (base (fst r)) = DISAS_NORETURN
  /\ emitted_since tc (snd r) =
     [op_movi cpu_pc (pc_next (base ctx));
      op_movi cpu_pc (pc_next (base ctx));
      op_movi_i32 (TEMP_I32 (nb_temps_i32 tc)) excp;
      op_helper_raise_exception (TEMP_I32 (nb_temps_i32 tc));
      op_exit_tb None 0]
  /\ filter is_goto_tb (emitted_since tc (snd r)) = []
  /\ exists s',
       exec cfg (emitted_since tc (snd r)) s = Exited (EXIT_EXCEPTION excp) s'
       /\ tv s' cpu_pc = target_ulong cfg (pc_next (base ctx))
       /\ (forall x, x <> cpu_pc -> tv s' x = tv s x).
Proof.
  intros Hcase. cbv zeta.
  assert (Hops : tcg_ops (snd (gen_system e ctx OPC_RISC_ECALL rd rs1 csr tc)) =
    tcg_ops tc ++
    [op_movi cpu_pc (pc_next (base ctx));
     op_movi cpu_pc (pc_next (base ctx));
     op_movi_i32 (TEMP_I32 (nb_temps_i32 tc)) excp;
     op_helper_raise_exception (TEMP_I32 (nb_temps_i32 tc));
     op_exit_tb None 0]
    /\ is_jmp (base (fst (gen_system e ctx OPC_RISC_ECALL rd rs1 csr tc)))
       = DISAS_NORETURN).
  { destruct Hcase as [[-> ->] | [-> ->]];
      unfold gen_system, generate_exception, bind; simpl;
      repeat rewrite <- app_assoc; split; reflexivity. }
  destruct Hops as [Hops Hj].
  rewrite (emitted_since_app _ _ _ Hops).
  split; [exact Hj |]. split; [reflexivity |]. split; [reflexivity |].
  destruct (exec_flush_raise cfg (pc_next (base ctx)) excp
              (TEMP_I32 (nb_temps_i32 tc)) [op_exit_tb None 0]
              (set_tv s cpu_pc (target_ulong cfg (pc_next (base ctx)))))
    as (s' & Hex & Hpc & Hfr & _).
  exists s'. split; [exact Hex |]. split; [exact Hpc |].
  intros x Hx. rewrite (Hfr x Hx). now apply tv_set_other.
Qed.

(** C9.  Translating ECALL ([gen_system] on [OPC_RISC_ECALL] with function
    field 0) writes the address of the instruction to the guest PC, raises
    [RISCV_EXCP_U_ECALL] and no other code, whatever the context's privilege
    fields hold, leaves the exit reason at [DISAS_NORETURN], and emits no
    [goto_tb]: its only block exit is [exit_tb] on the NULL block.  EBREAK
    (function field 1) does the same with [RISCV_EXCP_BREAKPOINT]. *)
Theorem gen_system_ecall_ebreak (cfg : Config) (e : CPURISCVState)
  (ctx : DisasContext) (rd rs1 : Z) (tc : TCGContext) (s : GuestState) :
  (let r := gen_system e ctx OPC_RISC_ECALL rd rs1 0 tc in
   is_jmp (base (fst r)) = DISAS_NORETURN
   /\ emitted_since tc (snd r) =
      [op_movi cpu_pc (pc_next (base ctx));
       op_movi cpu_pc (pc_next (base ctx));
       op_movi_i32 (TEMP_I32 (nb_temps_i32 tc)) RISCV_EXCP_U_ECALL;
       op_helper_raise_exception (TEMP_I32 (nb_temps_i32 tc));
       op_exit_tb None 0]
   /\ filter is_goto_tb (emitted_since tc (snd r)) = []
   /\ exists s',
        exec cfg (emitted_since tc (snd r)) s
        = Exited (EXIT_EXCEPTION RISCV_EXCP_U_ECALL) s'
        /\ tv s' cpu_pc = target_ulong cfg (pc_next (base ctx))
        /\ (forall x, x <> cpu_pc -> tv s' x = tv s x))
  /\ RISCV_EXCP_U_ECALL <> RISCV_EXCP_S_ECALL
  /\ RISCV_EXCP_U_ECALL <> RISCV_EXCP_H_ECALL
  /\ RISCV_EXCP_U_ECALL <> RISCV_EXCP_M_ECALL
  /\ (let r := gen_system e ctx OPC_RISC_ECALL rd rs1 1 tc in
      is_jmp (base (fst r)) = DISAS_NORETURN
      /\ emitted_since tc (snd r) =
         [op_movi cpu_pc (pc_next (base ctx));
          op_movi cpu_pc (pc_next (base ctx));
          op_movi_i32 (TEMP_I32 (nb_temps_i32 tc)) RISCV_EXCP_BREAKPOINT;
          op_helper_raise_exception (TEMP_I32 (nb_temps_i32 tc));
          op_exit_tb None 0]
      /\ filter is_goto_tb (emitted_since tc (snd r)) = []
      /\ exists s',
           exec cfg (emitted_since tc (snd r)) s
           = Exited (EXIT_EXCEPTION RISCV_EXCP_BREAKPOINT) s'
           /\ tv s' cpu_pc = target_ulong cfg (pc_next (base ctx))
           /\ (forall x, x <> cpu_pc -> tv s' x = tv s x)).
Proof.
  split; [| split; [| split; [| split]]]; try discriminate.
  - apply gen_system_trap. left. split; reflexivity.
  - apply gen_system_trap. right. split; reflexivity.
Qed.

Lemma riscv_tr_breakpoint_check_emits (cfg : Config) (ctx : DisasContext)
  (cs : CPUState) (bp : Z) (tc : TCGContext) :
  fst (riscv_tr_breakpoint_check cfg ctx cs bp tc) =
    (true, set_pc_next (set_is_jmp ctx DISAS_NORETURN)
             (target_ulong cfg (pc_next (base ctx) + 4)))
  /\ tcg_ops (snd (riscv_tr_breakpoint_check cfg ctx cs bp tc)) =
     tcg_ops tc ++
       [op_movi cpu_pc (pc_next (base ctx));
        op_movi_i32 (TEMP_I32 (nb_temps_i32 tc)) EXCP_DEBUG;
        op_helper_raise_exception (TEMP_I32 (nb_temps_i32 tc))].
Proof.
  unfold riscv_tr_breakpoint_check, gen_exception_debug, bind; simpl.
  repeat rewrite <- app_assoc. split; reflexivity.
Qed.

(** C10.  Each exception raised from this file -- illegal instruction,
    misaligned instruction address, environment call, breakpoint, and the
    debug trap of the breakpoint check -- is emitted as a write of the
    address of the instruction being translated to the guest PC followed,
    later in the buffer, by the call of the raise-exception helper, and the
    context is left with exit reason [DISAS_NORETURN]; running the emitted
    operations leaves the block through that exception with the guest PC
    holding that address. *)
Theorem exceptions_flush_pc (cfg : Config) (e : CPURISCVState)
  (ctx : DisasContext) (cs : CPUState) (bp rd rs1 : Z) (tc : TCGContext)
  (s : GuestState) :
  let raises (r : DisasContext * TCGContext) (excp : Z) :=
    is_jmp (base (fst r)) = DISAS_NORETURN
    /\ (exists mid rest,
          emitted_since tc (snd r) =
            op_movi cpu_pc (pc_next (base ctx)) :: mid
              ++ op_helper_raise_exception (TEMP_I32 (nb_temps_i32 tc)) :: rest
          /\ forall o, In o mid -> o <> op_helper_raise_exception
                                          (TEMP_I32 (nb_temps_i32 tc)))
    /\ exists s',
         exec cfg (emitted_since tc (snd r)) s = Exited (EXIT_EXCEPTION excp) s'
         /\ tv s' cpu_pc = target_ulong cfg (pc_next (base ctx)) in
  raises (gen_exception_illegal ctx tc) RISCV_EXCP_ILLEGAL_INST
  /\ raises (gen_exception_inst_addr_mis ctx tc) RISCV_EXCP_INST_ADDR_MIS
  /\ raises (gen_system e ctx OPC_RISC_ECALL rd rs1 0 tc) RISCV_EXCP_U_ECALL
  /\ raises (gen_system e ctx OPC_RISC_ECALL rd rs1 1 tc) RISCV_EXCP_BREAKPOINT
  /\ raises (let r := riscv_tr_breakpoint_check cfg ctx cs bp tc in
             (snd (fst r), snd r)) EXCP_DEBUG.
Proof.
  intros raises. subst raises. cbv beta.
  split; [| split; [| split; [| split]]].
  - destruct (generate_exception_emits ctx RISCV_EXCP_ILLEGAL_INST tc) as [Hc Ho].
    unfold gen_exception_illegal.
    rewrite Hc, (emitted_since_app _ _ _ Ho).
    split; [reflexivity |]. split.
    + exists [op_movi_i32 (TEMP_I32 (nb_temps_i32 tc)) RISCV_EXCP_ILLEGAL_INST], [].
      split; [reflexivity |].
      intros o [<- | []]. discriminate.
    + destruct (exec_flush_raise cfg (pc_next (base ctx)) RISCV_EXCP_ILLEGAL_INST
                  (TEMP_I32 (nb_temps_i32 tc)) [] s) as (s' & Hex & Hpc & _).
      exists s'. split; assumption.
  - destruct (generate_exception_mbadaddr_emits ctx RISCV_EXCP_INST_ADDR_MIS tc)
      as [Hc Ho].
    unfold gen_exception_inst_addr_mis.
    rewrite Hc, (emitted_since_app _ _ _ Ho).
    split; [reflexivity |]. split.
    + exists [op_st cpu_pc offsetof_badaddr;
              op_movi_i32 (TEMP_I32 (nb_temps_i32 tc)) RISCV_EXCP_INST_ADDR_MIS], [].
      split; [reflexivity |].
      intros o [<- | [<- | []]]; discriminate.
    + destruct (exec_flush_badaddr_raise cfg (pc_next (base ctx))
                  RISCV_EXCP_INST_ADDR_MIS (TEMP_I32 (nb_temps_i32 tc)) [] s)
        as (s' & Hex & Hpc & _).
      exists s'. split; assumption.
  - destruct (gen_system_trap cfg e ctx rd rs1 0 RISCV_EXCP_U_ECALL tc s)
      as (Hj & Ho & _ & s' & Hex & Hpc & _); [left; split; reflexivity |].
    split; [exact Hj |]. split.
    + rewrite Ho.
      exists [op_movi cpu_pc (pc_next (base ctx));
              op_movi_i32 (TEMP_I32 (nb_temps_i32 tc)) RISCV_EXCP_U_ECALL],
             [op_exit_tb None 0].
      split; [reflexivity |].
      intros o [<- | [<- | []]]; discriminate.
    + exists s'. split; assumption.
  - destruct (gen_system_trap cfg e ctx rd rs1 1 RISCV_EXCP_BREAKPOINT tc s)
      as (Hj & Ho & _ & s' & Hex & Hpc & _); [right; split; reflexivity |].
    split; [exact Hj |]. split.
    + rewrite Ho.
      exists [op_movi cpu_pc (pc_next (base ctx));
              op_movi_i32 (TEMP_I32 (nb_temps_i32 tc)) RISCV_EXCP_BREAKPOINT],
             [op_exit_tb None 0].
      split; [reflexivity |].
      intros o [<- | [<- | []]]; discriminate.
    + exists s'. split; assumption.
  - destruct (riscv_tr_breakpoint_check_emits cfg ctx cs bp tc) as [Hc Ho].
    cbv zeta. cbn [fst snd]. rewrite Hc, (emitted_since_app _ _ _ Ho).
    split; [reflexivity |]. split.
    + exists [op_movi_i32 (TEMP_I32 (nb_temps_i32 tc)) EXCP_DEBUG], [].
      split; [reflexivity |].
      intros o [<- | []]. discriminate.
    + destruct (exec_flush_raise cfg (pc_next (base ctx)) EXCP_DEBUG
                  (TEMP_I32 (nb_temps_i32 tc)) [] s) as (s' & Hex & Hpc & _).
      exists s'. split; assumption.
Qed.

(** ** JAL to a misaligned target *)

(** C1, as amended.  When RVC is absent and the target (current PC plus
    immediate, at the address width) has one of its low 2 bits set,
    [gen_jal] emits exactly: the write of the JAL's own address to the guest
    PC, the store of that PC into [badaddr], and the raise of
    [RISCV_EXCP_INST_ADDR_MIS]; nothing follows for the instruction and the
    exit reason is [DISAS_NORETURN].  Running the operations leaves the
    block through that exception with both the guest PC and [badaddr]
    holding the address of the JAL instruction, and with the link register
    and every other TCG value as before. *)
Theorem gen_jal_misaligned (cfg : Config) (e : CPURISCVState)
  (ctx : DisasContext) (rd imm : Z) (tc : TCGContext) (s : GuestState) :
  riscv_has_ext e RVC = false ->
  Z.land (target_ulong cfg (pc_next (base ctx) + imm)) 3 <> 0 ->
  let r := gen_jal cfg e ctx rd imm tc in
  fst r = set_is_jmp ctx DISAS_NORETURN
  /\ emitted_since tc (snd r) =
     [op_movi cpu_pc (pc_next (base ctx));
      op_st cpu_pc offsetof_badaddr;
      op_movi_i32 (TEMP_I32 (nb_temps_i32 tc)) RISCV_EXCP_INST_ADDR_MIS;
      op_helper_raise_exception (TEMP_I32 (nb_temps_i32 tc))]
  /\ exists s',
       exec cfg (emitted_since tc (snd r)) s
       = Exited (EXIT_EXCEPTION RISCV_EXCP_INST_ADDR_MIS) s'
       /\ tv s' cpu_pc = target_ulong cfg (pc_next (base ctx))
       /\ badaddr s' = target_ulong cfg (pc_next (base ctx))
       /\ (forall x, x <> cpu_pc -> tv s' x = tv s x)
       /\ fp_rounding s' = fp_rounding s.
Proof.
  intros Hc Hmis. cbv zeta.
  assert (G : gen_jal cfg e ctx rd imm tc = gen_exception_inst_addr_mis ctx tc).
  { unfold gen_jal. rewrite Hc. cbn [negb].
    destruct (Z.eqb_spec (Z.land (target_ulong cfg (pc_next (base ctx) + imm)) 3) 0);
      [contradiction | reflexivity]. }
  rewrite G. unfold gen_exception_inst_addr_mis.
  destruct (generate_exception_mbadaddr_emits ctx RISCV_EXCP_INST_ADDR_MIS tc)
    as [Hctx Hops].
  rewrite Hctx, (emitted_since_app _ _ _ Hops).
  split; [reflexivity |]. split; [reflexivity |].
  destruct (exec_flush_badaddr_raise cfg (pc_next (base ctx))
              RISCV_EXCP_INST_ADDR_MIS (TEMP_I32 (nb_temps_i32 tc)) [] s)
    as (s' & Hex & Hpc & Hfr & Hbad & Hfp).
  exists s'. repeat split; assumption.
Qed.

(** C1 fails as stated: for a JAL at 0x1000 with immediate 2 and RVC absent
    the target 0x1002 is misaligned, and the fault-address field receives
    0x1000, the address of the JAL, not the target. *)
Lemma gen_jal_badaddr_counterexample :
  let e := sample_env 0 0 in
  let ctx := sample_ctx 4096 0 in
  let target := target_ulong rv64_softmmu (pc_next (base ctx) + 2) in
  riscv_has_ext e RVC = false
  /\ Z.land target 3 <> 0
  /\ exists s',
       exec rv64_softmmu
         (emitted_since tcg_init (snd (gen_jal rv64_softmmu e ctx 1 2 tcg_init)))
         guest_zero
       = Exited (EXIT_EXCEPTION RISCV_EXCP_INST_ADDR_MIS) s'
       /\ badaddr s' = 4096
       /\ badaddr s' <> target.
Proof.
  cbv zeta. split; [reflexivity |]. split; [discriminate |].
  eexists. split; [reflexivity |]. split; [reflexivity |]. discriminate.
Qed.

(** The same JAL, run through the theorem. *)
Lemma gen_jal_misaligned_witness :
  riscv_has_ext (sample_env 0 0) RVC = false
  /\ Z.land (target_ulong rv64_softmmu (pc_next (base (sample_ctx 4096 0)) + 2)) 3 <> 0
  /\ exists s',
       exec rv64_softmmu
         (emitted_since tcg_init
            (snd (gen_jal rv64_softmmu (sample_env 0 0) (sample_ctx 4096 0) 1 2
                    tcg_init)))
         guest_zero
       = Exited (EXIT_EXCEPTION RISCV_EXCP_INST_ADDR_MIS) s'
       /\ tv s' cpu_pc = 4096 /\ badaddr s' = 4096.
Proof.
  split; [reflexivity |]. split; [discriminate |].
  destruct (gen_jal_misaligned rv64_softmmu (sample_env 0 0) (sample_ctx 4096 0)
              1 2 tcg_init guest_zero) as (_ & _ & s' & Hex & Hpc & Hbad & _).
  - reflexivity.
  - discriminate.
  - exists s'. split; [exact Hex |]. split; [exact Hpc | exact Hbad].
Defined.

(** ** Runs of the arithmetic theorems *)

(** -1 (signed) times all-ones (unsigned) on a 64-bit target: the upper
    half is all-ones, that is -1. *)
Lemma gen_mulhsu_upper_half_witness :
  (allocated tcg_two_temps (TEMP 0) /\ allocated tcg_two_temps (TEMP 1)
   /\ 0 <= tv (guest_with (2 ^ 64 - 1) (2 ^ 64 - 1)) (TEMP 0) < 2 ^ TARGET_LONG_BITS rv64_softmmu
   /\ 0 <= tv (guest_with (2 ^ 64 - 1) (2 ^ 64 - 1)) (TEMP 1) < 2 ^ TARGET_LONG_BITS rv64_softmmu)
  /\ exists s',
       exec rv64_softmmu
         (emitted_since tcg_two_temps
            (snd (gen_mulhsu rv64_softmmu (TEMP 0) (TEMP 0) (TEMP 1) tcg_two_temps)))
         (guest_with (2 ^ 64 - 1) (2 ^ 64 - 1)) = Next s'
       /\ target_long rv64_softmmu (tv s' (TEMP 0)) = -1.
Proof.
  assert (H : allocated tcg_two_temps (TEMP 0) /\ allocated tcg_two_temps (TEMP 1)
   /\ 0 <= tv (guest_with (2 ^ 64 - 1) (2 ^ 64 - 1)) (TEMP 0) < 2 ^ TARGET_LONG_BITS rv64_softmmu
   /\ 0 <= tv (guest_with (2 ^ 64 - 1) (2 ^ 64 - 1)) (TEMP 1) < 2 ^ TARGET_LONG_BITS rv64_softmmu).
  { simpl. lia. }
  split; [exact H |].
  destruct H as (A1 & A2 & R1 & R2).
  destruct (gen_mulhsu_upper_half rv64_softmmu (TEMP 0) (TEMP 0) (TEMP 1)
              tcg_two_temps (guest_with (2 ^ 64 - 1) (2 ^ 64 - 1)) A1 A2 R1 R2)
    as (new & s' & Hops & Hex & _ & Hv).
  exists s'. rewrite (emitted_since_app _ _ _ Hops).
  split; [exact Hex |]. rewrite Hv. reflexivity.
Defined.

(** The overflowing pair on a 64-bit target: the quotient is the dividend. *)
Lemma gen_div_divu_results_witness :
  (allocated tcg_two_temps (TEMP 0) /\ allocated tcg_two_temps (TEMP 1)
   /\ TEMP 0 <> TEMP 1
   /\ 0 <= tv (guest_with (2 ^ 63) (2 ^ 64 - 1)) (TEMP 0) < 2 ^ TARGET_LONG_BITS rv64_softmmu
   /\ 0 <= tv (guest_with (2 ^ 63) (2 ^ 64 - 1)) (TEMP 1) < 2 ^ TARGET_LONG_BITS rv64_softmmu)
  /\ exists s',
       exec rv64_softmmu
         (emitted_since tcg_two_temps
            (snd (gen_div rv64_softmmu (TEMP 0) (TEMP 0) (TEMP 1) tcg_two_temps)))
         (guest_with (2 ^ 63) (2 ^ 64 - 1)) = Next s'
       /\ tv s' (TEMP 0) = 2 ^ 63.
Proof.
  assert (H : allocated tcg_two_temps (TEMP 0) /\ allocated tcg_two_temps (TEMP 1)
   /\ TEMP 0 <> TEMP 1
   /\ 0 <= tv (guest_with (2 ^ 63) (2 ^ 64 - 1)) (TEMP 0) < 2 ^ TARGET_LONG_BITS rv64_softmmu
   /\ 0 <= tv (guest_with (2 ^ 63) (2 ^ 64 - 1)) (TEMP 1) < 2 ^ TARGET_LONG_BITS rv64_softmmu).
  { simpl. repeat split; (lia || discriminate). }
  split; [exact H |].
  destruct H as (A1 & A2 & D & R1 & R2).
  destruct (gen_div_divu_results rv64_softmmu (TEMP 0) (TEMP 0) (TEMP 1)
              tcg_two_temps (guest_with (2 ^ 63) (2 ^ 64 - 1)) A1 A2 D R1 R2)
    as ((new & s' & Hops & Hex & _ & Hov & _) & _).
  exists s'. rewrite (emitted_since_app _ _ _ Hops).
  split; [exact Hex |]. rewrite Hov; reflexivity.
Defined.

(** Remainder by zero on a 32-bit target: the dividend comes back. *)
Lemma gen_rem_remu_results_witness :
  (allocated tcg_two_temps (TEMP 0) /\ allocated tcg_two_temps (TEMP 1)
   /\ TEMP 0 <> TEMP 1
   /\ 0 <= tv (guest_with 7 0) (TEMP 0) < 2 ^ TARGET_LONG_BITS rv32_softmmu
   /\ 0 <= tv (guest_with 7 0) (TEMP 1) < 2 ^ TARGET_LONG_BITS rv32_softmmu)
  /\ exists s',
       exec rv32_softmmu
         (emitted_since tcg_two_temps
            (snd (gen_rem rv32_softmmu (TEMP 0) (TEMP 0) (TEMP 1) tcg_two_temps)))
         (guest_with 7 0) = Next s'
       /\ tv s' (TEMP 0) = 7.
Proof.
  assert (H : allocated tcg_two_temps (TEMP 0) /\ allocated tcg_two_temps (TEMP 1)
   /\ TEMP 0 <> TEMP 1
   /\ 0 <= tv (guest_with 7 0) (TEMP 0) < 2 ^ TARGET_LONG_BITS rv32_softmmu
   /\ 0 <= tv (guest_with 7 0) (TEMP 1) < 2 ^ TARGET_LONG_BITS rv32_softmmu).
  { simpl. repeat split; (lia || discriminate). }
  split; [exact H |].
  destruct H as (A1 & A2 & D & R1 & R2).
  destruct (gen_rem_remu_results rv32_softmmu (TEMP 0) (TEMP 0) (TEMP 1)
              tcg_two_temps (guest_with 7 0) A1 A2 D R1 R2)
    as ((c1 & z & r1 & body & sm & s' & Hops & _ & _ & _ & _ & _ & Hex & Hz & _) & _).
  exists s'. rewrite (emitted_since_app _ _ _ Hops).
  split; [exact Hex |]. rewrite Hz; reflexivity.
Defined.

(** Register 5 is written, then register 0 is read: the read gives 0. *)
Lemma gen_gpr_zero_register_witness :
  1 <= 5 < 32
  /\ exists s',
       exec rv64_softmmu
         (emitted_since tcg_two_temps
            (snd ((gen_set_gprs [(5, TEMP 0); (0, TEMP 0)] ;; gen_get_gpr (TEMP 1) 0)
                    tcg_two_temps)))
         (guest_with 42 9) = Next s'
       /\ tv s' (TEMP 1) = 0.
Proof.
  assert (H : 1 <= 5 < 32) by lia.
  split; [exact H |].
  exact (proj1 (gen_gpr_zero_register rv64_softmmu 5 (TEMP 1)
                  [(5, TEMP 0); (0, TEMP 0)] tcg_two_temps (guest_with 42 9) H)).
Defined.

(** Two requests for mode 1 right after block entry: one install. *)
Lemma gen_set_rm_cache_witness :
  0 <= 1 < 8
  /\ count_installs
       (emitted_since tcg_init
          (snd (gen_set_rms
                  (riscv_tr_init_disas_context (sample_ctx 0 0) (sample_cpu 0 0 []))
                  [1; 1] tcg_init))) = 1%nat.
Proof.
  assert (H : 0 <= 1 < 8) by lia.
  split; [exact H |].
  exact (proj2 (proj2 (proj2 (proj2 (proj2
    (gen_set_rm_cache rv64_softmmu (sample_ctx 0 0) (sample_cpu 0 0 []) 1 []
       tcg_init guest_zero H)))))).
Defined.

(** ** Guest pages *)

Section Pages.

Variable cfg : Config.
Hypothesis page_bits : 0 <= TARGET_PAGE_BITS cfg < TARGET_LONG_BITS cfg.

Lemma TARGET_PAGE_SIZE_eq : TARGET_PAGE_SIZE cfg = 2 ^ TARGET_PAGE_BITS cfg.
Proof. unfold TARGET_PAGE_SIZE. apply Z.shiftl_1_l. Qed.

Lemma TARGET_PAGE_SIZE_pos : 0 < TARGET_PAGE_SIZE cfg.
Proof. rewrite TARGET_PAGE_SIZE_eq. apply Z.pow_pos_nonneg; lia. Qed.

Lemma modulus_pages :
  2 ^ TARGET_LONG_BITS cfg =
  TARGET_PAGE_SIZE cfg * 2 ^ (TARGET_LONG_BITS cfg - TARGET_PAGE_BITS cfg)
  /\ 2 <= 2 ^ (TARGET_LONG_BITS cfg - TARGET_PAGE_BITS cfg).
Proof.
  rewrite TARGET_PAGE_SIZE_eq. split.
  - rewrite <- Z.pow_add_r by lia. f_equal. lia.
  - change 2 with (2 ^ 1) at 1. apply Z.pow_le_mono_r; lia.
Qed.

Lemma page_start_eq (x : Z) :
  Z.land x (TARGET_PAGE_MASK cfg) =
  TARGET_PAGE_SIZE cfg * (x / TARGET_PAGE_SIZE cfg).
Proof.
  unfold TARGET_PAGE_MASK. rewrite TARGET_PAGE_SIZE_eq.
  replace (2 ^ TARGET_PAGE_BITS cfg - 1) with (Z.ones (TARGET_PAGE_BITS cfg))
    by (rewrite Z.ones_equiv; lia).
  rewrite <- Z.ldiff_land, Z.ldiff_ones_r by lia.
  rewrite Z.shiftl_mul_pow2, Z.shiftr_div_pow2 by lia. lia.
Qed.

Lemma page_offset_eq (x : Z) :
  Z.land x (TARGET_PAGE_SIZE cfg - 1) = x mod TARGET_PAGE_SIZE cfg.
Proof.
  rewrite TARGET_PAGE_SIZE_eq.
  replace (2 ^ TARGET_PAGE_BITS cfg - 1) with (Z.ones (TARGET_PAGE_BITS cfg))
    by (rewrite Z.ones_equiv; lia).
  apply Z.land_ones. lia.
Qed.

(** The page test of [riscv_tr_translate_insn] holds exactly when the
    address has left the page of the block's first instruction. *)
Lemma page_test_same_page (x f : Z) :
  0 <= x < 2 ^ TARGET_LONG_BITS cfg ->
  0 <= f < 2 ^ TARGET_LONG_BITS cfg ->
  (TARGET_PAGE_SIZE cfg <=? target_ulong cfg (x - Z.land f (TARGET_PAGE_MASK cfg)))
  = negb (same_page cfg x f).
Proof.
  intros Hx Hf. unfold same_page. rewrite !page_start_eq.
  pose proof TARGET_PAGE_SIZE_pos as PS.
  destruct modulus_pages as [M M2].
  set (ps := TARGET_PAGE_SIZE cfg) in *.
  set (k := 2 ^ (TARGET_LONG_BITS cfg - TARGET_PAGE_BITS cfg)) in *.
  pose proof (Z.div_mod x ps ltac:(lia)) as Dx.
  pose proof (Z.mod_pos_bound x ps PS) as Bx.
  pose proof (Z.div_mod f ps ltac:(lia)) as Df.
  pose proof (Z.mod_pos_bound f ps PS) as Bf.
  assert (Qx : 0 <= x / ps < k).
  { split; [apply Z.div_pos; lia |]. apply Z.div_lt_upper_bound; lia. }
  assert (Qf : 0 <= f / ps < k).
  { split; [apply Z.div_pos; lia |]. apply Z.div_lt_upper_bound; lia. }
  unfold target_ulong.
  destruct (Z.lt_trichotomy (x / ps) (f / ps)) as [Lt | [Eq | Gt]].
  - (* the address is in an earlier page: the difference wraps *)
    replace (x - ps * (f / ps))
      with (x - ps * (f / ps) + 2 ^ TARGET_LONG_BITS cfg
            + (-1) * 2 ^ TARGET_LONG_BITS cfg) by lia.
    rewrite Z.mod_add by lia.
    rewrite Z.mod_small by nia.
    destruct (Z.leb_spec ps (x - ps * (f / ps) + 2 ^ TARGET_LONG_BITS cfg));
      destruct (Z.eqb_spec (ps * (x / ps)) (ps * (f / ps))); simpl; try reflexivity; nia.
  - rewrite Z.mod_small by nia.
    destruct (Z.leb_spec ps (x - ps * (f / ps)));
      destruct (Z.eqb_spec (ps * (x / ps)) (ps * (f / ps))); simpl; try reflexivity; nia.
  - rewrite Z.mod_small by nia.
    destruct (Z.leb_spec ps (x - ps * (f / ps)));
      destruct (Z.eqb_spec (ps * (x / ps)) (ps * (f / ps))); simpl; try reflexivity; nia.
Qed.

Lemma same_page_refl (x : Z) : same_page cfg x x = true.
Proof. unfold same_page. apply Z.eqb_refl. Qed.

End Pages.

(** ** Decoding one opcode *)

Lemma insn_start_pcs_app (l1 l2 : list tcg_op) :
  insn_start_pcs (l1 ++ l2) = insn_start_pcs l1 ++ insn_start_pcs l2.
Proof.
  induction l1 as [| o l1 IH]; [reflexivity |].
  destruct o; simpl; rewrite IH; reflexivity.
Qed.

Lemma gen_exception_illegal_emits (ctx : DisasContext) (tc : TCGContext) :
  fst (gen_exception_illegal ctx tc) = set_is_jmp ctx DISAS_NORETURN
  /\ exists new,
       tcg_ops (snd (gen_exception_illegal ctx tc)) = tcg_ops tc ++ new
       /\ insn_start_pcs new = [].
Proof.
  destruct (generate_exception_emits ctx RISCV_EXCP_ILLEGAL_INST tc) as [Hc Ho].
  split; [exact Hc |]. eexists. split; [exact Ho | reflexivity].
Qed.

Section Decode.

Variable cfg : Config.
Variable decode_insn32 : DisasContext -> Z -> Gen (bool * DisasContext).
Variable decode_insn16 : DisasContext -> Z -> Gen (bool * DisasContext).
Hypothesis ok32 : decoder_ok decode_insn32.
Hypothesis ok16 : decoder_ok decode_insn16.

(** After a decoder has run on [c], with or without a match. *)
Lemma decoded_frame (d : DisasContext -> Z -> Gen (bool * DisasContext))
  (c : DisasContext) (insn : Z) (tc : TCGContext) :
  decoder_ok d ->
  let r := (r <- d c insn ;;
            let (ok, ctx) := r in
            if negb ok then gen_exception_illegal ctx else ret ctx)%gen tc in
  pc_first (base (fst r)) = pc_first (base c)
  /\ pc_succ_insn (fst r) = pc_succ_insn c
  /\ exists new, tcg_ops (snd r) = tcg_ops tc ++ new /\ insn_start_pcs new = [].
Proof.
  intros Hd. cbv zeta. unfold bind.
  destruct (Hd c insn tc) as (Hf & Hs & new & Ho & Hn).
  destruct (d c insn tc) as [[ok c1] tc1]. simpl in Hf, Hs, Ho.
  destruct ok; cbn [negb].
  - unfold ret. simpl.
    split; [exact Hf |]. split; [exact Hs |]. exists new. split; assumption.
  - destruct (gen_exception_illegal_emits c1 tc1) as (Hc & new' & Ho' & Hn').
    rewrite Hc. split; [exact Hf |]. split; [exact Hs |].
    exists (new ++ new'). split.
    + rewrite Ho', Ho, app_assoc. reflexivity.
    + rewrite insn_start_pcs_app, Hn, Hn'. reflexivity.
Qed.

Lemma decode_opc_succ (ctx : DisasContext) (tc : TCGContext) :
  let r := decode_opc cfg decode_insn32 decode_insn16 ctx tc in
  pc_first (base (fst r)) = pc_first (base ctx)
  /\ (exists new, tcg_ops (snd r) = tcg_ops tc ++ new /\ insn_start_pcs new = [])
  /\ (extract32 (opcode ctx) 0 2 = 3 ->
      pc_succ_insn (fst r) = target_ulong cfg (pc_next (base ctx) + 4))
  /\ (extract32 (opcode ctx) 0 2 <> 3 -> riscv_has_ext (env ctx) RVC = true ->
      pc_succ_insn (fst r) = target_ulong cfg (pc_next (base ctx) + 2))
  /\ (extract32 (opcode ctx) 0 2 <> 3 -> riscv_has_ext (env ctx) RVC = false ->
      r = gen_exception_illegal ctx tc).
Proof.
  cbv zeta. unfold decode_opc.
  destruct (Z.eqb_spec (extract32 (opcode ctx) 0 2) 3) as [E3 | N3]; cbn [negb].
  - destruct (decoded_frame decode_insn32
                (set_pc_succ_insn ctx (target_ulong cfg (pc_next (base ctx) + 4)))
                (opcode ctx) tc ok32) as (Hf & Hs & Hn).
    split; [exact Hf |]. split; [exact Hn |].
    split; [intros _; exact Hs |]. split; intros; contradiction.
  - destruct (riscv_has_ext (env ctx) RVC) eqn:HC; cbn [negb].
    + destruct (decoded_frame decode_insn16
                  (set_pc_succ_insn ctx (target_ulong cfg (pc_next (base ctx) + 2)))
                  (opcode ctx mod 2 ^ 16) tc ok16) as (Hf & Hs & Hn).
      split; [exact Hf |]. split; [exact Hn |].
      split; [intros; contradiction |].
      split; [intros _ _; exact Hs | intros _ C; discriminate].
    + destruct (gen_exception_illegal_emits ctx tc) as (Hc & Hn).
      rewrite Hc. split; [reflexivity |]. split; [exact Hn |].
      split; [intros; contradiction |].
      split; [intros _ C; discriminate | reflexivity].
Qed.

End Decode.

(** C8, as amended.  With decoders that leave [pc_succ_insn] alone,
    [decode_opc] leaves [pc_succ_insn] at the address of the current
    instruction plus 4 (at the address width) for an opcode whose low 2 bits
    are 0b11, and at that address plus 2 for any other opcode when RVC is
    present.  The assignment precedes the decoder: replacing the decoders by
    any others that behave the same on every context in which
    [pc_succ_insn] already is that fall-through address does not change the
    result.  For an opcode whose low 2 bits are not 0b11 when RVC is absent
    no decoder runs: the result is that of [gen_exception_illegal]. *)
Theorem decode_opc_fall_through (cfg : Config)
  (decode_insn32 decode_insn16 decode_insn32' decode_insn16'
     : DisasContext -> Z -> Gen (bool * DisasContext))
  (ctx : DisasContext) (tc : TCGContext) :
  decoder_ok decode_insn32 -> decoder_ok decode_insn16 ->
  (forall c insn t,
      pc_succ_insn c = target_ulong cfg (pc_next (base c) + 4) ->
      decode_insn32' c insn t = decode_insn32 c insn t) ->
  (forall c insn t,
      pc_succ_insn c = target_ulong cfg (pc_next (base c) + 2) ->
      decode_insn16' c insn t = decode_insn16 c insn t) ->
  let r := decode_opc cfg decode_insn32 decode_insn16 ctx tc in
  (extract32 (opcode ctx) 0 2 = 3 ->
   pc_succ_insn (fst r) = target_ulong cfg (pc_next (base ctx) + 4))
  /\ (extract32 (opcode ctx) 0 2 <> 3 -> riscv_has_ext (env ctx) RVC = true ->
      pc_succ_insn (fst r) = target_ulong cfg (pc_next (base ctx) + 2))
  /\ decode_opc cfg decode_insn32' decode_insn16' ctx tc = r
  /\ (extract32 (opcode ctx) 0 2 <> 3 -> riscv_has_ext (env ctx) RVC = false ->
      r = gen_exception_illegal ctx tc).
Proof.
  intros ok32 ok16 A32 A16. cbv zeta.
  destruct (decode_opc_succ cfg decode_insn32 decode_insn16 ok32 ok16 ctx tc)
    as (_ & _ & H4 & H2 & Hill).
  split; [exact H4 |]. split; [exact H2 |]. split; [| exact Hill].
  unfold decode_opc.
  destruct (negb (extract32 (opcode ctx) 0 2 =? 3)).
  - destruct (negb (riscv_has_ext (env ctx) RVC)); [reflexivity |].
    unfold bind. rewrite A16; reflexivity.
  - unfold bind. rewrite A32; reflexivity.
Qed.

(** C8 fails as stated: with RVC absent, an opcode whose low 2 bits are
    0b01 at address 0x1000 leaves [pc_succ_insn] at 0x1000, not 0x1002. *)
Lemma decode_opc_pc_succ_counterexample :
  let ctx := set_opcode (sample_ctx 4096 0) 1 in
  extract32 (opcode ctx) 0 2 <> 3
  /\ pc_succ_insn (fst (decode_opc rv64_softmmu decode_nop decode_nop ctx tcg_init))
     = 4096
  /\ pc_succ_insn (fst (decode_opc rv64_softmmu decode_nop decode_nop ctx tcg_init))
     <> target_ulong rv64_softmmu (pc_next (base ctx) + 2).
Proof.
  cbv zeta. split; [discriminate |]. split; [reflexivity | discriminate].
Qed.

Lemma decode_nop_ok : decoder_ok decode_nop.
Proof.
  intros ctx insn tc. simpl. repeat split.
  exists []. rewrite app_nil_r. split; reflexivity.
Defined.

Lemma decode_none_ok : decoder_ok decode_none.
Proof.
  intros ctx insn tc. simpl. repeat split.
  exists []. rewrite app_nil_r. split; reflexivity.
Defined.

(** A compressed opcode at 0x1000 with RVC present. *)
Lemma decode_opc_fall_through_witness :
  (decoder_ok decode_nop /\ decoder_ok decode_none)
  /\ pc_succ_insn
       (fst (decode_opc rv64_softmmu decode_nop decode_none
               (set_opcode (sample_ctx 4096 4) 1) tcg_init)) = 4098.
Proof.
  split; [split; [exact decode_nop_ok | exact decode_none_ok] |].
  refine (proj1 (proj2 (decode_opc_fall_through rv64_softmmu decode_nop decode_none
                   decode_nop decode_none (set_opcode (sample_ctx 4096 4) 1) tcg_init
                   decode_nop_ok decode_none_ok _ _)) _ _).
  - intros; reflexivity.
  - intros; reflexivity.
  - discriminate.
  - reflexivity.
Defined.

(** ** The block driver and guest pages *)

Lemma DisasJumpType_eqb_eq (a b : DisasJumpType) :
  DisasJumpType_eqb a b = true <-> a = b.
Proof.
  destruct a, b; unfold DisasJumpType_eqb; simpl; split; intro H;
    (reflexivity || discriminate).
Qed.

Lemma gen_goto_tb_emits (cfg : Config) (ctx : DisasContext) (n dest : Z)
  (tc : TCGContext) :
  exists new,
    tcg_ops (snd (gen_goto_tb cfg ctx n dest tc)) = tcg_ops tc ++ new
    /\ insn_start_pcs new = [].
Proof.
  unfold gen_goto_tb.
  destruct (use_goto_tb cfg ctx dest).
  - unfold bind; simpl. eexists. repeat rewrite <- app_assoc.
    split; reflexivity.
  - destruct (singlestep_enabled (base ctx));
      unfold gen_exception_debug, bind; simpl; eexists;
      repeat rewrite <- app_assoc; split; reflexivity.
Qed.

Section Block.

Variable cfg : Config.
Variable decode_insn32 : DisasContext -> Z -> Gen (bool * DisasContext).
Variable decode_insn16 : DisasContext -> Z -> Gen (bool * DisasContext).
Hypothesis page_bits : 2 <= TARGET_PAGE_BITS cfg < TARGET_LONG_BITS cfg.
Hypothesis ok32 : decoder_ok decode_insn32.
Hypothesis ok16 : decoder_ok decode_insn16.

Let page_bits0 : 0 <= TARGET_PAGE_BITS cfg < TARGET_LONG_BITS cfg.
Proof. lia. Qed.

Lemma riscv_tr_translate_insn_eq (ctx : DisasContext) (cs : CPUState)
  (tc : TCGContext) :
  riscv_tr_translate_insn cfg decode_insn32 decode_insn16 ctx cs tc =
  let (cd, tcd) :=
    decode_opc cfg decode_insn32 decode_insn16
      (set_opcode (set_env ctx (env_ptr cs))
         (cpu_ldl_code (env_ptr cs) (pc_next (base ctx)))) tc in
  if DisasJumpType_eqb (is_jmp (base cd)) DISAS_NEXT then
    if TARGET_PAGE_SIZE cfg <=?
       target_ulong cfg
         (pc_succ_insn cd - Z.land (pc_first (base cd)) (TARGET_PAGE_MASK cfg))
    then (set_is_jmp (set_pc_next cd (pc_succ_insn cd)) DISAS_TOO_MANY, tcd)
    else (set_pc_next cd (pc_succ_insn cd), tcd)
  else (set_pc_next cd (pc_succ_insn cd), tcd).
Proof.
  unfold riscv_tr_translate_insn, bind.
  change (decode_opc cfg decode_insn32 decode_insn16
            (set_opcode (set_env ctx (env_ptr cs))
               (cpu_ldl_code (env (set_env ctx (env_ptr cs)))
                  (pc_next (base (set_env ctx (env_ptr cs)))))) tc)
    with (decode_opc cfg decode_insn32 decode_insn16
            (set_opcode (set_env ctx (env_ptr cs))
               (cpu_ldl_code (env_ptr cs) (pc_next (base ctx)))) tc).
  destruct (decode_opc cfg decode_insn32 decode_insn16
              (set_opcode (set_env ctx (env_ptr cs))
                 (cpu_ldl_code (env_ptr cs) (pc_next (base ctx)))) tc) as [cd tcd].
  change (is_jmp (base (set_pc_next cd (pc_succ_insn cd)))) with (is_jmp (base cd)).
  destruct (DisasJumpType_eqb (is_jmp (base cd)) DISAS_NEXT); [| reflexivity].
  change (pc_first (base (set_pc_next cd (pc_succ_insn cd))))
    with (pc_first (base cd)).
  change (pc_next (base (set_pc_next cd (pc_succ_insn cd))))
    with (pc_succ_insn cd).
  destruct (TARGET_PAGE_SIZE cfg <=? _); reflexivity.
Qed.

Lemma translate_insn_step (ctx : DisasContext) (cs : CPUState) (tc : TCGContext) :
  0 <= pc_first (base ctx) < 2 ^ TARGET_LONG_BITS cfg ->
  let fetched :=
    set_opcode (set_env ctx (env_ptr cs))
      (cpu_ldl_code (env_ptr cs) (pc_next (base ctx))) in
  let d := decode_opc cfg decode_insn32 decode_insn16 fetched tc in
  let r := riscv_tr_translate_insn cfg decode_insn32 decode_insn16 ctx cs tc in
  pc_first (base (fst r)) = pc_first (base ctx)
  /\ (exists new, tcg_ops (snd r) = tcg_ops tc ++ new /\ insn_start_pcs new = [])
  /\ pc_next (base (fst r)) = pc_succ_insn (fst d)
  /\ (is_jmp (base (fst r)) = DISAS_NEXT ->
      is_jmp (base (fst d)) = DISAS_NEXT
      /\ same_page cfg (pc_next (base (fst r))) (pc_first (base ctx)) = true
      /\ 0 <= pc_next (base (fst r)) < 2 ^ TARGET_LONG_BITS cfg)
  /\ (is_jmp (base (fst d)) = DISAS_NEXT ->
      same_page cfg (pc_succ_insn (fst d)) (pc_first (base ctx)) = false ->
      is_jmp (base (fst r)) = DISAS_TOO_MANY).
Proof.
  intros Hf. cbv zeta.
  set (fetched := set_opcode (set_env ctx (env_ptr cs))
                    (cpu_ldl_code (env_ptr cs) (pc_next (base ctx)))).
  destruct (decode_opc_succ cfg decode_insn32 decode_insn16 ok32 ok16 fetched tc)
    as (Hpf & Hnew & H4 & H2 & Hill).
  assert (Hrange : is_jmp (base (fst (decode_opc cfg decode_insn32 decode_insn16
                                        fetched tc))) = DISAS_NEXT ->
                   0 <= pc_succ_insn (fst (decode_opc cfg decode_insn32
                                             decode_insn16 fetched tc))
                     < 2 ^ TARGET_LONG_BITS cfg).
  { intros Hn.
    destruct (Z.eq_dec (extract32 (opcode fetched) 0 2) 3) as [E3 | N3].
    - rewrite (H4 E3). apply target_ulong_range.
    - destruct (riscv_has_ext (env fetched) RVC) eqn:HC.
      + rewrite (H2 N3 eq_refl). apply target_ulong_range.
      + rewrite (Hill N3 eq_refl) in Hn.
        destruct (gen_exception_illegal_emits fetched tc) as (Hc & _).
        rewrite Hc in Hn. discriminate. }
  rewrite riscv_tr_translate_insn_eq. fold fetched.
  destruct (decode_opc cfg decode_insn32 decode_insn16 fetched tc) as [cd tcd].
  cbn [fst snd] in *.
  change (pc_first (base fetched)) with (pc_first (base ctx)) in Hpf.
  rewrite Hpf.
  destruct (is_jmp (base cd)) eqn:Hj;
    cbn [DisasJumpType_eqb DisasJumpType_value Z.eqb Pos.eqb].
  - (* the instruction left the exit reason at DISAS_NEXT *)
    rewrite (page_test_same_page cfg page_bits0 _ _ (Hrange eq_refl) Hf).
    destruct (same_page cfg (pc_succ_insn cd) (pc_first (base ctx))) eqn:Hsp;
      cbn [negb fst snd].
    + split; [exact Hpf |]. split; [exact Hnew |]. split; [reflexivity |].
      split.
      * intros _. split; [reflexivity |]. split; [exact Hsp | apply Hrange; reflexivity].
      * intros _ C. discriminate.
    + split; [exact Hpf |]. split; [exact Hnew |]. split; [reflexivity |].
      split.
      * intros C. discriminate.
      * intros _ _. reflexivity.
  - split; [exact Hpf |]. split; [exact Hnew |]. split; [reflexivity |].
    cbn [fst snd].
    change (is_jmp (base (set_pc_next cd (pc_succ_insn cd)))) with (is_jmp (base cd)).
    rewrite Hj. split; intros C; discriminate.
  - split; [exact Hpf |]. split; [exact Hnew |]. split; [reflexivity |].
    cbn [fst snd].
    change (is_jmp (base (set_pc_next cd (pc_succ_insn cd)))) with (is_jmp (base cd)).
    rewrite Hj. split; intros C; discriminate.
Qed.

Lemma translate_insns_eq (more : nat) (cs : CPUState) (ctx : DisasContext)
  (tc : TCGContext) :
  translate_insns cfg decode_insn32 decode_insn16 more cs ctx tc =
  let ctx1 := set_num_insns ctx (S (num_insns (base ctx))) in
  let tc1 := {| tcg_ops := tcg_ops tc ++ [op_insn_start (pc_next (base ctx))];
                nb_temps := nb_temps tc;
                nb_temps_i32 := nb_temps_i32 tc |} in
  let translate (ctx2 : DisasContext) (tc2 : TCGContext) :=
    let (ctx3, tc3) :=
      riscv_tr_translate_insn cfg decode_insn32 decode_insn16 ctx2 cs tc2 in
    if negb (DisasJumpType_eqb (is_jmp (base ctx3)) DISAS_NEXT) then (ctx3, tc3)
    else match more with
         | O => (set_is_jmp ctx3 DISAS_TOO_MANY, tc3)
         | S more' =>
             translate_insns cfg decode_insn32 decode_insn16 more' cs ctx3 tc3
         end in
  if existsb (fun bp => bp =? pc_next (base ctx)) (breakpoints cs) then
    let (r, tc2) :=
      riscv_tr_breakpoint_check cfg ctx1 cs (pc_next (base ctx)) tc1 in
    if DisasJumpType_value DISAS_TOO_MANY
       <? DisasJumpType_value (is_jmp (base (snd r)))
    then (snd r, tc2)
    else translate (snd r) tc2
  else translate ctx1 tc1.
Proof.
  destruct more;
    cbv beta iota zeta
      delta [translate_insns bind riscv_tr_insn_start tcg_gen_insn_start emit ret];
    change (pc_next (base (set_num_insns ctx (S (num_insns (base ctx))))))
      with (pc_next (base ctx));
    (destruct (existsb (fun bp => bp =? pc_next (base ctx)) (breakpoints cs));
     [ destruct (riscv_tr_breakpoint_check cfg _ cs _ _) as [r tc2];
       destruct (DisasJumpType_value DISAS_TOO_MANY <? _); [reflexivity |] |]);
    match goal with
    | |- context [riscv_tr_translate_insn ?a ?b ?c ?d ?e ?f] =>
        destruct (riscv_tr_translate_insn a b c d e f) as [c3 t3]
    end;
    destruct (negb (DisasJumpType_eqb (is_jmp (base c3)) DISAS_NEXT)); reflexivity.
Qed.

(** The loop: every instruction start it marks lies in the page of the
    block's first instruction, the first one is the PC it is entered with,
    and it ends with an exit reason other than [DISAS_NEXT].  When the first
    instruction already ends the block, no further start is marked. *)
Lemma translate_insns_pages (more : nat) :
  forall (cs : CPUState) (ctx : DisasContext) (tc : TCGContext),
  0 <= pc_first (base ctx) < 2 ^ TARGET_LONG_BITS cfg ->
  same_page cfg (pc_next (base ctx)) (pc_first (base ctx)) = true ->
  let r := translate_insns cfg decode_insn32 decode_insn16 more cs ctx tc in
  is_jmp (base (fst r)) <> DISAS_NEXT
  /\ exists new rest,
       tcg_ops (snd r) = tcg_ops tc ++ new
       /\ insn_start_pcs new = pc_next (base ctx) :: rest
       /\ Forall (fun pc => same_page cfg pc (pc_first (base ctx)) = true)
            (insn_start_pcs new)
       /\ ((forall c t,
              pc_first (base c) = pc_first (base ctx) ->
              pc_next (base c) = pc_next (base ctx) ->
              is_jmp (base (fst (riscv_tr_translate_insn cfg decode_insn32
                                   decode_insn16 c cs t))) <> DISAS_NEXT) ->
           rest = []).
Proof.
  induction more as [| more IH]; intros cs ctx tc Hf Hsp; cbv zeta;
    rewrite translate_insns_eq; cbv zeta.
  all: destruct (existsb (fun bp => bp =? pc_next (base ctx)) (breakpoints cs)).
  all: try (
    (* a breakpoint at the current PC ends the block *)
    destruct (riscv_tr_breakpoint_check_emits cfg
                (set_num_insns ctx (S (num_insns (base ctx)))) cs
                (pc_next (base ctx))
                {| tcg_ops := tcg_ops tc ++ [op_insn_start (pc_next (base ctx))];
                   nb_temps := nb_temps tc; nb_temps_i32 := nb_temps_i32 tc |})
      as [Hc Ho];
    destruct (riscv_tr_breakpoint_check cfg
                (set_num_insns ctx (S (num_insns (base ctx)))) cs
                (pc_next (base ctx))
                {| tcg_ops := tcg_ops tc ++ [op_insn_start (pc_next (base ctx))];
                   nb_temps := nb_temps tc; nb_temps_i32 := nb_temps_i32 tc |})
      as [rb tcb];
    cbn [fst snd] in Hc, Ho; subst rb; cbn [fst snd];
    simpl (DisasJumpType_value DISAS_TOO_MANY <? _);
    change (1 <? 2) with true; cbv iota; cbn [fst snd];
    split; [discriminate |];
    eexists; exists [];
    split; [rewrite Ho; cbn [tcg_ops]; rewrite <- app_assoc; reflexivity |];
    split; [reflexivity |];
    split; [constructor; [exact Hsp | constructor] | reflexivity]).
  - (* no instruction budget left after this one *)
    destruct (translate_insn_step (set_num_insns ctx (S (num_insns (base ctx)))) cs
                {| tcg_ops := tcg_ops tc ++ [op_insn_start (pc_next (base ctx))];
                   nb_temps := nb_temps tc; nb_temps_i32 := nb_temps_i32 tc |} Hf)
      as (Hpf & (new & Ho & Hn) & _ & Hnext & _).
    destruct (riscv_tr_translate_insn cfg decode_insn32 decode_insn16
                (set_num_insns ctx (S (num_insns (base ctx)))) cs _) as [c3 t3].
    cbn [fst snd tcg_ops] in *.
    assert (Hops : tcg_ops t3 = tcg_ops tc ++ op_insn_start (pc_next (base ctx)) :: new)
      by (rewrite Ho, <- app_assoc; reflexivity).
    assert (Hpcs : insn_start_pcs (op_insn_start (pc_next (base ctx)) :: new)
                   = [pc_next (base ctx)])
      by (simpl; rewrite Hn; reflexivity).
    destruct (DisasJumpType_eqb (is_jmp (base c3)) DISAS_NEXT) eqn:Hj; cbn [negb fst snd].
    + split; [discriminate |].
      eexists; exists []. split; [exact Hops |]. split; [exact Hpcs |].
      rewrite Hpcs. split; [constructor; [exact Hsp | constructor] | reflexivity].
    + split.
      * intro C. rewrite C in Hj. discriminate.
      * eexists; exists []. split; [exact Hops |]. split; [exact Hpcs |].
        rewrite Hpcs. split; [constructor; [exact Hsp | constructor] | reflexivity].
  - destruct (translate_insn_step (set_num_insns ctx (S (num_insns (base ctx)))) cs
                {| tcg_ops := tcg_ops tc ++ [op_insn_start (pc_next (base ctx))];
                   nb_temps := nb_temps tc; nb_temps_i32 := nb_temps_i32 tc |} Hf)
      as (Hpf & (new & Ho & Hn) & _ & Hnext & _).
    destruct (riscv_tr_translate_insn cfg decode_insn32 decode_insn16
                (set_num_insns ctx (S (num_insns (base ctx)))) cs _) as [c3 t3] eqn:Etr.
    cbn [fst snd tcg_ops] in *.
    assert (Hops : tcg_ops t3 = tcg_ops tc ++ op_insn_start (pc_next (base ctx)) :: new)
      by (rewrite Ho, <- app_assoc; reflexivity).
    assert (Hpcs : insn_start_pcs (op_insn_start (pc_next (base ctx)) :: new)
                   = [pc_next (base ctx)])
      by (simpl; rewrite Hn; reflexivity).
    destruct (DisasJumpType_eqb (is_jmp (base c3)) DISAS_NEXT) eqn:Hj; cbn [negb fst snd].
    + (* the block goes on with the next instruction *)
      apply DisasJumpType_eqb_eq in Hj.
      destruct (Hnext Hj) as (_ & Hsp3 & _).
      change (pc_first (base (set_num_insns ctx (S (num_insns (base ctx))))))
        with (pc_first (base ctx)) in Hpf.
      assert (Hf3 : 0 <= pc_first (base c3) < 2 ^ TARGET_LONG_BITS cfg)
        by (rewrite Hpf; exact Hf).
      assert (Hsp3' : same_page cfg (pc_next (base c3)) (pc_first (base c3)) = true)
        by (rewrite Hpf; exact Hsp3).
      destruct (IH cs c3 t3 Hf3 Hsp3') as (Hne & new3 & rest3 & Ho3 & Hp3 & Hall3 & _).
      split; [exact Hne |].
      exists (op_insn_start (pc_next (base ctx)) :: new ++ new3),
             (pc_next (base c3) :: rest3).
      split; [rewrite Ho3, Hops, <- app_assoc; reflexivity |].
      assert (Hp : insn_start_pcs (op_insn_start (pc_next (base ctx)) :: new ++ new3)
                   = pc_next (base ctx) :: pc_next (base c3) :: rest3).
      { cbn [insn_start_pcs]. rewrite insn_start_pcs_app, Hn, Hp3. reflexivity. }
      split; [exact Hp |]. rewrite Hp. split.
      * constructor; [exact Hsp |]. rewrite <- Hp3, <- Hpf. exact Hall3.
      * intros Hstop. exfalso.
        specialize (Hstop (set_num_insns ctx (S (num_insns (base ctx))))
                      {| tcg_ops := tcg_ops tc ++ [op_insn_start (pc_next (base ctx))];
                         nb_temps := nb_temps tc; nb_temps_i32 := nb_temps_i32 tc |}
                      eq_refl eq_refl).
        rewrite Etr in Hstop. apply Hstop. exact Hj.
    + split.
      * intro C. rewrite C in Hj. discriminate.
      * eexists; exists []. split; [exact Hops |]. split; [exact Hpcs |].
        rewrite Hpcs. split; [constructor; [exact Hsp | constructor] | reflexivity].
Qed.

Lemma next_slot_other_page (f len : Z) :
  0 <= f < 2 ^ TARGET_LONG_BITS cfg ->
  0 < len <= 4 ->
  TARGET_PAGE_SIZE cfg <= Z.land f (TARGET_PAGE_SIZE cfg - 1) + len ->
  same_page cfg (target_ulong cfg (f + len)) f = false.
Proof.
  intros Hf Hlen Hoff.
  rewrite (page_offset_eq cfg page_bits0) in Hoff.
  unfold same_page. rewrite !(page_start_eq cfg page_bits0).
  pose proof (TARGET_PAGE_SIZE_pos cfg page_bits0) as PS.
  destruct (modulus_pages cfg page_bits0) as [M M2].
  assert (PS4 : 4 <= TARGET_PAGE_SIZE cfg).
  { rewrite (TARGET_PAGE_SIZE_eq cfg). change 4 with (2 ^ 2).
    apply Z.pow_le_mono_r; lia. }
  set (ps := TARGET_PAGE_SIZE cfg) in *.
  set (k := 2 ^ (TARGET_LONG_BITS cfg - TARGET_PAGE_BITS cfg)) in *.
  pose proof (Z.div_mod f ps ltac:(lia)) as Df.
  pose proof (Z.mod_pos_bound f ps PS) as Bf.
  apply Z.eqb_neq. unfold target_ulong.
  destruct (Z.lt_ge_cases (f + len) (2 ^ TARGET_LONG_BITS cfg)) as [Lt | Ge].
  - rewrite Z.mod_small by lia.
    assert (f / ps + 1 <= (f + len) / ps).
    { apply Z.div_le_lower_bound; [lia | nia]. }
    nia.
  - replace (f + len) with (f + len - 2 ^ TARGET_LONG_BITS cfg
                            + 1 * 2 ^ TARGET_LONG_BITS cfg) by lia.
    rewrite Z.mod_add by lia.
    rewrite Z.mod_small by lia.
    rewrite (Z.div_small (f + len - 2 ^ TARGET_LONG_BITS cfg) ps) by lia.
    assert (1 <= f / ps) by (apply Z.div_le_lower_bound; nia).
    nia.
Qed.

Lemma translate_insn_last_slot (c : DisasContext) (cs : CPUState) (t : TCGContext) :
  0 <= pc_first (base c) < 2 ^ TARGET_LONG_BITS cfg ->
  pc_next (base c) = pc_first (base c) ->
  TARGET_PAGE_SIZE cfg <=
    Z.land (pc_first (base c)) (TARGET_PAGE_SIZE cfg - 1)
    + (if extract32 (cpu_ldl_code (env_ptr cs) (pc_first (base c))) 0 2 =? 3
       then 4 else 2) ->
  is_jmp (base (fst (riscv_tr_translate_insn cfg decode_insn32 decode_insn16
                       c cs t))) <> DISAS_NEXT.
Proof.
  intros Hf Hpc Hoff Hnext.
  destruct (translate_insn_step c cs t Hf) as (_ & _ & Hpn & Hstep & _).
  destruct (Hstep Hnext) as (Hd & Hsp & _).
  rewrite Hpn in Hsp. rewrite Hpc in *.
  set (fetched := set_opcode (set_env c (env_ptr cs))
                    (cpu_ldl_code (env_ptr cs) (pc_first (base c)))) in *.
  destruct (decode_opc_succ cfg decode_insn32 decode_insn16 ok32 ok16 fetched t)
    as (_ & _ & H4 & H2 & Hill).
  change (opcode fetched) with (cpu_ldl_code (env_ptr cs) (pc_first (base c)))
    in H4, H2, Hill.
  change (pc_next (base fetched)) with (pc_next (base c)) in H4, H2.
  rewrite Hpc in H4, H2.
  destruct (Z.eqb_spec (extract32 (cpu_ldl_code (env_ptr cs) (pc_first (base c))) 0 2) 3)
    as [E3 | N3].
  - rewrite (H4 E3), (next_slot_other_page _ 4 Hf ltac:(lia) Hoff) in Hsp.
    discriminate.
  - destruct (riscv_has_ext (env fetched) RVC) eqn:HC.
    + rewrite (H2 N3 eq_refl), (next_slot_other_page _ 2 Hf ltac:(lia) Hoff) in Hsp.
      discriminate.
    + rewrite (Hill N3 eq_refl) in Hd.
      destruct (gen_exception_illegal_emits fetched t) as (Hc & _).
      rewrite Hc in Hd. discriminate.
Qed.

Lemma translator_loop_block (max_insns : nat) (ctx0 : DisasContext)
  (cs : CPUState) (tb_ : TranslationBlock) (tc : TCGContext) :
  0 <= tb_pc tb_ < 2 ^ TARGET_LONG_BITS cfg ->
  let r := translator_loop cfg decode_insn32 decode_insn16 max_insns ctx0 cs tb_ tc in
  exists ctx' rest,
    fst r = Some ctx'
    /\ is_jmp (base ctx') <> DISAS_NEXT
    /\ insn_start_pcs (emitted_since tc (snd r)) = tb_pc tb_ :: rest
    /\ Forall (fun pc => same_page cfg pc (tb_pc tb_) = true) (tb_pc tb_ :: rest)
    /\ (TARGET_PAGE_SIZE cfg <=
          Z.land (tb_pc tb_) (TARGET_PAGE_SIZE cfg - 1)
          + (if extract32 (cpu_ldl_code (env_ptr cs) (tb_pc tb_)) 0 2 =? 3
             then 4 else 2) ->
        rest = []).
Proof.
  intros Hpc. cbv zeta. unfold translator_loop, riscv_tr_tb_start, bind, ret.
  set (ctx1 := riscv_tr_init_disas_context _ cs).
  assert (Hf1 : pc_first (base ctx1) = tb_pc tb_) by reflexivity.
  assert (Hn1 : pc_next (base ctx1) = tb_pc tb_) by reflexivity.
  destruct (translate_insns_pages (Nat.pred max_insns) cs ctx1 tc)
    as (Hne & new & rest & Ho & Hp & Hall & Hone).
  { rewrite Hf1. exact Hpc. }
  { rewrite Hf1, Hn1. apply same_page_refl. }
  rewrite Hf1 in Hall. rewrite Hn1 in Hp. rewrite Hp in Hall.
  assert (Hrest : TARGET_PAGE_SIZE cfg <=
          Z.land (tb_pc tb_) (TARGET_PAGE_SIZE cfg - 1)
          + (if extract32 (cpu_ldl_code (env_ptr cs) (tb_pc tb_)) 0 2 =? 3
             then 4 else 2) -> rest = []).
  { intros Hoff. apply Hone. intros c t Hcf Hcn.
    rewrite Hf1 in Hcf. rewrite Hn1 in Hcn.
    apply translate_insn_last_slot.
    - rewrite Hcf. exact Hpc.
    - rewrite Hcf, Hcn. reflexivity.
    - rewrite Hcf. exact Hoff. }
  destruct (translate_insns cfg decode_insn32 decode_insn16 (Nat.pred max_insns)
              cs ctx1 tc) as [c2 t2].
  cbn [fst snd] in *.
  unfold riscv_tr_tb_stop.
  destruct (is_jmp (base c2)) eqn:Hj.
  - contradiction.
  - destruct (gen_goto_tb_emits cfg c2 0 (pc_next (base c2)) t2) as (new2 & Ho2 & Hn2).
    unfold bind, ret.
    destruct (gen_goto_tb cfg c2 0 (pc_next (base c2)) t2) as [u t3].
    cbn [fst snd] in *.
    exists c2, rest. split; [reflexivity |]. split; [rewrite Hj; discriminate |].
    split; [| split; assumption].
    rewrite (emitted_since_app tc t3 (new ++ new2)).
    + rewrite insn_start_pcs_app, Hp, Hn2, app_nil_r. reflexivity.
    + rewrite Ho2, Ho, app_assoc. reflexivity.
  - unfold ret. cbn [fst snd].
    exists c2, rest. split; [reflexivity |]. split; [rewrite Hj; discriminate |].
    split; [| split; assumption].
    rewrite (emitted_since_app tc t2 new Ho). exact Hp.
Qed.

End Block.

(** C7.  With decoders that only append to the op buffer and leave the
    block's first address and [pc_succ_insn] alone, on a target whose pages
    hold at least one instruction: after [riscv_tr_translate_insn] the exit
    reason is still [DISAS_NEXT] only if the instruction left it so and the
    next address lies in the page of the block's first instruction, and when
    the instruction left it so and the next address lies outside that page
    the exit reason is [DISAS_TOO_MANY].  Hence the loop of the block driver
    returns with an exit reason other than [DISAS_NEXT], every instruction
    start it marks lies in the page of the block's first instruction, the
    first being the block's address, and a block whose first instruction
    reaches the end of its page has that one instruction only. *)
Theorem translator_loop_page_bound (cfg : Config)
  (decode_insn32 decode_insn16 : DisasContext -> Z -> Gen (bool * DisasContext))
  (max_insns : nat) (ctx0 : DisasContext) (cs : CPUState)
  (tb_ : TranslationBlock) (tc : TCGContext) :
  2 <= TARGET_PAGE_BITS cfg < TARGET_LONG_BITS cfg ->
  decoder_ok decode_insn32 -> decoder_ok decode_insn16 ->
  0 <= tb_pc tb_ < 2 ^ TARGET_LONG_BITS cfg ->
  (forall ctx t,
      0 <= pc_first (base ctx) < 2 ^ TARGET_LONG_BITS cfg ->
      let d := decode_opc cfg decode_insn32 decode_insn16
                 (set_opcode (set_env ctx (env_ptr cs))
                    (cpu_ldl_code (env_ptr cs) (pc_next (base ctx)))) t in
      let r := riscv_tr_translate_insn cfg decode_insn32 decode_insn16 ctx cs t in
      (is_jmp (base (fst r)) = DISAS_NEXT ->
       is_jmp (base (fst d)) = DISAS_NEXT
       /\ same_page cfg (pc_next (base (fst r))) (pc_first (base ctx)) = true)
      /\ (is_jmp (base (fst d)) = DISAS_NEXT ->
          same_page cfg (pc_succ_insn (fst d)) (pc_first (base ctx)) = false ->
          is_jmp (base (fst r)) = DISAS_TOO_MANY))
  /\ (let r := translator_loop cfg decode_insn32 decode_insn16 max_insns
                 ctx0 cs tb_ tc in
      exists ctx' rest,
        fst r = Some ctx'
        /\ is_jmp (base ctx') <> DISAS_NEXT
        /\ insn_start_pcs (emitted_since tc (snd r)) = tb_pc tb_ :: rest
        /\ Forall (fun pc => same_page cfg pc (tb_pc tb_) = true) (tb_pc tb_ :: rest)
        /\ (TARGET_PAGE_SIZE cfg <=
              Z.land (tb_pc tb_) (TARGET_PAGE_SIZE cfg - 1)
              + (if extract32 (cpu_ldl_code (env_ptr cs) (tb_pc tb_)) 0 2 =? 3
                 then 4 else 2) ->
            rest = [])).
Proof.
  intros Hpb ok32 ok16 Hpc. split.
  - intros ctx t Hf. cbv zeta.
    destruct (translate_insn_step cfg decode_insn32 decode_insn16 Hpb ok32 ok16
                ctx cs t Hf) as (_ & _ & _ & Hnext & Hmany).
    split; [| exact Hmany].
    intros Hn. destruct (Hnext Hn) as (Hd & Hsp & _). split; assumption.
  - apply translator_loop_block; assumption.
Qed.

(** A block at the last 4-byte slot of a page, and one at the slot before. *)
Lemma translator_loop_page_bound_witness :
  (2 <= TARGET_PAGE_BITS rv64_softmmu < TARGET_LONG_BITS rv64_softmmu
   /\ decoder_ok decode_nop /\ decoder_ok decode_none
   /\ 0 <= tb_pc (sample_tb 4092) < 2 ^ TARGET_LONG_BITS rv64_softmmu)
  /\ exists ctx',
       fst (translator_loop rv64_softmmu decode_nop decode_none 100
              (sample_ctx 0 0) (sample_cpu 4 19 []) (sample_tb 4092) tcg_init)
       = Some ctx'
       /\ insn_start_pcs
            (emitted_since tcg_init
               (snd (translator_loop rv64_softmmu decode_nop decode_none 100
                       (sample_ctx 0 0) (sample_cpu 4 19 []) (sample_tb 4092)
                       tcg_init))) = [4092].
Proof.
  assert (H : 2 <= TARGET_PAGE_BITS rv64_softmmu < TARGET_LONG_BITS rv64_softmmu
   /\ decoder_ok decode_nop /\ decoder_ok decode_none
   /\ 0 <= tb_pc (sample_tb 4092) < 2 ^ TARGET_LONG_BITS rv64_softmmu).
  { split; [unfold TARGET_LONG_BITS; simpl; lia |]. split; [exact decode_nop_ok |].
    split; [exact decode_none_ok |]. unfold TARGET_LONG_BITS; simpl; lia. }
  split; [exact H |].
  destruct H as (Hpb & ok32 & ok16 & Hpc).
  destruct (translator_loop_page_bound rv64_softmmu decode_nop decode_none 100
              (sample_ctx 0 0) (sample_cpu 4 19 []) (sample_tb 4092) tcg_init
              Hpb ok32 ok16 Hpc) as (_ & ctx' & rest & Hr & _ & Hp & _ & Hone).
  exists ctx'. split; [exact Hr |].
  rewrite Hp, Hone; [reflexivity |]. vm_compute. discriminate.
Defined.

(** * Further properties of the translator *)

(** ** What a run of operations leaves alone *)

Lemma exec_op_frame (cfg : Config) (o : tcg_op) (s s' : GuestState) (x : TCGv) :
  exec_op cfg o s = Next s' -> ~ In x (op_writes o) -> tv s' x = tv s x.
Proof.
  destruct o; simpl; intros H Hx;
    repeat match type of H with
           | (if ?c then _ else _) = _ => destruct c
           end;
    try discriminate;
    try (destruct field; simpl in H);
    inversion H; subst; clear H; try reflexivity;
    repeat (rewrite tv_set_other by (intro E; apply Hx; subst; simpl; auto));
    reflexivity.
Qed.

Lemma exec_op_exited (cfg : Config) (o : tcg_op) (s s' : GuestState) (e : tb_exit) :
  exec_op cfg o s = Exited e s' -> s' = s.
Proof.
  destruct o; simpl; intros H;
    repeat match type of H with
           | (if ?c then _ else _) = _ => destruct c
           end;
    try discriminate;
    try (destruct field; simpl in H; discriminate);
    inversion H; reflexivity.
Qed.

Lemma exec_frame (cfg : Config) (ops : list tcg_op) (x : TCGv) :
  (forall o, In o ops -> ~ In x (op_writes o)) ->
  forall s s',
    (exec cfg ops s = Next s' \/ exists e, exec cfg ops s = Exited e s') ->
    tv s' x = tv s x.
Proof.
  intros Hw. induction ops as [| o ops IH]; intros s s' H.
  - destruct H as [H | [e H]]; simpl in H; [inversion H; reflexivity | discriminate].
  - simpl in H. destruct (exec_op cfg o s) as [s1 | e1 s1 |] eqn:E.
    + rewrite (IH (fun o' Ho' => Hw o' (or_intror Ho')) s1 s' H).
      apply (exec_op_frame cfg o s s1 x E). apply Hw. left. reflexivity.
    + destruct H as [H | [e H]]; [discriminate |].
      inversion H; subst. now rewrite (exec_op_exited cfg o s s' e E).
    + destruct H as [H | [e H]]; discriminate.
Qed.

(** ** Leaving a block: [gen_goto_tb] and [riscv_tr_tb_stop] *)

Lemma exec_movi_pc_then (cfg : Config) (dest : Z) (rest : list tcg_op)
  (s : GuestState) :
  exec cfg (op_movi cpu_pc dest :: rest) s =
  exec cfg rest (set_tv s cpu_pc (target_ulong cfg dest)).
Proof. reflexivity. Qed.

Lemma gen_goto_tb_run (cfg : Config) (ctx : DisasContext) (n dest : Z)
  (tc : TCGContext) (s : GuestState) :
  exists new e s',
    tcg_ops (snd (gen_goto_tb cfg ctx n dest tc)) = tcg_ops tc ++ new
    /\ exec cfg new s = Exited e s'
    /\ tv s' cpu_pc = target_ulong cfg dest
    /\ (forall x, x <> cpu_pc -> tv s' x = tv s x)
    /\ badaddr s' = badaddr s
    /\ (use_goto_tb cfg ctx dest = true -> e = EXIT_TB (Some (tb (base ctx))) n)
    /\ (use_goto_tb cfg ctx dest = false ->
        singlestep_enabled (base ctx) = true -> e = EXIT_EXCEPTION EXCP_DEBUG)
    /\ (use_goto_tb cfg ctx dest = false ->
        singlestep_enabled (base ctx) = false -> e = EXIT_LOOKUP)
    /\ (filter is_goto_tb new <> [] -> use_goto_tb cfg ctx dest = true).
Proof.
  unfold gen_goto_tb.
  destruct (use_goto_tb cfg ctx dest) eqn:U.
  - exists [op_goto_tb n; op_movi cpu_pc dest; op_exit_tb (Some (tb (base ctx))) n].
    eexists. eexists.
    split; [unfold bind; simpl; repeat rewrite <- app_assoc; reflexivity |].
    split; [reflexivity |].
    split; [apply tv_set_same |].
    split; [intros x Hx; now apply tv_set_other |].
    split; [reflexivity |].
    repeat split; intros; try discriminate; reflexivity.
  - destruct (singlestep_enabled (base ctx)) eqn:SS.
    + exists [op_movi cpu_pc dest;
              op_movi_i32 (TEMP_I32 (nb_temps_i32 tc)) EXCP_DEBUG;
              op_helper_raise_exception (TEMP_I32 (nb_temps_i32 tc))].
      destruct (exec_flush_raise cfg dest EXCP_DEBUG (TEMP_I32 (nb_temps_i32 tc)) [] s)
        as (s' & Hex & Hpc & Hfr & Hbad & _).
      exists (EXIT_EXCEPTION EXCP_DEBUG), s'.
      split; [unfold gen_exception_debug, bind; simpl;
              repeat rewrite <- app_assoc; reflexivity |].
      split; [exact Hex |]. split; [exact Hpc |]. split; [exact Hfr |].
      split; [exact Hbad |].
      repeat split; intros; try discriminate; try reflexivity.
      exfalso. apply H. reflexivity.
    + exists [op_movi cpu_pc dest; op_lookup_and_goto_ptr].
      eexists. eexists.
      split; [unfold bind; simpl; repeat rewrite <- app_assoc; reflexivity |].
      split; [reflexivity |].
      split; [apply tv_set_same |].
      split; [intros x Hx; now apply tv_set_other |].
      split; [reflexivity |].
      repeat split; intros; try discriminate; try reflexivity.
      exfalso. apply H. reflexivity.
Qed.

(** X1.  The operations [gen_goto_tb] emits always leave the block with
    the guest PC set to the destination and nothing else changed: through
    the chained exit of the current block when [use_goto_tb] allows it,
    through the debug exception when single-stepping, through the
    dispatcher lookup otherwise.  A [goto_tb] is emitted only when not
    single-stepping and, in system mode, only for a destination in the page
    of the block's own start. *)
Theorem gen_goto_tb_leaves_block (cfg : Config) (ctx : DisasContext)
  (n dest : Z) (tc : TCGContext) (s : GuestState) :
  let new := emitted_since tc (snd (gen_goto_tb cfg ctx n dest tc)) in
  (exists e s',
      exec cfg new s = Exited e s'
      /\ tv s' cpu_pc = target_ulong cfg dest
      /\ (forall x, x <> cpu_pc -> tv s' x = tv s x)
      /\ (use_goto_tb cfg ctx dest = true -> e = EXIT_TB (Some (tb (base ctx))) n)
      /\ (use_goto_tb cfg ctx dest = false ->
          singlestep_enabled (base ctx) = true -> e = EXIT_EXCEPTION EXCP_DEBUG)
      /\ (use_goto_tb cfg ctx dest = false ->
          singlestep_enabled (base ctx) = false -> e = EXIT_LOOKUP))
  /\ (filter is_goto_tb new <> [] ->
      singlestep_enabled (base ctx) = false
      /\ (CONFIG_USER_ONLY cfg = true
          \/ same_page cfg (tb_pc (tb (base ctx))) dest = true)).
Proof.
  cbv zeta.
  destruct (gen_goto_tb_run cfg ctx n dest tc s)
    as (new & e & s' & Ho & Hex & Hpc & Hfr & _ & H1 & H2 & H3 & Hg).
  rewrite (emitted_since_app _ _ _ Ho). split.
  - exists e, s'. repeat split; assumption.
  - intros Hn. specialize (Hg Hn). unfold use_goto_tb in Hg.
    destruct (singlestep_enabled (base ctx)); [discriminate |].
    split; [reflexivity |].
    destruct (CONFIG_USER_ONLY cfg); [left; reflexivity | right; exact Hg].
Qed.

(** X2.  [riscv_tr_tb_stop] on a block that ended with
    [DISAS_TOO_MANY] emits operations that leave the block with the guest
    PC at the fall-through address [pc_next]; on [DISAS_NORETURN] it emits
    nothing; on [DISAS_NEXT] it hits the assertion. *)
Theorem riscv_tr_tb_stop_exits (cfg : Config) (ctx : DisasContext)
  (cs : CPUState) (tc : TCGContext) (s : GuestState) :
  (is_jmp (base ctx) = DISAS_TOO_MANY ->
   fst (riscv_tr_tb_stop cfg ctx cs tc) = Some tt
   /\ exists e s',
        exec cfg (emitted_since tc (snd (riscv_tr_tb_stop cfg ctx cs tc))) s
        = Exited e s'
        /\ tv s' cpu_pc = target_ulong cfg (pc_next (base ctx))
        /\ (forall x, x <> cpu_pc -> tv s' x = tv s x))
  /\ (is_jmp (base ctx) = DISAS_NORETURN ->
      riscv_tr_tb_stop cfg ctx cs tc = (Some tt, tc))
  /\ (is_jmp (base ctx) = DISAS_NEXT ->
      fst (riscv_tr_tb_stop cfg ctx cs tc) = None).
Proof.
  unfold riscv_tr_tb_stop.
  split; [| split]; intros Hj; rewrite Hj; try reflexivity.
  destruct (gen_goto_tb_run cfg ctx 0 (pc_next (base ctx)) tc s)
    as (new & e & s' & Ho & Hex & Hpc & Hfr & _).
  unfold bind, ret.
  destruct (gen_goto_tb cfg ctx 0 (pc_next (base ctx)) tc) as [u t1].
  cbn [fst snd] in *. split; [reflexivity |].
  rewrite (emitted_since_app _ _ _ Ho).
  exists e, s'. repeat split; assumption.
Qed.

(** ** JAL to an accepted target *)

(** X3.  When RVC is present, or the target has its low 2 bits clear,
    [gen_jal] raises nothing of its own: it ends the block
    ([DISAS_NORETURN]) with operations that leave the block with the guest
    PC at the target (current PC plus immediate, at the address width).
    For [rd] other than 0 the link register [cpu_gpr[rd]] then holds
    [pc_succ_insn] and nothing else but the PC has changed; for [rd] 0 no
    register is written.  The way out is the one [gen_goto_tb] chooses, so
    never the misaligned-address exception. *)
Theorem gen_jal_links_and_jumps (cfg : Config) (e : CPURISCVState)
  (ctx : DisasContext) (rd imm : Z) (tc : TCGContext) (s : GuestState) :
  riscv_has_ext e RVC = true
  \/ Z.land (target_ulong cfg (pc_next (base ctx) + imm)) 3 = 0 ->
  let r := gen_jal cfg e ctx rd imm tc in
  let target := target_ulong cfg (pc_next (base ctx) + imm) in
  fst r = set_is_jmp ctx DISAS_NORETURN
  /\ exists ex s',
       exec cfg (emitted_since tc (snd r)) s = Exited ex s'
       /\ tv s' cpu_pc = target
       /\ (rd <> 0 ->
           tv s' (cpu_gpr rd) = target_ulong cfg (pc_succ_insn ctx)
           /\ forall x, x <> cpu_pc -> x <> cpu_gpr rd -> tv s' x = tv s x)
       /\ (rd = 0 -> forall x, x <> cpu_pc -> tv s' x = tv s x)
       /\ badaddr s' = badaddr s
       /\ ex <> EXIT_EXCEPTION RISCV_EXCP_INST_ADDR_MIS
       /\ (use_goto_tb cfg ctx target = true ->
           ex = EXIT_TB (Some (tb (base ctx))) 0).
Proof.
  intros Hok. cbv zeta.
  set (target := target_ulong cfg (pc_next (base ctx) + imm)).
  assert (G : gen_jal cfg e ctx rd imm tc =
              ((if negb (rd =? 0)
                then tcg_gen_movi_tl (cpu_gpr rd) (pc_succ_insn ctx)
                else ret tt) ;;
               gen_goto_tb cfg ctx 0 target ;;
               ret (set_is_jmp ctx DISAS_NORETURN))%gen tc).
  { unfold gen_jal, target.
    destruct (riscv_has_ext e RVC); cbn [negb]; [reflexivity |].
    destruct Hok as [C | Hz]; [discriminate |].
    rewrite Hz. reflexivity. }
  rewrite G. clear G.
  assert (Ht : target_ulong cfg target = target) by apply target_ulong_idem.
  destruct (Z.eqb_spec rd 0) as [Hrd | Hrd]; cbn [negb]; unfold bind, ret.
  - (* no link register *)
    cbn [fst snd].
    destruct (gen_goto_tb_run cfg ctx 0 target tc s)
      as (new & ex & s' & Ho & Hex & Hpc & Hfr & Hbad & H1 & H2 & H3 & _).
    destruct (gen_goto_tb cfg ctx 0 target tc) as [u t1]. cbn [fst snd] in *.
    split; [reflexivity |].
    rewrite (emitted_since_app _ _ _ Ho).
    exists ex, s'. split; [exact Hex |]. split; [rewrite Hpc; exact Ht |].
    split; [intros C; contradiction |].
    split; [intros _; exact Hfr |].
    split; [exact Hbad |].
    split; [| exact H1].
    destruct (use_goto_tb cfg ctx target);
      [rewrite H1 by reflexivity; discriminate |].
    destruct (singlestep_enabled (base ctx));
      [rewrite H2 by reflexivity | rewrite H3 by reflexivity]; discriminate.
  - (* the link register is written first *)
    unfold tcg_gen_movi_tl, emit. cbn [fst snd].
    set (tc1 := {| tcg_ops := tcg_ops tc ++ [op_movi (cpu_gpr rd) (pc_succ_insn ctx)];
                   nb_temps := nb_temps tc; nb_temps_i32 := nb_temps_i32 tc |}).
    destruct (gen_goto_tb_run cfg ctx 0 target tc1
                (set_tv s (cpu_gpr rd) (target_ulong cfg (pc_succ_insn ctx))))
      as (new & ex & s' & Ho & Hex & Hpc & Hfr & Hbad & H1 & H2 & H3 & _).
    destruct (gen_goto_tb cfg ctx 0 target tc1) as [u t1]. cbn [fst snd] in *.
    split; [reflexivity |].
    rewrite (emitted_since_app tc t1 (op_movi (cpu_gpr rd) (pc_succ_insn ctx) :: new))
      by (rewrite Ho; unfold tc1; cbn [tcg_ops]; rewrite <- app_assoc; reflexivity).
    exists ex, s'. split; [exact Hex |]. split; [rewrite Hpc; exact Ht |].
    split.
    { intros _. split.
      - rewrite Hfr by discriminate. apply tv_set_same.
      - intros x Hx1 Hx2. rewrite (Hfr x Hx1). now apply tv_set_other. }
    split; [intros C; contradiction |].
    split; [exact Hbad |].
    split; [| exact H1].
    destruct (use_goto_tb cfg ctx target);
      [rewrite H1 by reflexivity; discriminate |].
    destruct (singlestep_enabled (base ctx));
      [rewrite H2 by reflexivity | rewrite H3 by reflexivity]; discriminate.
Qed.

(** A call [jal x1, 8] at 0x1000 on a target without RVC. *)
Lemma gen_jal_links_and_jumps_witness :
  (riscv_has_ext (sample_env 0 0) RVC = true
   \/ Z.land (target_ulong rv64_softmmu (pc_next (base (sample_ctx 4096 0)) + 8)) 3 = 0)
  /\ exists ex s',
       exec rv64_softmmu
         (emitted_since tcg_init
            (snd (gen_jal rv64_softmmu (sample_env 0 0) (sample_ctx 4096 0) 1 8
                    tcg_init))) guest_zero = Exited ex s'
       /\ tv s' cpu_pc = 4104
       /\ tv s' (cpu_gpr 1) = 4096.
Proof.
  assert (H : riscv_has_ext (sample_env 0 0) RVC = true
    \/ Z.land (target_ulong rv64_softmmu (pc_next (base (sample_ctx 4096 0)) + 8)) 3 = 0)
    by (right; reflexivity).
  split; [exact H |].
  destruct (gen_jal_links_and_jumps rv64_softmmu (sample_env 0 0) (sample_ctx 4096 0)
              1 8 tcg_init guest_zero H)
    as (_ & ex & s' & Hex & Hpc & Hrd & _).
  exists ex, s'. split; [exact Hex |]. split; [exact Hpc |].
  apply Hrd. discriminate.
Defined.

(** ** System instructions other than ECALL and EBREAK *)

(** X4.  [gen_system] always writes the address of the instruction to the
    guest PC first.  Under [OPC_RISC_ECALL] every function field other than
    0 and 1 raises the illegal-instruction exception and ends the block;
    for any other opcode nothing more is emitted and the context is
    returned unchanged, so the block goes on. *)
Theorem gen_system_unrecognised (cfg : Config) (e : CPURISCVState)
  (ctx : DisasContext) (opc rd rs1 csr : Z) (tc : TCGContext) (s : GuestState) :
  let r := gen_system e ctx opc rd rs1 csr tc in
  (exists rest,
      emitted_since tc (snd r) = op_movi cpu_pc (pc_next (base ctx)) :: rest)
  /\ (opc = OPC_RISC_ECALL -> csr <> 0 -> csr <> 1 ->
      is_jmp (base (fst r)) = DISAS_NORETURN
      /\ exists s',
           exec cfg (emitted_since tc (snd r)) s
           = Exited (EXIT_EXCEPTION RISCV_EXCP_ILLEGAL_INST) s'
           /\ tv s' cpu_pc = target_ulong cfg (pc_next (base ctx))
           /\ forall x, x <> cpu_pc -> tv s' x = tv s x)
  /\ (opc <> OPC_RISC_ECALL ->
      fst r = ctx
      /\ emitted_since tc (snd r) = [op_movi cpu_pc (pc_next (base ctx))]
      /\ exists s',
           exec cfg (emitted_since tc (snd r)) s = Next s'
           /\ tv s' cpu_pc = target_ulong cfg (pc_next (base ctx))
           /\ forall x, x <> cpu_pc -> tv s' x = tv s x).
Proof.
  cbv zeta. unfold gen_system.
  destruct (Z.eqb_spec opc OPC_RISC_ECALL) as [Ho | Ho].
  - destruct (Z.eqb_spec csr 0) as [C0 | C0];
      [| destruct (Z.eqb_spec csr 1) as [C1 | C1]].
    + split; [| split; intros; contradiction].
      eexists. apply emitted_since_app.
      unfold generate_exception, bind; simpl. repeat rewrite <- app_assoc.
      reflexivity.
    + split; [| split; intros; contradiction].
      eexists. apply emitted_since_app.
      unfold generate_exception, bind; simpl. repeat rewrite <- app_assoc.
      reflexivity.
    + assert (Hops : tcg_ops (snd ((tcg_gen_movi_tl cpu_pc (pc_next (base ctx)) ;;
                                    gen_exception_illegal ctx)%gen tc)) =
                     tcg_ops tc ++
                       [op_movi cpu_pc (pc_next (base ctx));
                        op_movi cpu_pc (pc_next (base ctx));
                        op_movi_i32 (TEMP_I32 (nb_temps_i32 tc)) RISCV_EXCP_ILLEGAL_INST;
                        op_helper_raise_exception (TEMP_I32 (nb_temps_i32 tc))]).
      { unfold gen_exception_illegal, generate_exception, bind; simpl.
        repeat rewrite <- app_assoc. reflexivity. }
      rewrite (emitted_since_app _ _ _ Hops).
      split; [eexists; reflexivity |].
      split; [| intros; contradiction].
      intros _ _ _. split; [reflexivity |].
      destruct (exec_flush_raise cfg (pc_next (base ctx)) RISCV_EXCP_ILLEGAL_INST
                  (TEMP_I32 (nb_temps_i32 tc)) []
                  (set_tv s cpu_pc (target_ulong cfg (pc_next (base ctx)))))
        as (s' & Hex & Hpc & Hfr & _).
      exists s'. split; [exact Hex |]. split; [exact Hpc |].
      intros x Hx. rewrite (Hfr x Hx). now apply tv_set_other.
  - assert (Hops : tcg_ops (snd ((tcg_gen_movi_tl cpu_pc (pc_next (base ctx)) ;;
                                  ret ctx)%gen tc)) =
                   tcg_ops tc ++ [op_movi cpu_pc (pc_next (base ctx))])
      by reflexivity.
    rewrite (emitted_since_app _ _ _ Hops).
    split; [eexists; reflexivity |].
    split; [intros; contradiction |].
    intros _. split; [reflexivity |]. split; [reflexivity |].
    eexists. split; [reflexivity |]. split; [apply tv_set_same |].
    intros x Hx. now apply tv_set_other.
Qed.

(** [0x73] with function field 2 (URET's slot), handled as unrecognised. *)
Lemma gen_system_unrecognised_witness :
  (OPC_RISC_ECALL = OPC_RISC_ECALL /\ 2 <> 0 /\ 2 <> 1)
  /\ exists s',
       exec rv64_softmmu
         (emitted_since tcg_init
            (snd (gen_system (sample_env 0 0) (sample_ctx 4096 0) OPC_RISC_ECALL
                    0 0 2 tcg_init))) guest_zero
       = Exited (EXIT_EXCEPTION RISCV_EXCP_ILLEGAL_INST) s'
       /\ tv s' cpu_pc = 4096.
Proof.
  assert (H : OPC_RISC_ECALL = OPC_RISC_ECALL /\ 2 <> 0 /\ 2 <> 1)
    by (repeat split; discriminate).
  split; [exact H |].
  destruct H as (H1 & H2 & H3).
  destruct (proj1 (proj2 (gen_system_unrecognised rv64_softmmu (sample_env 0 0)
                            (sample_ctx 4096 0) OPC_RISC_ECALL 0 0 2 tcg_init
                            guest_zero)) H1 H2 H3)
    as (_ & s' & Hex & Hpc & _).
  exists s'. split; [exact Hex | exact Hpc].
Defined.

(** ** The rounding-mode cache at run time *)

Lemma gen_set_rm_run (cfg : Config) (ctx : DisasContext) (rm : Z)
  (tc : TCGContext) (s : GuestState) :
  frm ctx = -1 \/ fp_rounding s = frm ctx ->
  exists new s',
    tcg_ops (snd (gen_set_rm ctx rm tc)) = tcg_ops tc ++ new
    /\ exec cfg new s = Next s'
    /\ frm (fst (gen_set_rm ctx rm tc)) = rm
    /\ (rm = -1 \/ fp_rounding s' = rm)
    /\ (forall x, tv s' x = tv s x)
    /\ badaddr s' = badaddr s.
Proof.
  intros Hinv.
  destruct (Z.eq_dec (frm ctx) rm) as [Heq | Hne].
  - rewrite (gen_set_rm_hit ctx rm tc Heq).
    exists [], s. simpl. rewrite app_nil_r.
    repeat split; try assumption. rewrite <- Heq. exact Hinv.
  - destruct (gen_set_rm_miss ctx rm tc Hne) as [Hc Ho].
    eexists. eexists. split; [exact Ho |].
    split; [reflexivity |]. rewrite Hc.
    split; [reflexivity |]. split; [| split; reflexivity].
    right. simpl. now rewrite Nat.eqb_refl.
Qed.

Lemma last_nonempty_default (l : list Z) (z d d' : Z) :
  last (z :: l) d = last (z :: l) d'.
Proof.
  revert z. induction l as [| a l IH]; intros z; [reflexivity |].
  change (last (a :: l) d = last (a :: l) d'). apply IH.
Qed.

Lemma gen_set_rms_run (cfg : Config) (rms : list Z) :
  forall (ctx : DisasContext) (tc : TCGContext) (s : GuestState),
  frm ctx = -1 \/ fp_rounding s = frm ctx ->
  exists new s',
    tcg_ops (snd (gen_set_rms ctx rms tc)) = tcg_ops tc ++ new
    /\ exec cfg new s = Next s'
    /\ frm (fst (gen_set_rms ctx rms tc)) = last rms (frm ctx)
    /\ (frm (fst (gen_set_rms ctx rms tc)) = -1
        \/ fp_rounding s' = frm (fst (gen_set_rms ctx rms tc)))
    /\ (forall x, tv s' x = tv s x)
    /\ badaddr s' = badaddr s.
Proof.
  induction rms as [| rm rms IH]; intros ctx tc s Hinv.
  - exists [], s. simpl. rewrite app_nil_r. repeat split; assumption.
  - destruct (gen_set_rm_run cfg ctx rm tc s Hinv)
      as (new1 & s1 & Ho1 & Hex1 & Hf1 & Hi1 & Ht1 & Hb1).
    cbn [gen_set_rms]. unfold bind.
    destruct (gen_set_rm ctx rm tc) as [ctx1 tc1]. cbn [fst snd] in *.
    assert (Hinv1 : frm ctx1 = -1 \/ fp_rounding s1 = frm ctx1)
      by (rewrite Hf1; exact Hi1).
    destruct (IH ctx1 tc1 s1 Hinv1) as (new2 & s2 & Ho2 & Hex2 & Hf2 & Hi2 & Ht2 & Hb2).
    exists (new1 ++ new2), s2.
    split; [rewrite Ho2, Ho1, app_assoc; reflexivity |].
    split; [rewrite (exec_app _ _ _ _ _ Hex1); exact Hex2 |].
    split.
    { rewrite Hf2, Hf1. destruct rms as [| z rms]; [reflexivity |].
      change (last (rm :: z :: rms) (frm ctx)) with (last (z :: rms) (frm ctx)).
      apply last_nonempty_default. }
    split; [exact Hi2 |].
    split; [intros x; rewrite Ht2; apply Ht1 | rewrite Hb2; exact Hb1].
Qed.

(** X5.  The cached rounding mode tracks the installed one.  If the cache
    is -1 or equals the mode installed in the guest state, then after any
    run of [gen_set_rm] requests the emitted operations run to completion
    without touching any TCG value, the cache holds the last mode requested
    (it is unchanged by an empty run), and the cache is again -1 or equal to
    the mode installed after the run;
    so after a non-empty run of requests for modes other than -1, started at
    block entry, the mode installed is the last one requested. *)
Theorem gen_set_rm_tracks_installed (cfg : Config) (ctx : DisasContext)
  (cs : CPUState) (rms : list Z) (tc : TCGContext) (s : GuestState) :
  frm ctx = -1 \/ fp_rounding s = frm ctx ->
  (let r := gen_set_rms ctx rms tc in
   exists s',
     exec cfg (emitted_since tc (snd r)) s = Next s'
     /\ frm (fst r) = last rms (frm ctx)
     /\ (frm (fst r) = -1 \/ fp_rounding s' = frm (fst r))
     /\ forall x, tv s' x = tv s x)
  /\ (let r := gen_set_rms (riscv_tr_init_disas_context ctx cs) rms tc in
      rms <> [] -> Forall (fun rm => rm <> -1) rms ->
      exists s',
        exec cfg (emitted_since tc (snd r)) s = Next s'
        /\ fp_rounding s' = last rms (-1)).
Proof.
  intros Hinv. cbv zeta. split.
  - destruct (gen_set_rms_run cfg rms ctx tc s Hinv)
      as (new & s' & Ho & Hex & Hf & Hi & Ht & _).
    rewrite (emitted_since_app _ _ _ Ho).
    exists s'. repeat split; assumption.
  - intros Hne Hall.
    destruct (gen_set_rms_run cfg rms (riscv_tr_init_disas_context ctx cs) tc s
                (or_introl eq_refl))
      as (new & s' & Ho & Hex & Hf & Hi & _).
    rewrite (emitted_since_app _ _ _ Ho).
    exists s'. split; [exact Hex |].
    change (frm (riscv_tr_init_disas_context ctx cs)) with (-1) in Hf.
    rewrite Hf in Hi.
    destruct Hi as [Hi | Hi]; [| exact Hi].
    exfalso.
    assert (Hin : In (last rms (-1)) rms).
    { clear - Hne. induction rms as [| a [| b l] IH]; [contradiction | left; reflexivity |].
      right. apply IH. discriminate. }
    apply (proj1 (Forall_forall _ _) Hall _ Hin). exact Hi.
Qed.

(** Modes 1, 1, 4 requested in a block entered with mode 7 installed. *)
Lemma gen_set_rm_tracks_installed_witness :
  (frm (sample_ctx 0 0) = -1
   \/ fp_rounding (set_fp_rounding guest_zero 7) = frm (sample_ctx 0 0))
  /\ exists s',
       exec rv64_softmmu
         (emitted_since tcg_init (snd (gen_set_rms (sample_ctx 0 0) [1; 1; 4] tcg_init)))
         (set_fp_rounding guest_zero 7) = Next s'
       /\ frm (fst (gen_set_rms (sample_ctx 0 0) [1; 1; 4] tcg_init)) = 4
       /\ fp_rounding s' = 4.
Proof.
  assert (H : frm (sample_ctx 0 0) = -1
    \/ fp_rounding (set_fp_rounding guest_zero 7) = frm (sample_ctx 0 0))
    by (left; reflexivity).
  split; [exact H |].
  destruct (proj1 (gen_set_rm_tracks_installed rv64_softmmu (sample_ctx 0 0)
                     (sample_cpu 0 0 []) [1; 1; 4] tcg_init
                     (set_fp_rounding guest_zero 7) H))
    as (s' & Hex & Hf & Hi & _).
  exists s'. split; [exact Hex |]. split; [exact Hf |].
  destruct Hi as [Hi | Hi].
  - exfalso. rewrite Hf in Hi. discriminate.
  - rewrite Hi. exact Hf.
Defined.

(** ** One instruction: how the PC advances and what a failed decode does *)

(** X6.  With decoders that leave [pc_succ_insn] alone,
    [riscv_tr_translate_insn] moves [pc_next] on by 4 for a fetched word
    whose low 2 bits are 0b11 and by 2 for any other word when RVC is
    present (at the address width), whatever the decoder did with the
    instruction.  For a word whose low 2 bits are not 0b11 when RVC is
    absent, [pc_next] becomes the [pc_succ_insn] the context came in with and
    the block ends with [DISAS_NORETURN]: in a round of the block driver,
    which enters with [pc_succ_insn] equal to [pc_next], the PC does not
    advance. *)
Theorem riscv_tr_translate_insn_advances (cfg : Config)
  (decode_insn32 decode_insn16 : DisasContext -> Z -> Gen (bool * DisasContext))
  (ctx : DisasContext) (cs : CPUState) (tc : TCGContext) :
  decoder_ok decode_insn32 -> decoder_ok decode_insn16 ->
  let word := cpu_ldl_code (env_ptr cs) (pc_next (base ctx)) in
  let r := riscv_tr_translate_insn cfg decode_insn32 decode_insn16 ctx cs tc in
  (extract32 word 0 2 = 3 ->
   pc_next (base (fst r)) = target_ulong cfg (pc_next (base ctx) + 4))
  /\ (extract32 word 0 2 <> 3 -> riscv_has_ext (env_ptr cs) RVC = true ->
      pc_next (base (fst r)) = target_ulong cfg (pc_next (base ctx) + 2))
  /\ (extract32 word 0 2 <> 3 -> riscv_has_ext (env_ptr cs) RVC = false ->
      pc_next (base (fst r)) = pc_succ_insn ctx
      /\ is_jmp (base (fst r)) = DISAS_NORETURN
      /\ (pc_succ_insn ctx = pc_next (base ctx) ->
          pc_next (base (fst r)) = pc_next (base ctx))).
Proof.
  intros ok32 ok16. cbv zeta.
  rewrite riscv_tr_translate_insn_eq.
  set (fetched := set_opcode (set_env ctx (env_ptr cs))
                    (cpu_ldl_code (env_ptr cs) (pc_next (base ctx)))).
  destruct (decode_opc_succ cfg decode_insn32 decode_insn16 ok32 ok16 fetched tc)
    as (_ & _ & H4 & H2 & Hill).
  change (opcode fetched) with (cpu_ldl_code (env_ptr cs) (pc_next (base ctx)))
    in H4, H2, Hill.
  change (env fetched) with (env_ptr cs) in H2, Hill.
  change (pc_next (base fetched)) with (pc_next (base ctx)) in H4, H2.
  destruct (decode_opc cfg decode_insn32 decode_insn16 fetched tc) as [cd tcd].
  cbn [fst snd] in *.
  assert (Hpn : forall b1 b2 : bool,
             pc_next (base (fst (if b1
                                 then if b2
                                      then (set_is_jmp (set_pc_next cd (pc_succ_insn cd))
                                              DISAS_TOO_MANY, tcd)
                                      else (set_pc_next cd (pc_succ_insn cd), tcd)
                                 else (set_pc_next cd (pc_succ_insn cd), tcd))))
             = pc_succ_insn cd)
    by (intros [] []; reflexivity).
  rewrite Hpn.
  split; [exact H4 |]. split; [exact H2 |].
  intros N3 HC. specialize (Hill N3 HC).
  destruct (gen_exception_illegal_emits fetched tc) as (Hc & _).
  rewrite <- Hill in Hc. cbn [fst] in Hc. subst cd.
  split; [reflexivity |]. split; [reflexivity |]. intros E. exact E.
Qed.

(** A compressed-looking word at 0x1000 without RVC: the PC stays. *)
Lemma riscv_tr_translate_insn_advances_witness :
  (decoder_ok decode_nop /\ decoder_ok decode_nop)
  /\ pc_next (base (fst (riscv_tr_translate_insn rv64_softmmu decode_nop decode_nop
                           (sample_ctx 4096 0) (sample_cpu 0 1 []) tcg_init)))
     = 4096.
Proof.
  split; [split; exact decode_nop_ok |].
  refine (proj1 (proj2 (proj2 (riscv_tr_translate_insn_advances rv64_softmmu
             decode_nop decode_nop (sample_ctx 4096 0) (sample_cpu 0 1 []) tcg_init
             decode_nop_ok decode_nop_ok)) _ _)).
  - discriminate.
  - reflexivity.
Defined.

(** X7.  For an instruction that reaches a decoder (low 2 bits 0b11, or
    RVC present), [decode_opc] adds nothing to a decode that matched:
    context and op buffer are those the decoder returned.  When the decoder reports no
    match, [decode_opc] appends the illegal-instruction trap to whatever the
    decoder emitted and ends the block: the PC write uses the [pc_next] of
    the context the decoder returned, and running the appended operations
    raises [RISCV_EXCP_ILLEGAL_INST] with the guest PC at that address. *)
Theorem decode_opc_match_or_illegal (cfg : Config)
  (decode_insn32 decode_insn16 : DisasContext -> Z -> Gen (bool * DisasContext))
  (ctx : DisasContext) (tc : TCGContext) (s : GuestState) :
  extract32 (opcode ctx) 0 2 = 3
  \/ riscv_has_ext (env ctx) RVC = true ->
  let d :=
    if extract32 (opcode ctx) 0 2 =? 3
    then decode_insn32
           (set_pc_succ_insn ctx (target_ulong cfg (pc_next (base ctx) + 4)))
           (opcode ctx) tc
    else decode_insn16
           (set_pc_succ_insn ctx (target_ulong cfg (pc_next (base ctx) + 2)))
           (opcode ctx mod 2 ^ 16) tc in
  let r := decode_opc cfg decode_insn32 decode_insn16 ctx tc in
  (fst (fst d) = true -> r = (snd (fst d), snd d))
  /\ (fst (fst d) = false ->
      fst r = set_is_jmp (snd (fst d)) DISAS_NORETURN
      /\ tcg_ops (snd r) =
         tcg_ops (snd d) ++
           [op_movi cpu_pc (pc_next (base (snd (fst d))));
            op_movi_i32 (TEMP_I32 (nb_temps_i32 (snd d))) RISCV_EXCP_ILLEGAL_INST;
            op_helper_raise_exception (TEMP_I32 (nb_temps_i32 (snd d)))]
      /\ exists s',
           exec cfg (emitted_since (snd d) (snd r)) s
           = Exited (EXIT_EXCEPTION RISCV_EXCP_ILLEGAL_INST) s'
           /\ tv s' cpu_pc = target_ulong cfg (pc_next (base (snd (fst d))))
           /\ forall x, x <> cpu_pc -> tv s' x = tv s x).
Proof.
  intros Hcase. cbv zeta. unfold decode_opc.
  assert (K : forall (dr : bool * DisasContext * TCGContext),
    let r := (let (r0, tc') := dr in
              (let (ok, c) := r0 in
               if negb ok then gen_exception_illegal c else ret c) tc') in
    (fst (fst dr) = true -> r = (snd (fst dr), snd dr))
    /\ (fst (fst dr) = false ->
        fst r = set_is_jmp (snd (fst dr)) DISAS_NORETURN
        /\ tcg_ops (snd r) =
           tcg_ops (snd dr) ++
             [op_movi cpu_pc (pc_next (base (snd (fst dr))));
              op_movi_i32 (TEMP_I32 (nb_temps_i32 (snd dr))) RISCV_EXCP_ILLEGAL_INST;
              op_helper_raise_exception (TEMP_I32 (nb_temps_i32 (snd dr)))]
        /\ exists s',
             exec cfg (emitted_since (snd dr) (snd r)) s
             = Exited (EXIT_EXCEPTION RISCV_EXCP_ILLEGAL_INST) s'
             /\ tv s' cpu_pc = target_ulong cfg (pc_next (base (snd (fst dr))))
             /\ forall x, x <> cpu_pc -> tv s' x = tv s x)).
  { intros [[ok c] t]. cbv zeta. cbn [fst snd]. split; intros Hok; subst ok; cbn [negb].
    - reflexivity.
    - destruct (generate_exception_emits c RISCV_EXCP_ILLEGAL_INST t) as [Hc Ho].
      unfold gen_exception_illegal. rewrite Hc. split; [reflexivity |].
      split; [exact Ho |].
      rewrite (emitted_since_app _ _ _ Ho).
      destruct (exec_flush_raise cfg (pc_next (base c)) RISCV_EXCP_ILLEGAL_INST
                  (TEMP_I32 (nb_temps_i32 t)) [] s) as (s' & Hex & Hpc & Hfr & _).
      exists s'. repeat split; assumption. }
  destruct (Z.eqb_spec (extract32 (opcode ctx) 0 2) 3) as [E3 | N3]; cbn [negb].
  - unfold bind. apply K.
  - destruct Hcase as [C | HC]; [contradiction |].
    rewrite HC. cbn [negb]. unfold bind. apply K.
Qed.

(** A standard word that no pattern matches, at 0x1000. *)
Lemma decode_opc_match_or_illegal_witness :
  (extract32 (opcode (set_opcode (sample_ctx 4096 0) 3)) 0 2 = 3
   \/ riscv_has_ext (env (set_opcode (sample_ctx 4096 0) 3)) RVC = true)
  /\ is_jmp (base (fst (decode_opc rv64_softmmu decode_none decode_none
                          (set_opcode (sample_ctx 4096 0) 3) tcg_init)))
     = DISAS_NORETURN.
Proof.
  assert (H : extract32 (opcode (set_opcode (sample_ctx 4096 0) 3)) 0 2 = 3
    \/ riscv_has_ext (env (set_opcode (sample_ctx 4096 0) 3)) RVC = true)
    by (left; reflexivity).
  split; [exact H |].
  destruct (proj2 (decode_opc_match_or_illegal rv64_softmmu decode_none decode_none
                     (set_opcode (sample_ctx 4096 0) 3) tcg_init guest_zero H)
              eq_refl) as (Hc & _).
  rewrite Hc. reflexivity.
Defined.

(** ** A breakpoint at the current PC *)

(** X8.  In a round of the block driver entered at a PC where a
    breakpoint is registered, no instruction is fetched or decoded: the
    round counts one instruction, marks its start, writes the PC, raises
    [EXCP_DEBUG] and ends the block with [DISAS_NORETURN], whatever the
    decoders and the instruction budget are; [pc_next] is left 4 past the
    breakpoint address so that the block's range covers it. *)
Theorem translate_insns_at_breakpoint (cfg : Config)
  (decode_insn32 decode_insn16 : DisasContext -> Z -> Gen (bool * DisasContext))
  (more : nat) (cs : CPUState) (ctx : DisasContext) (tc : TCGContext)
  (s : GuestState) :
  In (pc_next (base ctx)) (breakpoints cs) ->
  let r := translate_insns cfg decode_insn32 decode_insn16 more cs ctx tc in
  fst r = set_pc_next
            (set_is_jmp (set_num_insns ctx (S (num_insns (base ctx)))) DISAS_NORETURN)
            (target_ulong cfg (pc_next (base ctx) + 4))
  /\ emitted_since tc (snd r) =
     [op_insn_start (pc_next (base ctx));
      op_movi cpu_pc (pc_next (base ctx));
      op_movi_i32 (TEMP_I32 (nb_temps_i32 tc)) EXCP_DEBUG;
      op_helper_raise_exception (TEMP_I32 (nb_temps_i32 tc))]
  /\ exists s',
       exec cfg (emitted_since tc (snd r)) s
       = Exited (EXIT_EXCEPTION EXCP_DEBUG) s'
       /\ tv s' cpu_pc = target_ulong cfg (pc_next (base ctx))
       /\ forall x, x <> cpu_pc -> tv s' x = tv s x.
Proof.
  intros Hbp. cbv zeta.
  assert (Hex : existsb (fun bp => bp =? pc_next (base ctx)) (breakpoints cs) = true).
  { apply existsb_exists. exists (pc_next (base ctx)). split; [exact Hbp |].
    apply Z.eqb_refl. }
  rewrite translate_insns_eq. cbv zeta. rewrite Hex.
  destruct (riscv_tr_breakpoint_check_emits cfg
              (set_num_insns ctx (S (num_insns (base ctx)))) cs
              (pc_next (base ctx))
              {| tcg_ops := tcg_ops tc ++ [op_insn_start (pc_next (base ctx))];
                 nb_temps := nb_temps tc; nb_temps_i32 := nb_temps_i32 tc |})
    as [Hc Ho].
  destruct (riscv_tr_breakpoint_check cfg
              (set_num_insns ctx (S (num_insns (base ctx)))) cs
              (pc_next (base ctx))
              {| tcg_ops := tcg_ops tc ++ [op_insn_start (pc_next (base ctx))];
                 nb_temps := nb_temps tc; nb_temps_i32 := nb_temps_i32 tc |})
    as [rb tcb].
  cbn [fst snd] in Hc, Ho. subst rb. cbn [fst snd].
  simpl (DisasJumpType_value DISAS_TOO_MANY <? _).
  change (1 <? 2) with true. cbv iota. cbn [fst snd].
  split; [reflexivity |].
  assert (Hops : tcg_ops tcb = tcg_ops tc ++
     [op_insn_start (pc_next (base ctx));
      op_movi cpu_pc (pc_next (base ctx));
      op_movi_i32 (TEMP_I32 (nb_temps_i32 tc)) EXCP_DEBUG;
      op_helper_raise_exception (TEMP_I32 (nb_temps_i32 tc))])
    by (rewrite Ho; cbn [tcg_ops nb_temps_i32]; rewrite <- app_assoc; reflexivity).
  rewrite (emitted_since_app _ _ _ Hops). split; [reflexivity |].
  destruct (exec_flush_raise cfg (pc_next (base ctx)) EXCP_DEBUG
              (TEMP_I32 (nb_temps_i32 tc)) [] s) as (s' & Hx & Hpc & Hfr & _).
  exists s'. repeat split; assumption.
Qed.

(** A block at 0x2000 with a breakpoint there. *)
Lemma translate_insns_at_breakpoint_witness :
  In (pc_next (base (sample_ctx 8192 4))) (breakpoints (sample_cpu 4 19 [8192]))
  /\ pc_next (base (fst (translate_insns rv64_softmmu decode_nop decode_nop 9
                           (sample_cpu 4 19 [8192]) (sample_ctx 8192 4) tcg_init)))
     = 8196.
Proof.
  assert (H : In (pc_next (base (sample_ctx 8192 4)))
                (breakpoints (sample_cpu 4 19 [8192]))) by (left; reflexivity).
  split; [exact H |].
  rewrite (proj1 (translate_insns_at_breakpoint rv64_softmmu decode_nop decode_nop 9
                    (sample_cpu 4 19 [8192]) (sample_ctx 8192 4) tcg_init guest_zero H)).
  reflexivity.
Defined.

(** ** The arithmetic wrappers *)

Lemma gen_get_gpr_run (cfg : Config) (t : TCGv) (reg_num : Z) (tc : TCGContext)
  (s : GuestState) :
  exists o,
    gen_get_gpr t reg_num tc =
      (tt, {| tcg_ops := tcg_ops tc ++ [o]; nb_temps := nb_temps tc;
              nb_temps_i32 := nb_temps_i32 tc |})
    /\ exec cfg [o] s = Next (set_tv s t (gpr_value s reg_num))
    /\ op_writes o = [t]
    /\ (reg_num <> 0 -> op_args o = [t; cpu_gpr reg_num])
    /\ (reg_num = 0 -> op_args o = [t]).
Proof.
  unfold gen_get_gpr, gpr_value.
  destruct (Z.eqb_spec reg_num 0) as [E | N].
  - exists (op_movi t 0). split; [reflexivity |].
    split; [| split; [reflexivity | split; [intros C; contradiction | reflexivity]]].
    simpl. destruct (const_all_ones cfg) as (_ & _ & _ & C0 & _).
    rewrite C0. reflexivity.
  - exists (op_mov t (cpu_gpr reg_num)). split; [reflexivity |].
    split; [reflexivity |].
    split; [reflexivity | split; [reflexivity | intros C; contradiction]].
Qed.

Lemma gpr_value_range (cfg : Config) (s : GuestState) (i : Z) :
  (forall j, 0 <= tv s (cpu_gpr j) < 2 ^ TARGET_LONG_BITS cfg) ->
  0 <= gpr_value s i < 2 ^ TARGET_LONG_BITS cfg.
Proof.
  intros H. unfold gpr_value. destruct (i =? 0); [| apply H].
  destruct (half_modulus cfg). lia.
Qed.

(** The common shape of [gen_arith], [gen_arith_imm] and [gen_shift]: two
    fresh temporaries are loaded (by [load], which writes only them and
    leaves [va] and [vb] in them), [func] runs on them with the first as
    destination, and the first is stored to register [rd]. *)
Lemma wrapper_run (cfg : Config) (func : TCGv -> TCGv -> TCGv -> Gen unit)
  (f : Z -> Z -> Z) (rd va vb : Z) (tc tcl : TCGContext) (load : list tcg_op)
  (s sl : GuestState) (bound : Z) :
  computes_on cfg bound func f ->
  tcg_ops tcl = tcg_ops tc ++ load ->
  (S (S (nb_temps tc)) <= nb_temps tcl)%nat ->
  exec cfg load s = Next sl ->
  tv sl (TEMP (nb_temps tc)) = va ->
  tv sl (TEMP (S (nb_temps tc))) = vb ->
  0 <= va < 2 ^ TARGET_LONG_BITS cfg ->
  0 <= vb < bound ->
  (forall x, is_global x = true -> tv sl x = tv s x) ->
  let r := (func (TEMP (nb_temps tc)) (TEMP (nb_temps tc)) (TEMP (S (nb_temps tc))) ;;
            gen_set_gpr rd (TEMP (nb_temps tc)) ;;
            tcg_temp_free (TEMP (nb_temps tc)) ;;
            tcg_temp_free (TEMP (S (nb_temps tc))) ;;
            ret true)%gen tcl in
  fst r = true
  /\ exists s',
       exec cfg (emitted_since tc (snd r)) s = Next s'
       /\ (rd <> 0 -> tv s' (cpu_gpr rd) = f va vb)
       /\ (forall x, is_global x = true -> rd = 0 \/ x <> cpu_gpr rd ->
                     tv s' x = tv s x).
Proof.
  intros Hf Hol Hnl Hexl Hva Hvb Rva Rvb Hgl. cbv zeta.
  destruct (Hf (TEMP (nb_temps tc)) (TEMP (nb_temps tc)) (TEMP (S (nb_temps tc)))
              tcl sl) as (new & sf & Ho & Hex & Hv & _ & Hfr).
  { simpl. lia. }
  { simpl. lia. }
  { intro E. injection E. lia. }
  { rewrite Hva. exact Rva. }
  { rewrite Hvb. exact Rvb. }
  unfold bind.
  destruct (func (TEMP (nb_temps tc)) (TEMP (nb_temps tc)) (TEMP (S (nb_temps tc))) tcl)
    as [u tcf].
  cbn [fst snd] in *.
  assert (Hglf : forall x, is_global x = true -> tv sf x = tv sl x).
  { intros x Hx. apply Hfr; destruct x; try discriminate; simpl; auto. }
  unfold gen_set_gpr, tcg_temp_free, ret.
  destruct (Z.eqb_spec rd 0) as [E0 | N0]; cbn [negb fst snd].
  - split; [reflexivity |].
    exists sf. split.
    + rewrite (emitted_since_app tc tcf (load ++ new))
        by (rewrite Ho, Hol, app_assoc; reflexivity).
      rewrite (exec_app _ _ _ _ _ Hexl). exact Hex.
    + split; [intros C; contradiction |].
      intros x Hx _. rewrite (Hglf x Hx). apply Hgl. exact Hx.
  - unfold tcg_gen_mov_tl, emit. cbn [fst snd tcg_ops].
    split; [reflexivity |].
    exists (set_tv sf (cpu_gpr rd) (tv sf (TEMP (nb_temps tc)))). split.
    + rewrite (emitted_since_app tc _
                 (load ++ new ++ [op_mov (cpu_gpr rd) (TEMP (nb_temps tc))]))
        by (cbn [tcg_ops]; rewrite Ho, Hol, !app_assoc; reflexivity).
      rewrite (exec_app _ _ _ _ _ Hexl), (exec_app _ _ _ _ _ Hex). reflexivity.
    + split.
      * intros _. rewrite tv_set_same, Hv, Hva, Hvb. reflexivity.
      * intros x Hx [C | Hne]; [contradiction |].
        rewrite tv_set_other by exact Hne.
        rewrite (Hglf x Hx). apply Hgl. exact Hx.
Qed.

Lemma gen_arith_eq (ctx : DisasContext) (a : arg_arith)
  (func : TCGv -> TCGv -> TCGv -> Gen unit) (tc : TCGContext) :
  gen_arith ctx a func tc =
  (func (TEMP (nb_temps tc)) (TEMP (nb_temps tc)) (TEMP (S (nb_temps tc))) ;;
   gen_set_gpr (arith_rd a) (TEMP (nb_temps tc)) ;;
   tcg_temp_free (TEMP (nb_temps tc)) ;;
   tcg_temp_free (TEMP (S (nb_temps tc))) ;;
   ret true)%gen
    (snd (gen_get_gpr (TEMP (S (nb_temps tc))) (arith_rs2 a)
            (snd (gen_get_gpr (TEMP (nb_temps tc)) (arith_rs1 a)
                    {| tcg_ops := tcg_ops tc; nb_temps := S (S (nb_temps tc));
                       nb_temps_i32 := nb_temps_i32 tc |})))).
Proof.
  unfold gen_arith. unfold bind at 1 2 3 4. cbn [tcg_temp_new fst snd nb_temps tcg_ops nb_temps_i32].
  destruct (gen_get_gpr (TEMP (nb_temps tc)) (arith_rs1 a) _) as [[] t1].
  cbn [snd].
  destruct (gen_get_gpr (TEMP (S (nb_temps tc))) (arith_rs2 a) t1) as [[] t2].
  reflexivity.
Qed.

Lemma wrapper_arith (cfg : Config) (ctx : DisasContext) (a : arg_arith)
  (func : TCGv -> TCGv -> TCGv -> Gen unit) (f : Z -> Z -> Z)
  (tc : TCGContext) (s : GuestState) :
  computes cfg func f ->
  (forall j, 0 <= tv s (cpu_gpr j) < 2 ^ TARGET_LONG_BITS cfg) ->
  let r := gen_arith ctx a func tc in
  fst r = true
  /\ exists s',
       exec cfg (emitted_since tc (snd r)) s = Next s'
       /\ (arith_rd a <> 0 ->
           tv s' (cpu_gpr (arith_rd a)) =
           f (gpr_value s (arith_rs1 a)) (gpr_value s (arith_rs2 a)))
       /\ (forall x, is_global x = true ->
                     arith_rd a = 0 \/ x <> cpu_gpr (arith_rd a) ->
                     tv s' x = tv s x).
Proof.
  intros Hf Hregs. cbv zeta.
  destruct (gen_get_gpr_run cfg (TEMP (nb_temps tc)) (arith_rs1 a)
              {| tcg_ops := tcg_ops tc; nb_temps := S (S (nb_temps tc));
                 nb_temps_i32 := nb_temps_i32 tc |} s)
    as (o1 & G1 & X1 & W1 & _).
  destruct (gen_get_gpr_run cfg (TEMP (S (nb_temps tc))) (arith_rs2 a)
              {| tcg_ops := tcg_ops tc ++ [o1]; nb_temps := S (S (nb_temps tc));
                 nb_temps_i32 := nb_temps_i32 tc |}
              (set_tv s (TEMP (nb_temps tc)) (gpr_value s (arith_rs1 a))))
    as (o2 & G2 & X2 & W2 & _).
  cbn [tcg_ops nb_temps nb_temps_i32] in G1, G2.
  assert (Hg2 : gpr_value (set_tv s (TEMP (nb_temps tc)) (gpr_value s (arith_rs1 a)))
                  (arith_rs2 a) = gpr_value s (arith_rs2 a)).
  { unfold gpr_value. destruct (arith_rs2 a =? 0); [reflexivity |].
    apply tv_set_other. discriminate. }
  rewrite Hg2 in X2.
  rewrite gen_arith_eq, G1. cbn [snd]. rewrite G2. cbn [snd].
  apply (wrapper_run cfg func f (arith_rd a)
           (gpr_value s (arith_rs1 a)) (gpr_value s (arith_rs2 a)) tc _ [o1; o2] s
           (set_tv (set_tv s (TEMP (nb_temps tc)) (gpr_value s (arith_rs1 a)))
              (TEMP (S (nb_temps tc))) (gpr_value s (arith_rs2 a))) _ Hf).
  - cbn [tcg_ops]. rewrite <- app_assoc. reflexivity.
  - cbn [nb_temps]. lia.
  - change [o1; o2] with ([o1] ++ [o2]). rewrite (exec_app _ _ _ _ _ X1). exact X2.
  - rewrite tv_set_other by (intro E; injection E; lia). apply tv_set_same.
  - apply tv_set_same.
  - now apply gpr_value_range.
  - now apply gpr_value_range.
  - intros x Hx. rewrite !tv_set_other by (destruct x; discriminate). reflexivity.
Qed.


(** X9.  [gen_arith] with a generator that computes [f] turns into
    operations that run to completion and, for [rd] other than 0, leave in
    register [rd] the value [f] of registers [rs1] and [rs2], register 0
    reading as 0 and one register being allowed in both places; no other
    register, nor the PC, changes.  For [rd] 0 the generator still runs but
    no register changes.  The call reports success. *)
Theorem gen_arith_computes (cfg : Config) (ctx : DisasContext) (a : arg_arith)
  (func : TCGv -> TCGv -> TCGv -> Gen unit) (f : Z -> Z -> Z)
  (tc : TCGContext) (s : GuestState) :
  computes cfg func f ->
  (forall j, 0 <= tv s (cpu_gpr j) < 2 ^ TARGET_LONG_BITS cfg) ->
  let r := gen_arith ctx a func tc in
  fst r = true
  /\ exists s',
       exec cfg (emitted_since tc (snd r)) s = Next s'
       /\ (arith_rd a <> 0 ->
           tv s' (cpu_gpr (arith_rd a)) =
           f (gpr_value s (arith_rs1 a)) (gpr_value s (arith_rs2 a)))
       /\ (forall x, is_global x = true ->
                     arith_rd a = 0 \/ x <> cpu_gpr (arith_rd a) ->
                     tv s' x = tv s x).
Proof. apply wrapper_arith. Qed.

Lemma gen_arith_imm_eq (ctx : DisasContext) (a : arg_arith_imm)
  (func : TCGv -> TCGv -> TCGv -> Gen unit) (tc : TCGContext) :
  gen_arith_imm ctx a func tc =
  (func (TEMP (nb_temps tc)) (TEMP (nb_temps tc)) (TEMP (S (nb_temps tc))) ;;
   gen_set_gpr (arith_imm_rd a) (TEMP (nb_temps tc)) ;;
   tcg_temp_free (TEMP (nb_temps tc)) ;;
   tcg_temp_free (TEMP (S (nb_temps tc))) ;;
   ret true)%gen
    (snd (tcg_gen_movi_tl (TEMP (S (nb_temps tc))) (arith_imm_imm a)
            (snd (gen_get_gpr (TEMP (nb_temps tc)) (arith_imm_rs1 a)
                    {| tcg_ops := tcg_ops tc; nb_temps := S (S (nb_temps tc));
                       nb_temps_i32 := nb_temps_i32 tc |})))).
Proof.
  unfold gen_arith_imm. unfold bind at 1 2 3 4.
  cbn [tcg_temp_new fst snd nb_temps tcg_ops nb_temps_i32].
  destruct (gen_get_gpr (TEMP (nb_temps tc)) (arith_imm_rs1 a) _) as [[] t1].
  reflexivity.
Qed.

(** X10.  [gen_arith_imm] with a generator that computes [f] turns into
    operations that run to completion and, for [rd] other than 0, leave in
    register [rd] the value [f] of register [rs1] (register 0 reading as 0)
    and of the immediate cast to the register width; no other register,
    nor the PC, changes, and for [rd] 0 no register changes. *)
Theorem gen_arith_imm_computes (cfg : Config) (ctx : DisasContext)
  (a : arg_arith_imm) (func : TCGv -> TCGv -> TCGv -> Gen unit)
  (f : Z -> Z -> Z) (tc : TCGContext) (s : GuestState) :
  computes cfg func f ->
  (forall j, 0 <= tv s (cpu_gpr j) < 2 ^ TARGET_LONG_BITS cfg) ->
  let r := gen_arith_imm ctx a func tc in
  fst r = true
  /\ exists s',
       exec cfg (emitted_since tc (snd r)) s = Next s'
       /\ (arith_imm_rd a <> 0 ->
           tv s' (cpu_gpr (arith_imm_rd a)) =
           f (gpr_value s (arith_imm_rs1 a)) (target_ulong cfg (arith_imm_imm a)))
       /\ (forall x, is_global x = true ->
                     arith_imm_rd a = 0 \/ x <> cpu_gpr (arith_imm_rd a) ->
                     tv s' x = tv s x).
Proof.
  intros Hf Hregs. cbv zeta.
  destruct (gen_get_gpr_run cfg (TEMP (nb_temps tc)) (arith_imm_rs1 a)
              {| tcg_ops := tcg_ops tc; nb_temps := S (S (nb_temps tc));
                 nb_temps_i32 := nb_temps_i32 tc |} s)
    as (o1 & G1 & X1 & W1 & _).
  cbn [tcg_ops nb_temps nb_temps_i32] in G1.
  rewrite gen_arith_imm_eq, G1. cbn [snd tcg_gen_movi_tl emit tcg_ops nb_temps nb_temps_i32].
  apply (wrapper_run cfg func f (arith_imm_rd a)
           (gpr_value s (arith_imm_rs1 a)) (target_ulong cfg (arith_imm_imm a)) tc _
           [o1; op_movi (TEMP (S (nb_temps tc))) (arith_imm_imm a)] s
           (set_tv (set_tv s (TEMP (nb_temps tc)) (gpr_value s (arith_imm_rs1 a)))
              (TEMP (S (nb_temps tc))) (target_ulong cfg (arith_imm_imm a))) _ Hf).
  - cbn [tcg_ops]. rewrite <- app_assoc. reflexivity.
  - cbn [nb_temps]. lia.
  - change [o1; op_movi (TEMP (S (nb_temps tc))) (arith_imm_imm a)]
      with ([o1] ++ [op_movi (TEMP (S (nb_temps tc))) (arith_imm_imm a)]).
    rewrite (exec_app _ _ _ _ _ X1). reflexivity.
  - rewrite tv_set_other by (intro E; injection E; lia). apply tv_set_same.
  - apply tv_set_same.
  - now apply gpr_value_range.
  - apply target_ulong_range.
  - intros x Hx. rewrite !tv_set_other by (destruct x; discriminate). reflexivity.
Qed.

Lemma gen_shift_eq (cfg : Config) (ctx : DisasContext) (a : arg_arith)
  (func : TCGv -> TCGv -> TCGv -> Gen unit) (tc : TCGContext) :
  gen_shift cfg ctx a func tc =
  (func (TEMP (nb_temps tc)) (TEMP (nb_temps tc)) (TEMP (S (nb_temps tc))) ;;
   gen_set_gpr (arith_rd a) (TEMP (nb_temps tc)) ;;
   tcg_temp_free (TEMP (nb_temps tc)) ;;
   tcg_temp_free (TEMP (S (nb_temps tc))) ;;
   ret true)%gen
    (snd (tcg_gen_andi_tl (TEMP (S (nb_temps tc))) (TEMP (S (nb_temps tc)))
            (TARGET_LONG_BITS cfg - 1)
            (snd (gen_get_gpr (TEMP (S (nb_temps tc))) (arith_rs2 a)
                    (snd (gen_get_gpr (TEMP (nb_temps tc)) (arith_rs1 a)
                            {| tcg_ops := tcg_ops tc; nb_temps := S (S (nb_temps tc));
                               nb_temps_i32 := nb_temps_i32 tc |})))))).
Proof.
  unfold gen_shift. unfold bind at 1 2 3 4 5.
  cbn [tcg_temp_new fst snd nb_temps tcg_ops nb_temps_i32].
  destruct (gen_get_gpr (TEMP (nb_temps tc)) (arith_rs1 a) _) as [[] t1].
  cbn [snd].
  destruct (gen_get_gpr (TEMP (S (nb_temps tc))) (arith_rs2 a) t1) as [[] t2].
  cbn [snd].
  destruct (tcg_gen_andi_tl _ _ _ t2) as [[] t3].
  reflexivity.
Qed.

Lemma shift_mask (cfg : Config) (v : Z) :
  0 <= v ->
  Z.land v (target_ulong cfg (TARGET_LONG_BITS cfg - 1)) = v mod TARGET_LONG_BITS cfg
  /\ 0 <= v mod TARGET_LONG_BITS cfg < TARGET_LONG_BITS cfg.
Proof.
  intros Hv. unfold target_ulong.
  destruct (TARGET_LONG_BITS_cases cfg) as [-> | ->].
  - change ((32 - 1) mod 2 ^ 32) with (Z.ones 5). rewrite Z.land_ones by lia.
    change (2 ^ 5) with 32. split; [reflexivity |]. apply Z.mod_pos_bound. lia.
  - change ((64 - 1) mod 2 ^ 64) with (Z.ones 6). rewrite Z.land_ones by lia.
    change (2 ^ 6) with 64. split; [reflexivity |]. apply Z.mod_pos_bound. lia.
Qed.

(** X11.  [gen_shift] hands the generator a shift amount reduced modulo
    the register width: with a generator that computes [f] for second
    operands below [TARGET_LONG_BITS], the emitted operations run to
    completion and, for [rd] other than 0, leave in register [rd] the value
    [f] of register [rs1] and of register [rs2] modulo [TARGET_LONG_BITS];
    no other register, nor the PC, changes, and for [rd] 0 no register
    changes. *)
Theorem gen_shift_masks_amount (cfg : Config) (ctx : DisasContext) (a : arg_arith)
  (func : TCGv -> TCGv -> TCGv -> Gen unit) (f : Z -> Z -> Z)
  (tc : TCGContext) (s : GuestState) :
  computes_on cfg (TARGET_LONG_BITS cfg) func f ->
  (forall j, 0 <= tv s (cpu_gpr j) < 2 ^ TARGET_LONG_BITS cfg) ->
  let r := gen_shift cfg ctx a func tc in
  fst r = true
  /\ exists s',
       exec cfg (emitted_since tc (snd r)) s = Next s'
       /\ (arith_rd a <> 0 ->
           tv s' (cpu_gpr (arith_rd a)) =
           f (gpr_value s (arith_rs1 a))
             (gpr_value s (arith_rs2 a) mod TARGET_LONG_BITS cfg))
       /\ (forall x, is_global x = true ->
                     arith_rd a = 0 \/ x <> cpu_gpr (arith_rd a) ->
                     tv s' x = tv s x).
Proof.
  intros Hf Hregs. cbv zeta.
  destruct (gen_get_gpr_run cfg (TEMP (nb_temps tc)) (arith_rs1 a)
              {| tcg_ops := tcg_ops tc; nb_temps := S (S (nb_temps tc));
                 nb_temps_i32 := nb_temps_i32 tc |} s)
    as (o1 & G1 & X1 & W1 & _).
  destruct (gen_get_gpr_run cfg (TEMP (S (nb_temps tc))) (arith_rs2 a)
              {| tcg_ops := tcg_ops tc ++ [o1]; nb_temps := S (S (nb_temps tc));
                 nb_temps_i32 := nb_temps_i32 tc |}
              (set_tv s (TEMP (nb_temps tc)) (gpr_value s (arith_rs1 a))))
    as (o2 & G2 & X2 & W2 & _).
  cbn [tcg_ops nb_temps nb_temps_i32] in G1, G2.
  assert (Hg2 : gpr_value (set_tv s (TEMP (nb_temps tc)) (gpr_value s (arith_rs1 a)))
                  (arith_rs2 a) = gpr_value s (arith_rs2 a)).
  { unfold gpr_value. destruct (arith_rs2 a =? 0); [reflexivity |].
    apply tv_set_other. discriminate. }
  rewrite Hg2 in X2.
  pose proof (gpr_value_range cfg s (arith_rs1 a) Hregs) as R1.
  pose proof (gpr_value_range cfg s (arith_rs2 a) Hregs) as R2.
  destruct (shift_mask cfg (gpr_value s (arith_rs2 a)) (proj1 R2)) as [Hm Hmr].
  rewrite gen_shift_eq, G1. cbn [snd]. rewrite G2.
  unfold tcg_gen_andi_tl, tcg_const_tl, tcg_gen_and_tl, tcg_temp_free, bind, ret.
  cbn [snd fst tcg_temp_new emit tcg_ops nb_temps nb_temps_i32].
  set (s2 := set_tv (set_tv s (TEMP (nb_temps tc)) (gpr_value s (arith_rs1 a)))
               (TEMP (S (nb_temps tc))) (gpr_value s (arith_rs2 a))).
  apply (wrapper_run cfg func f (arith_rd a)
           (gpr_value s (arith_rs1 a))
           (gpr_value s (arith_rs2 a) mod TARGET_LONG_BITS cfg) tc _
           [o1; o2;
            op_movi (TEMP (S (S (nb_temps tc)))) (TARGET_LONG_BITS cfg - 1);
            op_and (TEMP (S (nb_temps tc))) (TEMP (S (nb_temps tc)))
              (TEMP (S (S (nb_temps tc))))] s
           (set_tv
              (set_tv s2 (TEMP (S (S (nb_temps tc))))
                 (target_ulong cfg (TARGET_LONG_BITS cfg - 1)))
              (TEMP (S (nb_temps tc)))
              (gpr_value s (arith_rs2 a) mod TARGET_LONG_BITS cfg)) _ Hf).
  - cbn [tcg_ops]. repeat rewrite <- app_assoc. reflexivity.
  - cbn [nb_temps]. lia.
  - change [o1; o2;
            op_movi (TEMP (S (S (nb_temps tc)))) (TARGET_LONG_BITS cfg - 1);
            op_and (TEMP (S (nb_temps tc))) (TEMP (S (nb_temps tc)))
              (TEMP (S (S (nb_temps tc))))]
      with ([o1] ++ [o2] ++
            [op_movi (TEMP (S (S (nb_temps tc)))) (TARGET_LONG_BITS cfg - 1);
             op_and (TEMP (S (nb_temps tc))) (TEMP (S (nb_temps tc)))
               (TEMP (S (S (nb_temps tc))))]).
    rewrite (exec_app _ _ _ _ _ X1), (exec_app _ _ _ _ _ X2). fold s2.
    transitivity
      (Next (set_tv
               (set_tv s2 (TEMP (S (S (nb_temps tc))))
                  (target_ulong cfg (TARGET_LONG_BITS cfg - 1)))
               (TEMP (S (nb_temps tc)))
               (Z.land
                  (tv (set_tv s2 (TEMP (S (S (nb_temps tc))))
                         (target_ulong cfg (TARGET_LONG_BITS cfg - 1)))
                      (TEMP (S (nb_temps tc))))
                  (tv (set_tv s2 (TEMP (S (S (nb_temps tc))))
                         (target_ulong cfg (TARGET_LONG_BITS cfg - 1)))
                      (TEMP (S (S (nb_temps tc)))))))); [reflexivity |].
    rewrite tv_set_same.
    rewrite (tv_set_other _ _ (TEMP (S (nb_temps tc)))) by (intro E; injection E; lia).
    unfold s2 at 2. rewrite tv_set_same, Hm. reflexivity.
  - rewrite !tv_set_other by (intro E; injection E; lia).
    unfold s2. rewrite tv_set_other by (intro E; injection E; lia). apply tv_set_same.
  - apply tv_set_same.
  - exact R1.
  - exact Hmr.
  - intros x Hx. unfold s2.
    rewrite !tv_set_other by (destruct x; discriminate). reflexivity.
Qed.

(** ** The generators as register-to-register operations *)

Lemma land_range (cfg : Config) (a b : Z) :
  0 <= a < 2 ^ TARGET_LONG_BITS cfg ->
  0 <= Z.land a b < 2 ^ TARGET_LONG_BITS cfg.
Proof.
  intros Ha.
  assert (N0 : 0 <= TARGET_LONG_BITS cfg)
    by (destruct (TARGET_LONG_BITS_cases cfg) as [-> | ->]; discriminate).
  replace (Z.land a b) with (Z.land a b mod 2 ^ TARGET_LONG_BITS cfg).
  - apply Z.mod_pos_bound. destruct (half_modulus cfg). lia.
  - rewrite <- Z.land_ones by exact N0.
    rewrite (Z.land_comm a b), <- Z.land_assoc, (Z.land_ones a) by exact N0.
    now rewrite Z.mod_small.
Qed.

Lemma lor_range (cfg : Config) (a b : Z) :
  0 <= a < 2 ^ TARGET_LONG_BITS cfg ->
  0 <= b < 2 ^ TARGET_LONG_BITS cfg ->
  0 <= Z.lor a b < 2 ^ TARGET_LONG_BITS cfg.
Proof.
  intros Ha Hb.
  assert (N0 : 0 <= TARGET_LONG_BITS cfg)
    by (destruct (TARGET_LONG_BITS_cases cfg) as [-> | ->]; discriminate).
  replace (Z.lor a b) with (Z.lor a b mod 2 ^ TARGET_LONG_BITS cfg).
  - apply Z.mod_pos_bound. destruct (half_modulus cfg). lia.
  - rewrite <- Z.land_ones by exact N0.
    rewrite Z.land_lor_distr_l, !Z.land_ones by exact N0.
    now rewrite !Z.mod_small.
Qed.

(** The frame of a run: a value that no operation of the run writes. *)
Ltac not_written :=
  let o := fresh "o" in let Ho := fresh "Ho" in let E := fresh "E" in
  intros o Ho; simpl in Ho;
  repeat (destruct Ho as [<- | Ho]; [simpl; intros E;
            repeat (destruct E as [E | E]; [subst; congruence |]); exact E |]);
  contradiction.

Lemma computes_on_weaken (cfg : Config) (bound : Z)
  (func : TCGv -> TCGv -> TCGv -> Gen unit) (f : Z -> Z -> Z) :
  bound <= 2 ^ TARGET_LONG_BITS cfg ->
  computes cfg func f -> computes_on cfg bound func f.
Proof.
  intros Hb Hc r a b tc s A1 A2 D Ha Hvb. apply Hc; try assumption. lia.
Qed.

Lemma tcg_gen_sub_tl_computes (cfg : Config) :
  computes cfg tcg_gen_sub_tl (fun a b => target_ulong cfg (a - b)).
Proof.
  intros r a b tc s A1 A2 D Ha Hb.
  exists [op_sub r a b]. eexists.
  split; [reflexivity |]. split; [reflexivity |].
  split; [apply tv_set_same |].
  split; [rewrite tv_set_same; apply target_ulong_range |].
  intros x _ Hr _ _. now apply tv_set_other.
Qed.

Lemma tcg_gen_and_tl_computes (cfg : Config) : computes cfg tcg_gen_and_tl Z.land.
Proof.
  intros r a b tc s A1 A2 D Ha Hb.
  exists [op_and r a b]. eexists.
  split; [reflexivity |]. split; [reflexivity |].
  split; [apply tv_set_same |].
  split; [rewrite tv_set_same; now apply land_range |].
  intros x _ Hr _ _. now apply tv_set_other.
Qed.

Lemma tcg_gen_or_tl_computes (cfg : Config) : computes cfg tcg_gen_or_tl Z.lor.
Proof.
  intros r a b tc s A1 A2 D Ha Hb.
  exists [op_or r a b]. eexists.
  split; [reflexivity |]. split; [reflexivity |].
  split; [apply tv_set_same |].
  split; [rewrite tv_set_same; now apply lor_range |].
  intros x _ Hr _ _. now apply tv_set_other.
Qed.

Lemma gen_div_computes (cfg : Config) : computes cfg (gen_div cfg) (riscv_div cfg).
Proof.
  intros r a b tc s A1 A2 D Ha Hb.
  destruct (half_modulus cfg) as [E P].
  pose proof (target_long_all_ones cfg _ Hb) as Hm1.
  pose proof (min_signed_eq cfg) as Hmin.
  pose proof (target_long_one cfg) as L1.
  destruct (gen_div_sanitised cfg a b tc s A1 A2 D Ha Hb) as (s1 & Hex & H1 & H2).
  pose proof (gen_div_ops cfg r a b tc) as Hops. cbv zeta in Hops.
  assert (Hdef : ((tv s1 b =? 0)
                  || ((tv s1 a =? min_signed cfg) && (target_long cfg (tv s1 b) =? -1)))
                 = false).
  { rewrite H1, H2, Hmin.
    destruct (Z.eqb_spec (tv s b) 0); simpl.
    - rewrite L1. apply andb_false_r.
    - destruct (Z.eqb_spec (tv s a) (2 ^ (TARGET_LONG_BITS cfg - 1))),
        (Z.eqb_spec (tv s b) (2 ^ TARGET_LONG_BITS cfg - 1)); simpl;
        rewrite ?L1, ?Hm1;
        repeat match goal with
               | |- context [?u =? ?v] => destruct (Z.eqb_spec u v); try lia
               end; reflexivity. }
  eexists.
  exists (set_tv s1 r
            (target_ulong cfg
               (Z.quot (target_long cfg (tv s1 a)) (target_long cfg (tv s1 b))))).
  split; [exact Hops |].
  assert (Hrun : exec cfg
    ([op_movi (TEMP (S (S (nb_temps tc)))) 0;
      op_movi (TEMP (S (S (S (nb_temps tc))))) (target_ulong cfg (-1));
      op_setcondi TCG_COND_EQ (TEMP (S (nb_temps tc))) b (target_ulong cfg (Z.lnot 0));
      op_setcondi TCG_COND_EQ (TEMP (nb_temps tc)) a
        (Z.shiftl (target_ulong cfg 1) (TARGET_LONG_BITS cfg - 1));
      op_and (TEMP (nb_temps tc)) (TEMP (nb_temps tc)) (TEMP (S (nb_temps tc)));
      op_setcondi TCG_COND_EQ (TEMP (S (nb_temps tc))) b 0;
      op_movcond TCG_COND_EQ a (TEMP (S (nb_temps tc)))
        (TEMP (S (S (nb_temps tc)))) a (TEMP (S (S (S (nb_temps tc)))));
      op_or (TEMP (nb_temps tc)) (TEMP (nb_temps tc)) (TEMP (S (nb_temps tc)));
      op_movi (TEMP (S (S (S (nb_temps tc))))) (target_ulong cfg 1);
      op_movcond TCG_COND_EQ b (TEMP (nb_temps tc))
        (TEMP (S (S (nb_temps tc)))) b (TEMP (S (S (S (nb_temps tc)))))]
       ++ [op_div r a b]) s =
    Next (set_tv s1 r
            (target_ulong cfg
               (Z.quot (target_long cfg (tv s1 a)) (target_long cfg (tv s1 b)))))).
  { rewrite (exec_app _ _ _ _ _ Hex). simpl. rewrite Hdef. reflexivity. }
  split; [exact Hrun |].
  split.
  { rewrite tv_set_same, H1, H2. unfold riscv_div. rewrite Hmin, Hm1.
    destruct (Z.eqb_spec (tv s b) 0); simpl.
    - rewrite L1, target_long_minus_one. simpl.
      destruct (const_all_ones cfg) as (C1 & _). exact C1.
    - destruct (Z.eqb_spec (tv s a) (2 ^ (TARGET_LONG_BITS cfg - 1))),
        (Z.eqb_spec (tv s b) (2 ^ TARGET_LONG_BITS cfg - 1)); simpl; try reflexivity.
      rewrite L1, Z.quot_1_r, target_ulong_of_long. now apply target_ulong_small. }
  split; [rewrite tv_set_same; apply target_ulong_range |].
  intros x Ax Hr Hxa Hxb.
  fresh_temps tc Ax.
  apply (exec_frame cfg _ x) with (s := s) (2 := or_introl Hrun).
  not_written.
Qed.

Lemma gen_divu_computes (cfg : Config) : computes cfg (gen_divu cfg) (riscv_divu cfg).
Proof.
  intros r a b tc s A1 A2 D Ha Hb.
  destruct (half_modulus cfg) as [E P].
  destruct (gen_divu_sanitised cfg a b tc s A1 A2 D) as (s1 & Hex & H1 & H2).
  pose proof (gen_divu_ops cfg r a b tc) as Hops. cbv zeta in Hops.
  assert (Hdef : (tv s1 b =? 0) = false).
  { rewrite H2. destruct (Z.eqb_spec (tv s b) 0); [reflexivity |].
    now apply Z.eqb_neq. }
  eexists. exists (set_tv s1 r (tv s1 a / tv s1 b)).
  split; [exact Hops |].
  assert (Hrun : exec cfg
    ([op_movi (TEMP (S (nb_temps tc))) 0;
      op_setcondi TCG_COND_EQ (TEMP (nb_temps tc)) b 0;
      op_movi (TEMP (S (S (nb_temps tc)))) (target_ulong cfg (-1));
      op_movcond TCG_COND_EQ a (TEMP (nb_temps tc))
        (TEMP (S (nb_temps tc))) a (TEMP (S (S (nb_temps tc))));
      op_movi (TEMP (S (S (nb_temps tc)))) (target_ulong cfg 1);
      op_movcond TCG_COND_EQ b (TEMP (nb_temps tc))
        (TEMP (S (nb_temps tc))) b (TEMP (S (S (nb_temps tc))))]
       ++ [op_divu r a b]) s =
    Next (set_tv s1 r (tv s1 a / tv s1 b))).
  { rewrite (exec_app _ _ _ _ _ Hex). simpl. rewrite Hdef. reflexivity. }
  split; [exact Hrun |].
  assert (Hv : tv s1 a / tv s1 b = riscv_divu cfg (tv s a) (tv s b)).
  { rewrite H1, H2. unfold riscv_divu.
    destruct (Z.eqb_spec (tv s b) 0); [apply Z.div_1_r | reflexivity]. }
  split; [rewrite tv_set_same; exact Hv |].
  split.
  { rewrite tv_set_same, Hv. unfold riscv_divu.
    destruct (Z.eqb_spec (tv s b) 0); [lia |].
    split; [apply Z.div_pos; lia |].
    apply Z.le_lt_trans with (tv s a); [| lia].
    apply Z.div_le_upper_bound; nia. }
  intros x Ax Hr Hxa Hxb.
  fresh_temps tc Ax.
  apply (exec_frame cfg _ x) with (s := s) (2 := or_introl Hrun).
  not_written.
Qed.

Lemma gen_rem_computes (cfg : Config) : computes cfg (gen_rem cfg) (riscv_rem cfg).
Proof.
  intros r a b tc s A1 A2 D Ha Hb.
  destruct (half_modulus cfg) as [E P].
  pose proof (target_long_all_ones cfg _ Hb) as Hm1.
  pose proof (min_signed_eq cfg) as Hmin.
  pose proof (target_long_one cfg) as L1.
  destruct (gen_rem_computed cfg a b tc s A1 A2 D Ha Hb)
    as (sm & Hex & Hc & Hz & H1 & Hr).
  pose proof (gen_rem_ops cfg r a b tc) as Hops. cbv zeta in Hops.
  eexists.
  exists (set_tv sm r
            (if tv sm (TEMP (nb_temps tc)) =? tv sm (TEMP (S (S (nb_temps tc))))
             then tv sm (TEMP (S (S (S (nb_temps tc))))) else tv sm a)).
  split; [exact Hops |].
  assert (Hrun : exec cfg
    (([op_movi (TEMP (S (S (nb_temps tc)))) 0;
       op_movi (TEMP (S (S (S (nb_temps tc))))) 1;
       op_setcondi TCG_COND_EQ (TEMP (S (nb_temps tc))) b (target_ulong cfg (-1));
       op_setcondi TCG_COND_EQ (TEMP (nb_temps tc)) a
         (Z.shiftl (target_ulong cfg 1) (TARGET_LONG_BITS cfg - 1));
       op_and (TEMP (S (nb_temps tc))) (TEMP (nb_temps tc)) (TEMP (S (nb_temps tc)));
       op_setcondi TCG_COND_EQ (TEMP (nb_temps tc)) b 0;
       op_or (TEMP (S (nb_temps tc))) (TEMP (nb_temps tc)) (TEMP (S (nb_temps tc)));
       op_movcond TCG_COND_EQ b (TEMP (S (nb_temps tc)))
         (TEMP (S (S (nb_temps tc)))) b (TEMP (S (S (S (nb_temps tc)))))]
      ++ [op_rem (TEMP (S (S (S (nb_temps tc))))) a b])
     ++ [op_movcond TCG_COND_EQ r (TEMP (nb_temps tc)) (TEMP (S (S (nb_temps tc))))
           (TEMP (S (S (S (nb_temps tc))))) a]) s =
    Next (set_tv sm r
            (if tv sm (TEMP (nb_temps tc)) =? tv sm (TEMP (S (S (nb_temps tc))))
             then tv sm (TEMP (S (S (S (nb_temps tc))))) else tv sm a))).
  { rewrite (exec_app _ _ _ _ _ Hex). reflexivity. }
  split; [exact Hrun |].
  assert (Hv : (if tv sm (TEMP (nb_temps tc)) =? tv sm (TEMP (S (S (nb_temps tc))))
                then tv sm (TEMP (S (S (S (nb_temps tc))))) else tv sm a)
               = riscv_rem cfg (tv s a) (tv s b)).
  { rewrite Hc, Hz, H1, Hr. unfold riscv_rem. rewrite Hmin, Hm1.
    destruct (Z.eqb_spec (tv s b) 0); simpl; [reflexivity |].
    destruct (Z.eqb_spec (tv s a) (2 ^ (TARGET_LONG_BITS cfg - 1))),
      (Z.eqb_spec (tv s b) (2 ^ TARGET_LONG_BITS cfg - 1)); simpl; try reflexivity.
    rewrite L1, Z.rem_1_r. apply target_ulong_small. lia. }
  split; [rewrite tv_set_same; exact Hv |].
  split.
  { rewrite tv_set_same, Hv. unfold riscv_rem.
    destruct (tv s b =? 0); [exact Ha |].
    destruct ((tv s a =? min_signed cfg) && (target_long cfg (tv s b) =? -1));
      [lia | apply target_ulong_range]. }
  intros x Ax Hxr Hxa Hxb.
  fresh_temps tc Ax.
  apply (exec_frame cfg _ x) with (s := s) (2 := or_introl Hrun).
  not_written.
Qed.

Lemma gen_remu_computes (cfg : Config) : computes cfg (gen_remu cfg) (riscv_remu cfg).
Proof.
  intros r a b tc s A1 A2 D Ha Hb.
  destruct (half_modulus cfg) as [E P].
  destruct (gen_remu_computed cfg a b tc s A1 A2 D)
    as (sm & Hex & Hc & Hz & H1 & Hr).
  pose proof (gen_remu_ops cfg r a b tc) as Hops. cbv zeta in Hops.
  eexists.
  exists (set_tv sm r
            (if tv sm (TEMP (nb_temps tc)) =? tv sm (TEMP (S (nb_temps tc)))
             then tv sm (TEMP (S (S (nb_temps tc)))) else tv sm a)).
  split; [exact Hops |].
  assert (Hrun : exec cfg
    (([op_movi (TEMP (S (nb_temps tc))) 0;
       op_movi (TEMP (S (S (nb_temps tc)))) (target_ulong cfg 1);
       op_setcondi TCG_COND_EQ (TEMP (nb_temps tc)) b 0;
       op_movcond TCG_COND_EQ b (TEMP (nb_temps tc))
         (TEMP (S (nb_temps tc))) b (TEMP (S (S (nb_temps tc))))]
      ++ [op_remu (TEMP (S (S (nb_temps tc)))) a b])
     ++ [op_movcond TCG_COND_EQ r (TEMP (nb_temps tc)) (TEMP (S (nb_temps tc)))
           (TEMP (S (S (nb_temps tc)))) a]) s =
    Next (set_tv sm r
            (if tv sm (TEMP (nb_temps tc)) =? tv sm (TEMP (S (nb_temps tc)))
             then tv sm (TEMP (S (S (nb_temps tc)))) else tv sm a))).
  { rewrite (exec_app _ _ _ _ _ Hex). reflexivity. }
  split; [exact Hrun |].
  assert (Hv : (if tv sm (TEMP (nb_temps tc)) =? tv sm (TEMP (S (nb_temps tc)))
                then tv sm (TEMP (S (S (nb_temps tc)))) else tv sm a)
               = riscv_remu cfg (tv s a) (tv s b)).
  { rewrite Hc, Hz, H1, Hr. unfold riscv_remu.
    destruct (Z.eqb_spec (tv s b) 0); simpl; reflexivity. }
  split; [rewrite tv_set_same; exact Hv |].
  split.
  { rewrite tv_set_same, Hv. unfold riscv_remu.
    destruct (Z.eqb_spec (tv s b) 0); [exact Ha |].
    pose proof (Z.mod_pos_bound (tv s a) (tv s b) ltac:(lia)). lia. }
  intros x Ax Hxr Hxa Hxb.
  fresh_temps tc Ax.
  apply (exec_frame cfg _ x) with (s := s) (2 := or_introl Hrun).
  not_written.
Qed.

Lemma gen_mulhsu_computes (cfg : Config) :
  computes cfg (gen_mulhsu cfg) (riscv_mulhsu cfg).
Proof.
  intros r a b tc s A1 A2 D Ha Hb.
  fresh_temps tc A1. fresh_temps tc A2.
  assert (Dt : TEMP (S (nb_temps tc)) <> TEMP (nb_temps tc))
    by (intro E; injection E; lia).
  assert (X : exists s',
    exec cfg
      [op_mulu2 (TEMP (nb_temps tc)) (TEMP (S (nb_temps tc))) a b;
       op_sari (TEMP (nb_temps tc)) a (TARGET_LONG_BITS cfg - 1);
       op_and (TEMP (nb_temps tc)) (TEMP (nb_temps tc)) b;
       op_sub r (TEMP (S (nb_temps tc))) (TEMP (nb_temps tc))] s = Next s'
    /\ tv s' r = riscv_mulhsu cfg (tv s a) (tv s b)).
  { eexists. split; [reflexivity |].
    tv_norm. rewrite sign_mask by assumption.
    now apply mulhsu_arith. }
  destruct X as (s' & Hrun & Hv).
  eexists. exists s'.
  split; [apply gen_mulhsu_ops |]. split; [exact Hrun |].
  split; [exact Hv |].
  split; [rewrite Hv; apply target_ulong_range |].
  intros x Ax Hxr Hxa Hxb.
  fresh_temps tc Ax.
  apply (exec_frame cfg _ x) with (s := s) (2 := or_introl Hrun).
  not_written.
Qed.

(** SUB with one register in all three places. *)
Lemma gen_arith_computes_witness :
  (computes rv64_softmmu tcg_gen_sub_tl (fun a b => target_ulong rv64_softmmu (a - b))
   /\ forall j, 0 <= tv (guest_regs (fun _ => 45)) (cpu_gpr j)
                < 2 ^ TARGET_LONG_BITS rv64_softmmu)
  /\ exists s',
       exec rv64_softmmu
         (emitted_since tcg_init
            (snd (gen_arith (sample_ctx 0 0)
                    {| arith_rd := 5; arith_rs1 := 5; arith_rs2 := 5 |}
                    tcg_gen_sub_tl tcg_init)))
         (guest_regs (fun _ => 45)) = Next s'
       /\ tv s' (cpu_gpr 5) = 0.
Proof.
  assert (H : computes rv64_softmmu tcg_gen_sub_tl
                (fun a b => target_ulong rv64_softmmu (a - b))
   /\ forall j, 0 <= tv (guest_regs (fun _ => 45)) (cpu_gpr j)
                < 2 ^ TARGET_LONG_BITS rv64_softmmu).
  { split; [apply tcg_gen_sub_tl_computes |]. intros j. simpl. lia. }
  split; [exact H |]. destruct H as [Hc Hr].
  destruct (gen_arith_computes rv64_softmmu (sample_ctx 0 0)
              {| arith_rd := 5; arith_rs1 := 5; arith_rs2 := 5 |}
              tcg_gen_sub_tl _ tcg_init (guest_regs (fun _ => 45)) Hc Hr)
    as (_ & s' & Hex & Hv & _).
  exists s'. split; [exact Hex |]. etransitivity; [apply Hv; discriminate | reflexivity].
Defined.

(** ANDI of register 6 with -16 (the mask that clears the low 4 bits). *)
Lemma gen_arith_imm_computes_witness :
  (computes rv32_softmmu tcg_gen_and_tl Z.land
   /\ forall j, 0 <= tv (guest_regs (fun _ => 45)) (cpu_gpr j)
                < 2 ^ TARGET_LONG_BITS rv32_softmmu)
  /\ exists s',
       exec rv32_softmmu
         (emitted_since tcg_init
            (snd (gen_arith_imm (sample_ctx 0 0)
                    {| arith_imm_rd := 7; arith_imm_rs1 := 6; arith_imm_imm := -16 |}
                    tcg_gen_and_tl tcg_init)))
         (guest_regs (fun _ => 45)) = Next s'
       /\ tv s' (cpu_gpr 7) = 32.
Proof.
  assert (H : computes rv32_softmmu tcg_gen_and_tl Z.land
   /\ forall j, 0 <= tv (guest_regs (fun _ => 45)) (cpu_gpr j)
                < 2 ^ TARGET_LONG_BITS rv32_softmmu).
  { split; [apply tcg_gen_and_tl_computes |]. intros j. simpl. lia. }
  split; [exact H |]. destruct H as [Hc Hr].
  destruct (gen_arith_imm_computes rv32_softmmu (sample_ctx 0 0)
              {| arith_imm_rd := 7; arith_imm_rs1 := 6; arith_imm_imm := -16 |}
              tcg_gen_and_tl _ tcg_init (guest_regs (fun _ => 45)) Hc Hr)
    as (_ & s' & Hex & Hv & _).
  exists s'. split; [exact Hex |]. etransitivity; [apply Hv; discriminate | reflexivity].
Defined.

(** A shift amount of 45 on a 32-bit target reaches the generator as 13. *)
Lemma gen_shift_masks_amount_witness :
  (computes_on rv32_softmmu (TARGET_LONG_BITS rv32_softmmu) tcg_gen_sub_tl
     (fun a b => target_ulong rv32_softmmu (a - b))
   /\ forall j, 0 <= tv (guest_regs (fun _ => 45)) (cpu_gpr j)
                < 2 ^ TARGET_LONG_BITS rv32_softmmu)
  /\ exists s',
       exec rv32_softmmu
         (emitted_since tcg_init
            (snd (gen_shift rv32_softmmu (sample_ctx 0 0)
                    {| arith_rd := 7; arith_rs1 := 6; arith_rs2 := 5 |}
                    tcg_gen_sub_tl tcg_init)))
         (guest_regs (fun _ => 45)) = Next s'
       /\ tv s' (cpu_gpr 7) = 45 - 13.
Proof.
  assert (H : computes_on rv32_softmmu (TARGET_LONG_BITS rv32_softmmu) tcg_gen_sub_tl
     (fun a b => target_ulong rv32_softmmu (a - b))
   /\ forall j, 0 <= tv (guest_regs (fun _ => 45)) (cpu_gpr j)
                < 2 ^ TARGET_LONG_BITS rv32_softmmu).
  { split.
    - apply computes_on_weaken; [vm_compute; discriminate | apply tcg_gen_sub_tl_computes].
    - intros j. simpl. lia. }
  split; [exact H |]. destruct H as [Hc Hr].
  destruct (gen_shift_masks_amount rv32_softmmu (sample_ctx 0 0)
              {| arith_rd := 7; arith_rs1 := 6; arith_rs2 := 5 |}
              tcg_gen_sub_tl _ tcg_init (guest_regs (fun _ => 45)) Hc Hr)
    as (_ & s' & Hex & Hv & _).
  exists s'. split; [exact Hex |]. etransitivity; [apply Hv; discriminate | reflexivity].
Defined.

(** X12.  Called through [gen_arith], the four division generators give
    the division instructions on registers: with register-width values in
    the registers, the emitted operations run to completion for every pair
    of operand values (no host division fault), and for [rd] other than 0
    leave in register [rd] the quotient or remainder the architecture
    defines for the values of [rs1] and [rs2] (register 0 reading as 0):
    all-ones resp. the dividend for a zero divisor, the dividend resp. 0
    for the overflowing signed pair.  No register other than [rd] and no
    other global value changes; for [rd] 0 none changes. *)
Theorem gen_arith_division (cfg : Config) (ctx : DisasContext) (a : arg_arith)
  (tc : TCGContext) (s : GuestState) :
  (forall j, 0 <= tv s (cpu_gpr j) < 2 ^ TARGET_LONG_BITS cfg) ->
  let gives (func : TCGv -> TCGv -> TCGv -> Gen unit) (f : Z -> Z -> Z) :=
    exists s',
      exec cfg (emitted_since tc (snd (gen_arith ctx a func tc))) s = Next s'
      /\ (arith_rd a <> 0 ->
          tv s' (cpu_gpr (arith_rd a)) =
          f (gpr_value s (arith_rs1 a)) (gpr_value s (arith_rs2 a)))
      /\ (forall x, is_global x = true ->
                    arith_rd a = 0 \/ x <> cpu_gpr (arith_rd a) ->
                    tv s' x = tv s x) in
  gives (gen_div cfg) (riscv_div cfg)
  /\ gives (gen_divu cfg) (riscv_divu cfg)
  /\ gives (gen_rem cfg) (riscv_rem cfg)
  /\ gives (gen_remu cfg) (riscv_remu cfg).
Proof.
  intros Hregs gives. subst gives. cbv beta.
  split; [| split; [| split]].
  - exact (proj2 (wrapper_arith cfg ctx a _ _ tc s (gen_div_computes cfg) Hregs)).
  - exact (proj2 (wrapper_arith cfg ctx a _ _ tc s (gen_divu_computes cfg) Hregs)).
  - exact (proj2 (wrapper_arith cfg ctx a _ _ tc s (gen_rem_computes cfg) Hregs)).
  - exact (proj2 (wrapper_arith cfg ctx a _ _ tc s (gen_remu_computes cfg) Hregs)).
Qed.

(** [rem x7, x6, x0] on a 64-bit target: remainder by the zero register. *)
Lemma gen_arith_division_witness :
  (forall j, 0 <= tv (guest_regs (fun _ => 45)) (cpu_gpr j)
             < 2 ^ TARGET_LONG_BITS rv64_softmmu)
  /\ exists s',
       exec rv64_softmmu
         (emitted_since tcg_init
            (snd (gen_arith (sample_ctx 0 0)
                    {| arith_rd := 7; arith_rs1 := 6; arith_rs2 := 0 |}
                    (gen_rem rv64_softmmu) tcg_init)))
         (guest_regs (fun _ => 45)) = Next s'
       /\ tv s' (cpu_gpr 7) = 45.
Proof.
  assert (H : forall j, 0 <= tv (guest_regs (fun _ => 45)) (cpu_gpr j)
                        < 2 ^ TARGET_LONG_BITS rv64_softmmu)
    by (intros j; simpl; lia).
  split; [exact H |].
  destruct (proj1 (proj2 (proj2 (gen_arith_division rv64_softmmu (sample_ctx 0 0)
              {| arith_rd := 7; arith_rs1 := 6; arith_rs2 := 0 |}
              tcg_init (guest_regs (fun _ => 45)) H))))
    as (s' & Hex & Hv & _).
  exists s'. split; [exact Hex |]. etransitivity; [apply Hv; discriminate | reflexivity].
Defined.

(** X13.  Called through [gen_arith], [gen_mulhsu] gives MULHSU on
    registers: for [rd] other than 0 register [rd] receives the upper
    register-width half of the product of [rs1] read as signed and [rs2]
    read as unsigned, also when the two are the same register, and nothing
    else changes. *)
Theorem gen_arith_mulhsu (cfg : Config) (ctx : DisasContext) (a : arg_arith)
  (tc : TCGContext) (s : GuestState) :
  (forall j, 0 <= tv s (cpu_gpr j) < 2 ^ TARGET_LONG_BITS cfg) ->
  exists s',
    exec cfg (emitted_since tc (snd (gen_arith ctx a (gen_mulhsu cfg) tc))) s = Next s'
    /\ (arith_rd a <> 0 ->
        tv s' (cpu_gpr (arith_rd a)) =
        target_ulong cfg
          ((target_long cfg (gpr_value s (arith_rs1 a)) * gpr_value s (arith_rs2 a))
           / 2 ^ TARGET_LONG_BITS cfg))
    /\ (forall x, is_global x = true ->
                  arith_rd a = 0 \/ x <> cpu_gpr (arith_rd a) ->
                  tv s' x = tv s x).
Proof.
  intros Hregs.
  exact (proj2 (wrapper_arith cfg ctx a _ _ tc s (gen_mulhsu_computes cfg) Hregs)).
Qed.

(** [mulhsu x7, x6, x6] with -1 in x6 on a 32-bit target. *)
Lemma gen_arith_mulhsu_witness :
  (forall j, 0 <= tv (guest_regs (fun _ => 2 ^ 32 - 1)) (cpu_gpr j)
             < 2 ^ TARGET_LONG_BITS rv32_softmmu)
  /\ exists s',
       exec rv32_softmmu
         (emitted_since tcg_init
            (snd (gen_arith (sample_ctx 0 0)
                    {| arith_rd := 7; arith_rs1 := 6; arith_rs2 := 6 |}
                    (gen_mulhsu rv32_softmmu) tcg_init)))
         (guest_regs (fun _ => 2 ^ 32 - 1)) = Next s'
       /\ tv s' (cpu_gpr 7) = 2 ^ 32 - 1.
Proof.
  assert (H : forall j, 0 <= tv (guest_regs (fun _ => 2 ^ 32 - 1)) (cpu_gpr j)
                        < 2 ^ TARGET_LONG_BITS rv32_softmmu)
    by (intros j; simpl; lia).
  split; [exact H |].
  destruct (gen_arith_mulhsu rv32_softmmu (sample_ctx 0 0)
              {| arith_rd := 7; arith_rs1 := 6; arith_rs2 := 6 |}
              tcg_init (guest_regs (fun _ => 2 ^ 32 - 1)) H)
    as (s' & Hex & Hv & _).
  exists s'. split; [exact Hex |]. etransitivity; [apply Hv; discriminate | reflexivity].
Defined.

(** ** The placeholder [cpu_gpr[0]] is never an operand *)

Ltac only_operands :=
  let o := fresh "o" in let x := fresh "x" in
  let Ho := fresh "Ho" in let Hx := fresh "Hx" in
  intros o x Ho Hx; simpl in Ho;
  repeat (destruct Ho as [<- | Ho];
          [simpl in Hx;
           repeat (destruct Hx as [<- | Hx]; [auto |]); contradiction |]);
  contradiction.

Ltac avoids_tac :=
  let o := fresh "o" in let Ho := fresh "Ho" in let Hx := fresh "Hx" in
  intros o Ho; simpl in Ho;
  repeat (destruct Ho as [<- | Ho];
          [simpl; intros Hx;
           repeat (destruct Hx as [Hx | Hx]; [discriminate Hx |]); exact Hx |]);
  destruct Ho.

Lemma gen_div_only_operands (cfg : Config) : uses_only_operands (gen_div cfg).
Proof.
  intros r a b tc. eexists. split; [apply gen_div_ops |]. cbv zeta. only_operands.
Qed.

Lemma gen_divu_only_operands (cfg : Config) : uses_only_operands (gen_divu cfg).
Proof.
  intros r a b tc. eexists. split; [apply gen_divu_ops |]. cbv zeta. only_operands.
Qed.

Lemma gen_rem_only_operands (cfg : Config) : uses_only_operands (gen_rem cfg).
Proof.
  intros r a b tc. eexists. split; [apply gen_rem_ops |]. cbv zeta. only_operands.
Qed.

Lemma gen_remu_only_operands (cfg : Config) : uses_only_operands (gen_remu cfg).
Proof.
  intros r a b tc. eexists. split; [apply gen_remu_ops |]. cbv zeta. only_operands.
Qed.

Lemma gen_mulhsu_only_operands (cfg : Config) : uses_only_operands (gen_mulhsu cfg).
Proof.
  intros r a b tc. eexists. split; [apply gen_mulhsu_ops |]. only_operands.
Qed.

Lemma avoids_gpr0_app (l1 l2 : list tcg_op) :
  avoids_gpr0 l1 -> avoids_gpr0 l2 -> avoids_gpr0 (l1 ++ l2).
Proof.
  intros H1 H2 o Ho. apply in_app_or in Ho. destruct Ho; [now apply H1 | now apply H2].
Qed.

Lemma gen_get_gpr_avoids (t : TCGv) (reg_num : Z) (tc : TCGContext) :
  t <> cpu_gpr 0 ->
  exists o,
    gen_get_gpr t reg_num tc =
      (tt, {| tcg_ops := tcg_ops tc ++ [o]; nb_temps := nb_temps tc;
              nb_temps_i32 := nb_temps_i32 tc |})
    /\ avoids_gpr0 [o].
Proof.
  intros Ht. unfold gen_get_gpr.
  destruct (Z.eqb_spec reg_num 0) as [E | N].
  - exists (op_movi t 0). split; [reflexivity |].
    intros o [<- | []] [E' | []]. congruence.
  - exists (op_mov t (cpu_gpr reg_num)). split; [reflexivity |].
    intros o [<- | []] [E' | [E' | []]]; [congruence |].
    injection E'. intros. contradiction.
Qed.

Lemma wrapper_avoids (func : TCGv -> TCGv -> TCGv -> Gen unit) (rd : Z)
  (tc tcl : TCGContext) (load : list tcg_op) :
  uses_only_operands func ->
  tcg_ops tcl = tcg_ops tc ++ load ->
  avoids_gpr0 load ->
  avoids_gpr0
    (emitted_since tc
       (snd ((func (TEMP (nb_temps tc)) (TEMP (nb_temps tc)) (TEMP (S (nb_temps tc))) ;;
              gen_set_gpr rd (TEMP (nb_temps tc)) ;;
              tcg_temp_free (TEMP (nb_temps tc)) ;;
              tcg_temp_free (TEMP (S (nb_temps tc))) ;;
              ret true)%gen tcl))).
Proof.
  intros Hf Hol Hl.
  destruct (Hf (TEMP (nb_temps tc)) (TEMP (nb_temps tc)) (TEMP (S (nb_temps tc))) tcl)
    as (new & Ho & Hargs).
  assert (Hnew : avoids_gpr0 new).
  { intros o Ho' Hin. destruct (Hargs o _ Ho' Hin) as [E | [E | [E | E]]]; discriminate. }
  unfold bind.
  destruct (func (TEMP (nb_temps tc)) (TEMP (nb_temps tc)) (TEMP (S (nb_temps tc))) tcl)
    as [u tcf].
  cbn [fst snd] in *.
  unfold gen_set_gpr, tcg_temp_free, ret.
  destruct (Z.eqb_spec rd 0) as [E0 | N0]; cbn [negb fst snd].
  - rewrite (emitted_since_app tc tcf (load ++ new))
      by (rewrite Ho, Hol, app_assoc; reflexivity).
    now apply avoids_gpr0_app.
  - unfold tcg_gen_mov_tl, emit. cbn [fst snd tcg_ops].
    rewrite (emitted_since_app tc _
               (load ++ new ++ [op_mov (cpu_gpr rd) (TEMP (nb_temps tc))]))
      by (cbn [tcg_ops]; rewrite Ho, Hol, !app_assoc; reflexivity).
    apply avoids_gpr0_app; [exact Hl |].
    apply avoids_gpr0_app; [exact Hnew |].
    intros o [<- | []] [E' | [E' | []]]; [| discriminate].
    injection E'. intros. contradiction.
Qed.

(** X14.  The translator never hands [cpu_gpr[0]], the placeholder that
    [riscv_translate_init] leaves unallocated, to an operation: not in a
    register read or write with any register number, not in [gen_jal] with
    any destination, and not in [gen_arith], [gen_arith_imm] or [gen_shift]
    with any register numbers, provided the generator passed in names only
    its operands and temporaries -- as the five multiply/divide generators
    of this file do. *)
Theorem translator_avoids_gpr0 (cfg : Config) (e : CPURISCVState)
  (ctx : DisasContext) (a : arg_arith) (ai : arg_arith_imm)
  (func : TCGv -> TCGv -> TCGv -> Gen unit) (reg_num rd imm : Z) (t : TCGv)
  (tc : TCGContext) :
  t <> cpu_gpr 0 -> uses_only_operands func ->
  avoids_gpr0 (emitted_since tc (snd (gen_get_gpr t reg_num tc)))
  /\ avoids_gpr0 (emitted_since tc (snd (gen_set_gpr reg_num t tc)))
  /\ avoids_gpr0 (emitted_since tc (snd (gen_jal cfg e ctx rd imm tc)))
  /\ avoids_gpr0 (emitted_since tc (snd (gen_arith ctx a func tc)))
  /\ avoids_gpr0 (emitted_since tc (snd (gen_arith_imm ctx ai func tc)))
  /\ avoids_gpr0 (emitted_since tc (snd (gen_shift cfg ctx a func tc)))
  /\ uses_only_operands (gen_div cfg) /\ uses_only_operands (gen_divu cfg)
  /\ uses_only_operands (gen_rem cfg) /\ uses_only_operands (gen_remu cfg)
  /\ uses_only_operands (gen_mulhsu cfg).
Proof.
  intros Ht Hf.
  split.
  { destruct (gen_get_gpr_avoids t reg_num tc Ht) as (o & G & Ha).
    rewrite G. cbn [snd]. rewrite (emitted_since_app _ _ [o]) by reflexivity.
    exact Ha. }
  split.
  { unfold gen_set_gpr. destruct (Z.eqb_spec reg_num 0) as [E0 | N0]; cbn [negb].
    - unfold ret. cbn [snd]. rewrite emitted_since_refl. intros o [].
    - rewrite (emitted_since_app _ _ [op_mov (cpu_gpr reg_num) t]) by reflexivity.
      intros o [<- | []] [E' | [E' | []]]; [| congruence].
      injection E'. intros. contradiction. }
  split.
  { assert (Hg : forall tc0 dest,
              avoids_gpr0 (emitted_since tc0 (snd (gen_goto_tb cfg ctx 0 dest tc0)))).
    { intros tc0 dest. unfold gen_goto_tb.
      destruct (use_goto_tb cfg ctx dest); [| destruct (singlestep_enabled (base ctx))].
      - rewrite (emitted_since_app _ _
                   [op_goto_tb 0; op_movi cpu_pc dest;
                    op_exit_tb (Some (tb (base ctx))) 0])
          by (unfold bind; simpl; repeat rewrite <- app_assoc; reflexivity).
        avoids_tac.
      - rewrite (emitted_since_app _ _
                   [op_movi cpu_pc dest;
                    op_movi_i32 (TEMP_I32 (nb_temps_i32 tc0)) EXCP_DEBUG;
                    op_helper_raise_exception (TEMP_I32 (nb_temps_i32 tc0))])
          by (unfold gen_exception_debug, bind; simpl;
              repeat rewrite <- app_assoc; reflexivity).
        avoids_tac.
      - rewrite (emitted_since_app _ _ [op_movi cpu_pc dest; op_lookup_and_goto_ptr])
          by (unfold bind; simpl; repeat rewrite <- app_assoc; reflexivity).
        avoids_tac. }
    unfold gen_jal.
    assert (Hjump : avoids_gpr0
      (emitted_since tc
         (snd (((if negb (rd =? 0)
                 then tcg_gen_movi_tl (cpu_gpr rd) (pc_succ_insn ctx)
                 else ret tt) ;;
                gen_goto_tb cfg ctx 0 (target_ulong cfg (pc_next (base ctx) + imm)) ;;
                ret (set_is_jmp ctx DISAS_NORETURN))%gen tc)))).
    { destruct (Z.eqb_spec rd 0) as [E0 | N0]; cbn [negb]; unfold bind, ret.
      - cbn [fst snd].
        specialize (Hg tc (target_ulong cfg (pc_next (base ctx) + imm))).
        destruct (gen_goto_tb cfg ctx 0 _ tc) as [u t1]. exact Hg.
      - unfold tcg_gen_movi_tl, emit. cbn [fst snd].
        set (tc1 := {| tcg_ops := tcg_ops tc ++ [op_movi (cpu_gpr rd) (pc_succ_insn ctx)];
                       nb_temps := nb_temps tc; nb_temps_i32 := nb_temps_i32 tc |}).
        specialize (Hg tc1 (target_ulong cfg (pc_next (base ctx) + imm))).
        destruct (gen_goto_tb_run cfg ctx 0 (target_ulong cfg (pc_next (base ctx) + imm))
                    tc1 guest_zero) as (new & _ & _ & Ho & _).
        destruct (gen_goto_tb cfg ctx 0 _ tc1) as [u t1]. cbn [fst snd] in *.
        rewrite (emitted_since_app _ _ _ Ho) in Hg.
        rewrite (emitted_since_app tc t1
                   ([op_movi (cpu_gpr rd) (pc_succ_insn ctx)] ++ new))
          by (rewrite Ho; unfold tc1; cbn [tcg_ops]; rewrite <- app_assoc; reflexivity).
        apply avoids_gpr0_app; [| exact Hg].
        intros o [<- | []] [E' | []]. injection E'. intros. contradiction. }
    destruct (negb (riscv_has_ext e RVC)); [| exact Hjump].
    destruct (negb (Z.land (target_ulong cfg (pc_next (base ctx) + imm)) 3 =? 0));
      [| exact Hjump].
    destruct (generate_exception_mbadaddr_emits ctx RISCV_EXCP_INST_ADDR_MIS tc)
      as [_ Ho].
    unfold gen_exception_inst_addr_mis. rewrite (emitted_since_app _ _ _ Ho).
    avoids_tac. }
  split.
  { destruct (gen_get_gpr_avoids (TEMP (nb_temps tc)) (arith_rs1 a)
                {| tcg_ops := tcg_ops tc; nb_temps := S (S (nb_temps tc));
                   nb_temps_i32 := nb_temps_i32 tc |}) as (o1 & G1 & A1);
      [discriminate |].
    destruct (gen_get_gpr_avoids (TEMP (S (nb_temps tc))) (arith_rs2 a)
                {| tcg_ops := tcg_ops tc ++ [o1]; nb_temps := S (S (nb_temps tc));
                   nb_temps_i32 := nb_temps_i32 tc |}) as (o2 & G2 & A2);
      [discriminate |].
    cbn [tcg_ops nb_temps nb_temps_i32] in G1, G2.
    rewrite gen_arith_eq, G1. cbn [snd]. rewrite G2. cbn [snd].
    apply (wrapper_avoids func (arith_rd a) tc _ ([o1] ++ [o2]) Hf).
    - cbn [tcg_ops]. rewrite <- app_assoc. reflexivity.
    - now apply avoids_gpr0_app. }
  split.
  { destruct (gen_get_gpr_avoids (TEMP (nb_temps tc)) (arith_imm_rs1 ai)
                {| tcg_ops := tcg_ops tc; nb_temps := S (S (nb_temps tc));
                   nb_temps_i32 := nb_temps_i32 tc |}) as (o1 & G1 & A1);
      [discriminate |].
    cbn [tcg_ops nb_temps nb_temps_i32] in G1.
    rewrite gen_arith_imm_eq, G1.
    cbn [snd tcg_gen_movi_tl emit tcg_ops nb_temps nb_temps_i32].
    apply (wrapper_avoids func (arith_imm_rd ai) tc _
             ([o1] ++ [op_movi (TEMP (S (nb_temps tc))) (arith_imm_imm ai)]) Hf).
    - cbn [tcg_ops]. rewrite <- app_assoc. reflexivity.
    - apply avoids_gpr0_app; [exact A1 |].
      intros o [<- | []] [E' | []]. discriminate. }
  split.
  { destruct (gen_get_gpr_avoids (TEMP (nb_temps tc)) (arith_rs1 a)
                {| tcg_ops := tcg_ops tc; nb_temps := S (S (nb_temps tc));
                   nb_temps_i32 := nb_temps_i32 tc |}) as (o1 & G1 & A1);
      [discriminate |].
    destruct (gen_get_gpr_avoids (TEMP (S (nb_temps tc))) (arith_rs2 a)
                {| tcg_ops := tcg_ops tc ++ [o1]; nb_temps := S (S (nb_temps tc));
                   nb_temps_i32 := nb_temps_i32 tc |}) as (o2 & G2 & A2);
      [discriminate |].
    cbn [tcg_ops nb_temps nb_temps_i32] in G1, G2.
    rewrite gen_shift_eq, G1. cbn [snd]. rewrite G2.
    unfold tcg_gen_andi_tl, tcg_const_tl, tcg_gen_and_tl, tcg_temp_free, bind, ret.
    cbn [snd fst tcg_temp_new emit tcg_ops nb_temps nb_temps_i32].
    apply (wrapper_avoids func (arith_rd a) tc _
             ([o1] ++ [o2] ++
              [op_movi (TEMP (S (S (nb_temps tc)))) (TARGET_LONG_BITS cfg - 1);
               op_and (TEMP (S (nb_temps tc))) (TEMP (S (nb_temps tc)))
                 (TEMP (S (S (nb_temps tc))))]) Hf).
    - cbn [tcg_ops]. repeat rewrite <- app_assoc. reflexivity.
    - apply avoids_gpr0_app; [exact A1 |]. apply avoids_gpr0_app; [exact A2 |].
      intros o [<- | [<- | []]]; simpl; intros E';
        repeat (destruct E' as [E' | E']; [discriminate |]); exact E'. }
  repeat split.
  - apply gen_div_only_operands.
  - apply gen_divu_only_operands.
  - apply gen_rem_only_operands.
  - apply gen_remu_only_operands.
  - apply gen_mulhsu_only_operands.
Qed.

(** [div x0, x0, x0] and a jump with destination [x0]. *)
Lemma translator_avoids_gpr0_witness :
  (TEMP 0 <> cpu_gpr 0 /\ uses_only_operands (gen_div rv64_softmmu))
  /\ avoids_gpr0
       (emitted_since tcg_two_temps
          (snd (gen_arith (sample_ctx 0 0)
                  {| arith_rd := 0; arith_rs1 := 0; arith_rs2 := 0 |}
                  (gen_div rv64_softmmu) tcg_two_temps))).
Proof.
  assert (H : TEMP 0 <> cpu_gpr 0 /\ uses_only_operands (gen_div rv64_softmmu))
    by (split; [discriminate | apply gen_div_only_operands]).
  split; [exact H |]. destruct H as [Ht Hf].
  exact (proj1 (proj2 (proj2 (proj2
           (translator_avoids_gpr0 rv64_softmmu (sample_env 0 0) (sample_ctx 0 0)
              {| arith_rd := 0; arith_rs1 := 0; arith_rs2 := 0 |}
              {| arith_imm_rd := 0; arith_imm_rs1 := 0; arith_imm_imm := 0 |}
              (gen_div rv64_softmmu) 0 0 0 (TEMP 0) tcg_two_temps Ht Hf))))).
Defined.

(** ** Decoder field helpers *)

Lemma int32_t_range (z : Z) : - 2 ^ 31 <= int32_t z < 2 ^ 31.
Proof.
  unfold int32_t. cbv zeta.
  pose proof (Z.mod_pos_bound z (2 ^ 32) ltac:(lia)) as Hb.
  destruct (Z.ltb_spec (z mod 2 ^ 32) (2 ^ 31)); lia.
Qed.

Lemma int32_t_congr (z : Z) : exists k, int32_t z = z + k * 2 ^ 32.
Proof.
  unfold int32_t. cbv zeta.
  pose proof (Z.div_mod z (2 ^ 32) ltac:(lia)) as Hd.
  destruct (Z.ltb_spec (z mod 2 ^ 32) (2 ^ 31)).
  - exists (- (z / 2 ^ 32)). lia.
  - exists (- (z / 2 ^ 32) - 1). lia.
Qed.

Lemma int32_t_small (z : Z) : - 2 ^ 31 <= z < 2 ^ 31 -> int32_t z = z.
Proof.
  intros Hz. destruct (int32_t_congr z) as (k & Hk).
  pose proof (int32_t_range z). lia.
Qed.

(** X15.  The immediate helpers of the decoder.  For a shift amount below
    32, [ex_shift_<amount>] returns a 32-bit signed value that is a
    multiple of [2^amount], and it is exactly [imm * 2^amount] whenever
    [imm] fits in [32 - amount] signed bits, so no field of at most that
    width is truncated.  [ex_rvc_register] maps a 3-bit compressed register
    field to one of [x8]..[x15], so a write to it with [gen_set_gpr] is
    never dropped. *)
Theorem decode_field_helpers (amount imm reg : Z) (t : TCGv) (tc : TCGContext) :
  0 <= amount < 32 -> 0 <= reg < 8 ->
  - 2 ^ 31 <= EX_SH amount imm < 2 ^ 31
  /\ EX_SH amount imm mod 2 ^ amount = 0
  /\ (- 2 ^ (31 - amount) <= imm < 2 ^ (31 - amount) ->
      EX_SH amount imm = imm * 2 ^ amount)
  /\ 8 <= ex_rvc_register reg < 16
  /\ emitted_since tc (snd (gen_set_gpr (ex_rvc_register reg) t tc)) =
     [op_mov (cpu_gpr (ex_rvc_register reg)) t].
Proof.
  intros Ha Hr. unfold EX_SH. rewrite Z.shiftl_mul_pow2 by lia.
  split; [apply int32_t_range |].
  split.
  { destruct (int32_t_congr (imm * 2 ^ amount)) as (k & ->).
    replace (2 ^ 32) with (2 ^ (32 - amount) * 2 ^ amount)
      by (rewrite <- Z.pow_add_r by lia; f_equal; lia).
    replace (imm * 2 ^ amount + k * (2 ^ (32 - amount) * 2 ^ amount))
      with ((imm + k * 2 ^ (32 - amount)) * 2 ^ amount) by ring.
    apply Z.mod_mul. apply Z.pow_nonzero; lia. }
  split.
  { intros Hi. apply int32_t_small.
    assert (E : 2 ^ 31 = 2 ^ (31 - amount) * 2 ^ amount)
      by (rewrite <- Z.pow_add_r by lia; f_equal; lia).
    assert (0 < 2 ^ amount) by (apply Z.pow_pos_nonneg; lia).
    rewrite E. nia. }
  unfold ex_rvc_register. split; [lia |].
  unfold gen_set_gpr.
  destruct (Z.eqb_spec (8 + reg) 0) as [E0 | N0]; [lia |]. cbn [negb].
  apply emitted_since_app. reflexivity.
Qed.

(** The upper immediate [0xfffff] of [lui], as the signed 20-bit field -1,
    and the compressed register field 7. *)
Lemma decode_field_helpers_witness :
  (0 <= 12 < 32 /\ 0 <= 7 < 8)
  /\ ex_shift_12 (-1) = -4096
  /\ ex_rvc_register 7 = 15.
Proof.
  assert (H : 0 <= 12 < 32 /\ 0 <= 7 < 8) by lia.
  split; [exact H |]. destruct H as [Ha Hr].
  destruct (decode_field_helpers 12 (-1) 7 (TEMP 0) tcg_two_temps Ha Hr)
    as (_ & _ & Hex & Hreg & _).
  split.
  - unfold ex_shift_12. rewrite Hex by (simpl; lia). reflexivity.
  - reflexivity.
Defined.
